(** * Plex_Updater: the folder-state reconciliation engine

    A shallow embedding of the scan cycle of [main.py] and of the helpers of
    [media_scraper.py] and [telegram_notifier.py] it calls, then of the
    texts of the messages and of the parts of [telegram_bot_handler.py] that
    read what the scan leaves, followed by the properties of the
    specification proved (or refuted) against it and by further properties
    of the code.

    Conventions of the embedding.
    - A Python [str] is a Rocq [string]; a character is an [ascii], so the
      alphabet is the code points 0..255.  On that alphabet the classes the
      regular expressions and [str.strip] use are: decimal digits = '0'..'9',
      white space = 9..13, 28..32, 133 and 160.
    - A Python [dict] with string keys is a [gmap string _], a [set] is a
      [gset _].  Equality of maps is Python's [==] on dicts (order-free).
    - A JSON document on disk is a term of [json]; its objects are ordered
      lists of members, as the text of the file is.
    - An exception is a value of [exn]; a call that may raise returns a [res].
    - The outside world (directory trees, the metadata provider, the poster
      downloads, the chat API, the wall clock) is a record of oracles [env].
*)

From Stdlib Require Import String Ascii ZArith List Bool Lia.
From stdpp Require Import gmap strings list fin_maps sorting pretty.

Set Warnings "-register-all".

Open Scope string_scope.
Open Scope list_scope.

(* ===================================================================== *)
(** * Characters and strings *)
(* ===================================================================== *)

Module Str.
Local Open Scope char_scope.

Definition chars (s : string) : list ascii := list_ascii_of_string s.
Definition str (l : list ascii) : string := string_of_list_ascii l.

Definition code (c : ascii) : N := N_of_ascii c.

(** [str.isspace] on one character, which is also the class [\s]. *)
Definition is_space (c : ascii) : bool :=
  let n := code c in
  ((9 <=? n) && (n <=? 13) || (28 <=? n) && (n <=? 32)
   || (n =? 133) || (n =? 160))%N.

(** The class [\d]. *)
Definition is_digit (c : ascii) : bool :=
  let n := code c in ((48 <=? n) && (n <=? 57))%N.

(** The only character [.] does not match. *)
Definition is_newline (c : ascii) : bool := Ascii.eqb c "010".

(** The class [[._-]]. *)
Definition is_sep (c : ascii) : bool :=
  Ascii.eqb c "." || Ascii.eqb c "_" || Ascii.eqb c "-".

Fixpoint lstrip (l : list ascii) : list ascii :=
  match l with
  | c :: l' => if is_space c then lstrip l' else l
  | [] => []
  end.

Fixpoint rstrip (l : list ascii) : list ascii :=
  match l with
  | c :: l' =>
      match rstrip l' with
      | [] => if is_space c then [] else [c]
      | r => c :: r
      end
  | [] => []
  end.

(** [s.strip()] *)
Definition strip (l : list ascii) : list ascii := lstrip (rstrip l).

(** [s.replace(a, b)] for one-character [a] and [b]. *)
Definition replace (a b : ascii) (l : list ascii) : list ascii :=
  map (fun c => if Ascii.eqb c a then b else c) l.

(** [s.startswith(p)] *)
Definition startswith (s p : string) : bool := String.prefix p s.

(** [needle in haystack] for two strings. *)
Fixpoint contains (haystack needle : string) : bool :=
  String.prefix needle haystack ||
  match haystack with
  | EmptyString => false
  | String _ h => contains h needle
  end.

Definition no_newline (l : list ascii) : Prop :=
  Forall (fun c => is_newline c = false) l.

End Str.

(* ===================================================================== *)
(** * [media_scraper.parse_folder_name] *)
(* ===================================================================== *)

Module Parse.
Import Str.
Local Open Scope char_scope.

(** ** The two regular expressions, as backtracking matchers

    Each combinator takes the matcher [k] of the rest of the pattern and
    tries its alternatives in the order the [re] engine does. *)

(** [$]: the end of the string, or just before a final line feed. *)
Definition at_end (l : list ascii) : bool :=
  match l with
  | [] => true
  | [c] => is_newline c
  | _ => false
  end.

(** [\((\d{4})\)$] *)
Definition paren_year_end (l : list ascii) : option (list ascii) :=
  match l with
  | o :: d1 :: d2 :: d3 :: d4 :: c :: rest =>
      if Ascii.eqb o "(" && is_digit d1 && is_digit d2 && is_digit d3
         && is_digit d4 && Ascii.eqb c ")" && at_end rest
      then Some [d1; d2; d3; d4] else None
  | _ => None
  end.

(** [(\d{4})$] *)
Definition year_end (l : list ascii) : option (list ascii) :=
  match l with
  | d1 :: d2 :: d3 :: d4 :: rest =>
      if is_digit d1 && is_digit d2 && is_digit d3 && is_digit d4
         && at_end rest
      then Some [d1; d2; d3; d4] else None
  | _ => None
  end.

(** [\s*] (greedy) followed by [k]. *)
Fixpoint spaces_then {A} (k : list ascii -> option A) (l : list ascii)
  : option A :=
  match l with
  | c :: l' =>
      if is_space c then
        match spaces_then k l' with
        | Some r => Some r
        | None => k l
        end
      else k l
  | [] => k []
  end.

(** [[._-]?] (greedy) followed by [k]. *)
Definition opt_sep_then {A} (k : list ascii -> option A) (l : list ascii)
  : option A :=
  match l with
  | c :: l' =>
      if is_sep c then
        match k l' with
        | Some r => Some r
        | None => k l
        end
      else k l
  | [] => k []
  end.

(** [(.*?)] (lazy) followed by [k]; [acc] is what the group has consumed,
    last character first.  Returns the group and the result of [k]. *)
Fixpoint lazy_then {A} (k : list ascii -> option A) (acc l : list ascii)
  : option (list ascii * A) :=
  match k l with
  | Some r => Some (rev acc, r)
  | None =>
      match l with
      | c :: l' => if is_newline c then None else lazy_then k (c :: acc) l'
      | [] => None
      end
  end.

(** [re.search(r'^(.*?)\s*\((\d{4})\)$', s)]: groups 1 and 2. *)
Definition match_paren_year (l : list ascii)
  : option (list ascii * list ascii) :=
  lazy_then (spaces_then paren_year_end) [] l.

(** [re.search(r'^(.*?)[._-]?(\d{4})$', s)]: groups 1 and 2. *)
Definition match_sep_year (l : list ascii)
  : option (list ascii * list ascii) :=
  lazy_then (opt_sep_then year_end) [] l.

Definition parse_chars (l : list ascii) : list ascii * option (list ascii) :=
  match match_paren_year l with
  | Some (g1, g2) => (strip g1, Some g2)
  | None =>
      match match_sep_year l with
      | Some (g1, g2) => (strip (replace "-" " " (replace "." " " g1)), Some g2)
      | None => (strip l, None)
      end
  end.

Definition parse_folder_name (folder_name : string) : string * option string :=
  let '(t, y) := parse_chars (chars folder_name) in (str t, str <$> y).

(** ** The extraction policy in the words of the specification

    Rule 1: the name ends with [(dddd)]; rule 2: the name ends with [dddd],
    with one separator before it or none; rule 3: anything else. *)

Definition all_digits (d1 d2 d3 d4 : ascii) : bool :=
  is_digit d1 && is_digit d2 && is_digit d3 && is_digit d4.

Definition spec_rule1 (l : list ascii) : option (list ascii * list ascii) :=
  match rev l with
  | c :: d4 :: d3 :: d2 :: d1 :: o :: rp =>
      if Ascii.eqb o "(" && Ascii.eqb c ")" && all_digits d1 d2 d3 d4
      then Some (rev rp, [d1; d2; d3; d4]) else None
  | _ => None
  end.

Definition spec_rule2 (l : list ascii) : option (list ascii * list ascii) :=
  match rev l with
  | d4 :: d3 :: d2 :: d1 :: rq =>
      if all_digits d1 d2 d3 d4 then
        match rq with
        | s :: rp => if is_sep s then Some (rev rp, [d1; d2; d3; d4])
                     else Some (rev rq, [d1; d2; d3; d4])
        | [] => Some ([], [d1; d2; d3; d4])
        end
      else None
  | _ => None
  end.

(** The text [(d1d2d3d4)]. *)
Definition paren_tail (d1 d2 d3 d4 : ascii) : list ascii :=
  ["("; d1; d2; d3; d4; ")"].

(** A prefix without its last character when that is a separator. *)
Fixpoint drop_sep (q : list ascii) : list ascii :=
  match q with
  | [] => []
  | [c] => if is_sep c then [] else [c]
  | c :: q' => c :: drop_sep q'
  end.

Definition spec_parse_chars (l : list ascii) : list ascii * option (list ascii) :=
  match spec_rule1 l with
  | Some (p, y) => (strip p, Some y)
  | None =>
      match spec_rule2 l with
      | Some (p, y) => (strip (replace "-" " " (replace "." " " p)), Some y)
      | None => (strip l, None)
      end
  end.

Definition spec_parse (folder_name : string) : string * option string :=
  let '(t, y) := spec_parse_chars (chars folder_name) in (str t, str <$> y).

End Parse.

(* ===================================================================== *)
(** * Python values, exceptions and JSON documents *)
(* ===================================================================== *)

(** The exception classes the modelled code can raise.  All of them derive
    from [Exception]. *)
Inductive exn :=
| FileNotFoundError | JSONDecodeError | UnicodeDecodeError
| AttributeError | TypeError | TelegramError | ClientError.

(** The outcome of a call: a value, or an exception on its way up. *)
Inductive res (A : Type) :=
| Ok (a : A)
| Raise (e : exn).
Arguments Ok {A} a.
Arguments Raise {A} e.

#[global] Instance res_ret : MRet res := fun A a => Ok a.
#[global] Instance res_bind : MBind res := fun A B f m =>
  match m with Ok a => f a | Raise e => Raise e end.

(** The text of a JSON file.  Numbers are integers. *)
Inductive json :=
| JNull
| JBool (b : bool)
| JNum (n : Z)
| JStr (s : string)
| JArr (l : list json)
| JObj (members : list (string * json)).

(** What [json.load] builds and [json.dump] accepts. *)
Inductive pyval :=
| PNone
| PBool (b : bool)
| PInt (n : Z)
| PStr (s : string)
| PList (l : list pyval)
| PDict (d : gmap string pyval).

(** The hashable scalars a [set] built from a JSON array can hold.  [True]
    and [1] are one element of a set, as are [False] and [0]. *)
Inductive atom :=
| AStr (s : string)
| AInt (n : Z)
| ANone.

#[global] Instance atom_eq_dec : EqDecision atom.
Proof. solve_decision. Defined.

#[global] Instance atom_countable : Countable atom :=
  inj_countable'
    (fun a => match a with
              | AStr s => inl s | AInt n => inr (inl n) | ANone => inr (inr ())
              end)
    (fun x => match x with
              | inl s => AStr s | inr (inl n) => AInt n | inr (inr _) => ANone
              end)
    (fun a => match a with AStr _ | AInt _ | ANone => eq_refl end).

Module Py.

(** [json.load]: a repeated member name keeps its last value. *)
Fixpoint json_load (j : json) : pyval :=
  match j with
  | JNull => PNone
  | JBool b => PBool b
  | JNum n => PInt n
  | JStr s => PStr s
  | JArr l => PList (map json_load l)
  | JObj members =>
      PDict (foldl (fun d kv => <[kv.1 := json_load kv.2]> d) ∅ members)
  end.

(** [json.dump].  The members of an object are written in the order
    [map_to_list] enumerates them; no property below depends on it. *)
Fixpoint json_dump (v : pyval) : json :=
  match v with
  | PNone => JNull
  | PBool b => JBool b
  | PInt n => JNum n
  | PStr s => JStr s
  | PList l => JArr (map json_dump l)
  | PDict d => JObj (map_to_list (json_dump <$> d))
  end.

(** The number of nodes of a value. *)
Fixpoint pysize (v : pyval) : nat :=
  match v with
  | PList l => S (foldr (fun x n => pysize x + n) 0 l)
  | PDict d => S (map_fold (fun _ x n => pysize x + n) 0 d)
  | _ => 1
  end.

(** [bool(v)] *)
Definition truthy (v : pyval) : bool :=
  match v with
  | PNone => false
  | PBool b => b
  | PInt n => negb (n =? 0)%Z
  | PStr s => negb (String.eqb s "")
  | PList l => match l with [] => false | _ => true end
  | PDict d => negb (bool_decide (d = ∅))
  end.

(** [v == s] for a string [s]. *)
Definition eq_str (v : pyval) (s : string) : bool :=
  match v with PStr t => String.eqb t s | _ => false end.

(** [s in v] for a string [s]. *)
Definition contains (s : string) (v : pyval) : res bool :=
  match v with
  | PDict d => Ok (bool_decide (is_Some (d !! s)))
  | PList l => Ok (existsb (fun x => eq_str x s) l)
  | PStr t => Ok (Str.contains t s)
  | PNone | PBool _ | PInt _ => Raise TypeError
  end.

(** [v.get(key)] *)
Definition get (v : pyval) (key : string) : res pyval :=
  match v with
  | PDict d => Ok (default PNone (d !! key))
  | _ => Raise AttributeError
  end.

(** [v[key] = x] for a string [key]. *)
Definition setitem (v : pyval) (key : string) (x : pyval) : res pyval :=
  match v with
  | PDict d => Ok (PDict (<[key := x]> d))
  | _ => Raise TypeError
  end.

(** [del v[key]] for a string [key] that [v] contains. *)
Definition delitem (v : pyval) (key : string) : res pyval :=
  match v with
  | PDict d => Ok (PDict (delete key d))
  | _ => Raise TypeError
  end.

(** [len(v)] *)
Definition len (v : pyval) : res nat :=
  match v with
  | PStr s => Ok (String.length s)
  | PList l => Ok (length l)
  | PDict d => Ok (size d)
  | PNone | PBool _ | PInt _ => Raise TypeError
  end.

(** [hash(v)] succeeds: the element of a set [v] becomes. *)
Definition hashable (v : pyval) : res atom :=
  match v with
  | PNone => Ok ANone
  | PBool b => Ok (AInt (Z.b2z b))
  | PInt n => Ok (AInt n)
  | PStr s => Ok (AStr s)
  | PList _ | PDict _ => Raise TypeError
  end.

(** The characters of a string, each as a string of length one. *)
Fixpoint letters (s : string) : list string :=
  match s with
  | EmptyString => []
  | String c s' => String c EmptyString :: letters s'
  end.

(** [set(v)] *)
Definition to_set (v : pyval) : res (gset atom) :=
  match v with
  | PList l => l' ← mapM hashable l; Ok (list_to_set l')
  | PStr s => Ok (list_to_set (AStr <$> letters s))
  | PDict d => Ok (set_map AStr (dom d))
  | PNone | PBool _ | PInt _ => Raise TypeError
  end.

Definition atom_val (a : atom) : pyval :=
  match a with AStr s => PStr s | AInt n => PInt n | ANone => PNone end.

Definition atom_str (a : atom) : option string :=
  match a with AStr s => Some s | _ => None end.

Definition atom_int (a : atom) : option Z :=
  match a with AInt n => Some n | _ => None end.

(** [sorted(list(s))]: strings compare with strings and integers with
    integers; any other comparison raises [TypeError]. *)
Definition sorted (s : gset atom) : res (list atom) :=
  let l := elements s in
  match mapM atom_str l, mapM atom_int l, l with
  | Some names, _, _ => Ok (AStr <$> merge_sort String.leb names)
  | _, Some ints, _ => Ok (AInt <$> merge_sort Z.leb ints)
  | _, _, [ANone] => Ok [ANone]
  | _, _, _ => Raise TypeError
  end.

End Py.

(* ===================================================================== *)
(** * The world the program runs in *)
(* ===================================================================== *)

(** What [open(path).read()] followed by [json.load] meets at a path that
    exists. *)
Inductive file :=
| Document (j : json)   (** well-formed JSON text *)
| NotJson               (** text [json.load] rejects: [JSONDecodeError] *)
| NotText.              (** bytes that are not UTF-8: [UnicodeDecodeError] *)

(** A value of the loaded folder state: the set of child names of a root,
    or, under the reserved key, whatever the file held there. *)
Inductive fsval :=
| FSet (s : gset atom)
| FRaw (v : pyval).

(** One observable effect of a scan. *)
Inductive event :=
| EvLookup (title : string) (year : option string)
| EvDownload (url : string) (folder_name : string)
| EvRemovePoster (filename : string) (done : bool)
| EvSendPhoto (path : string) (sent : bool)
| EvSendText (sent : bool)
| EvWriteFolderState (path : string)
| EvWriteMetadata (path : string).

(** What a monitored path is on disk. *)
Inductive dir_status :=
| NoDir                                   (** the path does not exist *)
| DirError                                (** [os.listdir] raises *)
| Dir (entries : list (string * bool)).   (** names, each with [isdir] *)

(** The answer of the metadata provider to one request. *)
Inductive http_result :=
| HttpFailed                (** network error, bad status or bad body *)
| HttpJson (data : pyval).

(** The course of one poster download. *)
Inductive dl_result :=
| DlFailed        (** failed before the local file was opened *)
| DlTruncated     (** the local file was created, then the transfer failed *)
| DlDone.

(** The answer of the chat API to one request. *)
Inductive api_result :=
| ApiOk | ApiTelegramError | ApiOtherError.

(** The collaborators, as oracles.  [clock], [omdb], [download] and
    [telegram] are indexed by the number of oracle consultations so far. *)
Record env := {
  dirs : string -> dir_status;
  clock : nat -> string;
  omdb : nat -> string -> option string -> http_result;
  download : nat -> string -> dl_result;
  removable : string -> bool;
  telegram : nat -> api_result;
  text_too_long : bool;
  text_sections : nat;
}.

(** The mutable state: the JSON files, the poster directory ([None]: it
    does not exist), the oracle counter, the [current_folder_state] object
    shared through [bot_data], and the effects so far, latest first. *)
Record world := {
  files : gmap string file;
  posters : option (gset string);
  tick : nat;
  bot_folder_state : gmap string fsval;
  trace : list event;
}.

Record config := {
  monitored_folders : list string;
  folder_list_file : string;
  bot_token : string;
  chat_id : string;
  send_no_change_message : bool;
  omdb_api_key : string;
  posters_directory : string;
  script_dir : string;
}.

(** A computation on the world that may raise. *)
Definition M (A : Type) : Type := world -> res A * world.

#[global] Instance M_ret : MRet M := fun A a w => (Ok a, w).
#[global] Instance M_bind : MBind M := fun A B f m w =>
  match m w with
  | (Ok a, w') => f a w'
  | (Raise e, w') => (Raise e, w')
  end.

Module World.

Definition lift {A} (r : res A) : M A := fun w => (r, w).

Definition emit (e : event) : M unit := fun w =>
  (Ok (), {| files := files w; posters := posters w; tick := tick w;
             bot_folder_state := bot_folder_state w;
             trace := e :: trace w |}).

Definition next_tick : M nat := fun w =>
  (Ok (tick w), {| files := files w; posters := posters w;
                   tick := S (tick w);
                   bot_folder_state := bot_folder_state w;
                   trace := trace w |}).

(** [datetime.now().isoformat()] *)
Definition now (e : env) : M string :=
  t ← next_tick; mret (clock e t).

Definition set_files (f : gmap string file) : M unit := fun w =>
  (Ok (), {| files := f; posters := posters w; tick := tick w;
             bot_folder_state := bot_folder_state w; trace := trace w |}).

Definition set_posters (p : option (gset string)) : M unit := fun w =>
  (Ok (), {| files := files w; posters := p; tick := tick w;
             bot_folder_state := bot_folder_state w; trace := trace w |}).

Definition set_bot_folder_state (d : gmap string fsval) : M unit := fun w =>
  (Ok (), {| files := files w; posters := posters w; tick := tick w;
             bot_folder_state := d; trace := trace w |}).

Definition get_world : M world := fun w => (Ok w, w).

(** [with open(path, 'w') as f: json.dump(v, f)] *)
Definition dump_file (path : string) (v : pyval) : M unit :=
  w ← get_world;
  set_files (<[path := Document (Py.json_dump v)]> (files w)).

(** [with open(path) as f: json.load(f)] at a path that exists. *)
Definition load_file (f : file) : res pyval :=
  match f with
  | Document j => Ok (Py.json_load j)
  | NotJson => Raise JSONDecodeError
  | NotText => Raise UnicodeDecodeError
  end.

(** [os.path.join(a, b)], POSIX flavour. *)
Definition path_join (a b : string) : string :=
  if String.prefix "/" b then b
  else if String.eqb a "" then b
  else if String.eqb (String.substring (String.length a - 1) 1 a) "/"
       then a +:+ b
       else a +:+ "/" +:+ b.

End World.

(* ===================================================================== *)
(** * [media_scraper.py]: the metadata cache, the provider, the posters *)
(* ===================================================================== *)

(** [isinstance(e, Exception)] *)
Definition is_Exception (e : exn) : bool :=
  match e with
  | FileNotFoundError | JSONDecodeError | UnicodeDecodeError
  | AttributeError | TypeError | TelegramError | ClientError => true
  end.

(** [for x in l: body(x)] *)
Fixpoint for_each {A} (l : list A) (body : A -> M unit) : M unit :=
  match l with
  | [] => mret ()
  | x :: l' => _ ← body x; for_each l' body
  end.

Module Scraper.
Import World.

Definition MEDIA_METADATA_FILE : string := "media_metadata.json".

Definition get_media_metadata_file_path (script_dir : string) : string :=
  path_join script_dir MEDIA_METADATA_FILE.

(** The [try] block of [read_media_metadata]. *)
Definition read_media_metadata_try (fs : gmap string file) (file_path : string)
  : res pyval :=
  match fs !! file_path with
  | None => Ok (PDict ∅)
  | Some f =>
      metadata ← load_file f;
      _ ← Py.len metadata;
      Ok metadata
  end.

Definition read_media_metadata (fs : gmap string file) (file_path : string)
  : res pyval :=
  match read_media_metadata_try fs file_path with
  | Ok v => Ok v
  | Raise e =>
      match e with
      | FileNotFoundError | JSONDecodeError => Ok (PDict ∅)
      | _ => if is_Exception e then Ok (PDict ∅) else Raise e
      end
  end.

(** [write_media_metadata]: the dump cannot fail on a [pyval]. *)
Definition write_media_metadata (file_path : string) (metadata_dict : pyval)
  : M unit :=
  _ ← dump_file file_path metadata_dict;
  emit (EvWriteMetadata file_path).

(** The record [fetch_media_metadata_from_omdb] builds from the answer. *)
Definition omdb_record (data : gmap string pyval) (fetched : string)
  : gmap string pyval :=
  let field k := default PNone (data !! k) in
  <["title" := field "Title"]>
  (<["year" := field "Year"]>
  (<["rated" := field "Rated"]>
  (<["released" := field "Released"]>
  (<["runtime" := field "Runtime"]>
  (<["genre" := field "Genre"]>
  (<["director" := field "Director"]>
  (<["actors" := field "Actors"]>
  (<["plot" := field "Plot"]>
  (<["language" := field "Language"]>
  (<["country" := field "Country"]>
  (<["poster_url" := field "Poster"]>
  (<["imdb_rating" := field "imdbRating"]>
  (<["imdb_id" := field "imdbID"]>
  (<["type" := field "Type"]>
  (<["total_seasons" := field "totalSeasons"]>
  (<["last_fetched" := PStr fetched]> ∅)))))))))))))))).

Definition fetch_media_metadata_from_omdb
    (e : env) (title : string) (year : option string) (omdb_api_key : string)
  : M (option (gmap string pyval)) :=
  if String.eqb omdb_api_key "" then mret None
  else
    _ ← emit (EvLookup title year);
    t ← next_tick;
    match omdb e t title year with
    | HttpFailed => mret None
    | HttpJson (PDict data) =>
        if Py.eq_str (default PNone (data !! "Response")) "True"
        then fetched ← now e; mret (Some (omdb_record data fetched))
        else mret None
    | HttpJson _ => mret None     (* [data.get] raises, caught *)
    end.

(** The class of [re.sub(..., '_', folder_name)]: backslash, slash,
    colon, star, question mark, double quote, angle brackets and bar. *)
Definition illegal (c : ascii) : bool :=
  existsb (Ascii.eqb c)
    ["\"; "/"; ":"; "*"; "?"; "034"; "<"; ">"; "|"]%char.

Definition sanitize (folder_name : string) : string :=
  Str.str (map (fun c => if illegal c then "_"%char else c)
               (Str.chars folder_name)).

(** The part of [l] after the last [c], and what precedes that [c]. *)
Fixpoint rsplit (c : ascii) (l : list ascii)
  : option (list ascii * list ascii) :=
  match l with
  | [] => None
  | x :: l' =>
      match rsplit c l' with
      | Some (before, after) => Some (x :: before, after)
      | None => if Ascii.eqb x c then Some ([], l') else None
      end
  end.

(** [os.path.splitext(p)[1]], POSIX flavour. *)
Definition splitext_ext (p : string) : string :=
  let name := match rsplit "/" (Str.chars p) with
              | Some (_, after) => after
              | None => Str.chars p
              end in
  match rsplit "." name with
  | Some (before, after) =>
      if existsb (fun c => negb (Ascii.eqb c ".")) before
      then Str.str ("."%char :: after) else ""
  | None => ""
  end.

Definition add_poster (filename : string) : M unit :=
  w ← get_world;
  set_posters (Some ({[filename]} ∪ default ∅ (posters w))).

Definition download_poster
    (e : env) (poster_url : pyval) (posters_dir folder_name : string)
  : M (option string) :=
  if negb (Py.truthy poster_url) || Py.eq_str poster_url "N/A" then mret None
  else
    w ← get_world;
    _ ← match posters w with
        | Some _ => mret ()
        | None => set_posters (Some ∅)      (* [os.makedirs] *)
        end;
    match poster_url with
    | PStr url =>
        let file_extension :=
          if String.eqb (splitext_ext url) "" then ".jpg"
          else splitext_ext url in
        let local_poster_filename := sanitize folder_name +:+ file_extension in
        let local_poster_path := path_join posters_dir local_poster_filename in
        _ ← emit (EvDownload url folder_name);
        t ← next_tick;
        match download e t url with
        | DlFailed => mret None
        | DlTruncated => _ ← add_poster local_poster_filename; mret None
        | DlDone =>
            _ ← add_poster local_poster_filename;
            mret (Some local_poster_path)
        end
    | _ => lift (Raise TypeError)   (* [os.path.splitext] on a non-string *)
    end.

(** One turn of the loop of [delete_poster]. *)
Definition delete_one (e : env) (sanitized_folder_name filename : string)
  : M unit :=
  if Str.startswith filename sanitized_folder_name then
    if removable e filename then
      w ← get_world;
      _ ← set_posters (Some (default ∅ (posters w) ∖ {[filename]}));
      emit (EvRemovePoster filename true)
    else emit (EvRemovePoster filename false)
  else mret ().

Definition delete_poster (e : env) (folder_name : string) : M unit :=
  let sanitized_folder_name := sanitize folder_name in
  w ← get_world;
  match posters w with
  | Some listing =>
      for_each (elements listing) (delete_one e sanitized_folder_name)
  | None => mret ()
  end.

End Scraper.

(* ===================================================================== *)
(** * [telegram_notifier.py] *)
(* ===================================================================== *)

(** [try: m except ...: h e] *)
Definition catch {A} (m : M A) (h : exn -> M A) : M A := fun w =>
  match m w with
  | (Ok a, w') => (Ok a, w')
  | (Raise e, w') => h e w'
  end.

Module Notifier.
Import World.

(** The call of the chat API inside the [try] of a sender. *)
Definition api_call (e : env) (sent : bool -> event) : M unit :=
  t ← next_tick;
  match telegram e t with
  | ApiOk => emit (sent true)
  | ApiTelegramError => _ ← emit (sent false); lift (Raise TelegramError)
  | ApiOtherError => _ ← emit (sent false); lift (Raise ClientError)
  end.

(** Both handlers of a sender only log. *)
Definition log_and_return (x : exn) : M unit :=
  match x with
  | TelegramError => mret ()
  | _ => if is_Exception x then mret () else lift (Raise x)
  end.

Definition send_telegram_message (cfg : config) (e : env) : M unit :=
  if String.eqb (bot_token cfg) "" || String.eqb (chat_id cfg) ""
  then mret ()
  else catch (api_call e EvSendText) log_and_return.

(** [os.path.exists(path)] for a path inside the poster directory. *)
Definition poster_exists (posters_dir path : string) (w : world) : bool :=
  bool_decide
    (set_Exists (fun f => path_join posters_dir f = path)
                (default ∅ (posters w))).

Definition send_telegram_photo
    (cfg : config) (e : env) (posters_dir photo_path : string) : M unit :=
  if String.eqb (bot_token cfg) "" || String.eqb (chat_id cfg) ""
  then mret ()
  else
    w ← get_world;
    if poster_exists posters_dir photo_path w
    then catch (api_call e (EvSendPhoto photo_path)) log_and_return
    else mret ().

End Notifier.

(* ===================================================================== *)
(** * [main.py]: the snapshot store and the scan *)
(* ===================================================================== *)

(** One entry of [telegram_message_parts]; the text itself is not modelled. *)
Inductive part :=
| PartRoot (folder_path : string)
| PartAddedTitle
| PartRemovedTitle
| PartPlain (folder_name : string)
| PartRemoved (folder_name : string)
| PartBreak.

(** The local variables of [periodic_folder_scan] its loops update, and
    [diffs], the pairs [added_for_path], [removed_for_path] of the roots
    handled so far, latest first. *)
Record scan_vars := {
  cache : pyval;
  has_changes : bool;
  overall_added_count : nat;
  overall_removed_count : nat;
  telegram_message_parts : list part;
  photo_messages_to_send : list string;
  diffs : list (string * (gset atom * gset atom));
}.

(** [for x in l: vars = body(x, vars)] *)
Fixpoint fold_loop {A S} (l : list A) (body : A -> S -> M S) (s : S) : M S :=
  match l with
  | [] => mret s
  | x :: l' => s' ← body x s; fold_loop l' body s'
  end.

Module Main.
Import World.

Definition RESERVED : string := "last_updated".

Definition get_subfolders (e : env) (directory_path : string) : list string :=
  match dirs e directory_path with
  | NoDir => []
  | DirError => []
  | Dir entries => map fst (List.filter snd entries)
  end.

(** [data.items()] *)
Definition items (data : pyval) : res (gmap string pyval) :=
  match data with
  | PDict d => Ok d
  | _ => Raise AttributeError
  end.

(** [out = {}; for k, x in m.items(): out[k] = f(k, x)] *)
Definition convert_entries {A B} (f : string -> A -> res B)
    (m : gmap string A) : res (gmap string B) :=
  map_fold (fun k x acc => out ← acc; y ← f k x; Ok (<[k := y]> out))
           (Ok ∅) m.

(** The value [read_folder_state] stores for one member of the file. *)
Definition load_val (path : string) (folders : pyval) : res fsval :=
  if String.eqb path RESERVED then Ok (FRaw folders)
  else s ← Py.to_set folders; Ok (FSet s).

(** The [try] block of [read_folder_state]. *)
Definition read_folder_state_try (fs : gmap string file) (file_path : string)
  : res (gmap string fsval) :=
  match fs !! file_path with
  | None => Ok ∅
  | Some f =>
      data ← load_file f;
      d ← items data;
      convert_entries load_val d
  end.

Definition read_folder_state (fs : gmap string file) (file_path : string)
  : res (gmap string fsval) :=
  match read_folder_state_try fs file_path with
  | Ok v => Ok v
  | Raise e =>
      match e with
      | FileNotFoundError | JSONDecodeError => Ok ∅
      | _ => if is_Exception e then Ok ∅ else Raise e
      end
  end.

(** The value [write_folder_state] serializes for one entry. *)
Definition dump_val (path : string) (folders : fsval) : res pyval :=
  match folders with
  | FSet s => l ← Py.sorted s; Ok (PList (Py.atom_val <$> l))
  | FRaw v => Ok v
  end.

(** [write_folder_state] returns the dictionary it was given, as it is
    after the call: the function updates that object in place. *)
Definition write_folder_state
    (e : env) (file_path : string) (folder_state_dict : gmap string fsval)
  : M (gmap string fsval) :=
  stamp ← now e;
  let folder_state_dict := <[RESERVED := FRaw (PStr stamp)]> folder_state_dict in
  match convert_entries dump_val folder_state_dict with
  | Ok serializable_data =>
      _ ← dump_file file_path (PDict serializable_data);
      _ ← emit (EvWriteFolderState file_path);
      mret folder_state_dict
  | Raise _ => mret folder_state_dict      (* logged *)
  end.

(** [a - b] where [a] is a set. *)
Definition set_sub_r (a : gset atom) (b : fsval) : res (gset atom) :=
  match b with FSet y => Ok (a ∖ y) | FRaw _ => Raise TypeError end.

(** [a - b] where [b] is a set. *)
Definition set_sub_l (a : fsval) (b : gset atom) : res (gset atom) :=
  match a with FSet x => Ok (x ∖ b) | FRaw _ => Raise TypeError end.

(** Lines 172-176: the diff of one monitored root. *)
Definition diff_for_path
    (old_folder_state : gmap string fsval)
    (current_folder_state : gmap string (gset atom)) (folder_path : string)
  : res (gset atom * gset atom) :=
  let old_subfolders_for_path :=
    default (FSet ∅) (old_folder_state !! folder_path) in
  let current_subfolders_for_path :=
    default ∅ (current_folder_state !! folder_path) in
  added_for_path ← set_sub_r current_subfolders_for_path old_subfolders_for_path;
  removed_for_path ← set_sub_l old_subfolders_for_path current_subfolders_for_path;
  Ok (added_for_path, removed_for_path).

(** [metadata and "last_fetched" in metadata] *)
Definition is_cached (metadata : pyval) : res bool :=
  if Py.truthy metadata then Py.contains "last_fetched" metadata else Ok false.

(** [metadata and metadata.get('poster_url') and
    metadata.get('poster_url') != "N/A"] *)
Definition has_poster_url (metadata : pyval) : res bool :=
  if Py.truthy metadata then
    url ← Py.get metadata "poster_url";
    Ok (Py.truthy url && negb (Py.eq_str url "N/A"))
  else Ok false.

(** Building the caption of a photo message: only the handling of the
    plot can raise. *)
Definition build_caption (metadata : pyval) : res unit :=
  plot ← Py.get metadata "plot";
  if Py.truthy plot then
    n ← Py.len plot;
    if Nat.ltb 200 n then
      match plot with
      | PStr _ => Ok ()
      | PList _ => Raise AttributeError
      | _ => Raise TypeError
      end
    else Ok ()
  else Ok ().

Definition set_cache (c : pyval) (v : scan_vars) : scan_vars :=
  {| cache := c; has_changes := has_changes v;
     overall_added_count := overall_added_count v;
     overall_removed_count := overall_removed_count v;
     telegram_message_parts := telegram_message_parts v;
     photo_messages_to_send := photo_messages_to_send v;
     diffs := diffs v |}.

Definition add_part (p : part) (v : scan_vars) : scan_vars :=
  {| cache := cache v; has_changes := has_changes v;
     overall_added_count := overall_added_count v;
     overall_removed_count := overall_removed_count v;
     telegram_message_parts := telegram_message_parts v ++ [p];
     photo_messages_to_send := photo_messages_to_send v;
     diffs := diffs v |}.

Definition add_photo (path : string) (v : scan_vars) : scan_vars :=
  {| cache := cache v; has_changes := has_changes v;
     overall_added_count := overall_added_count v;
     overall_removed_count := overall_removed_count v;
     telegram_message_parts := telegram_message_parts v;
     photo_messages_to_send := photo_messages_to_send v ++ [path];
     diffs := diffs v |}.

Definition set_changed (v : scan_vars) : scan_vars :=
  {| cache := cache v; has_changes := true;
     overall_added_count := overall_added_count v;
     overall_removed_count := overall_removed_count v;
     telegram_message_parts := telegram_message_parts v;
     photo_messages_to_send := photo_messages_to_send v;
     diffs := diffs v |}.

Definition count_diff (folder_path : string) (added removed : gset atom)
    (v : scan_vars) : scan_vars :=
  {| cache := cache v; has_changes := has_changes v;
     overall_added_count := overall_added_count v + size added;
     overall_removed_count := overall_removed_count v + size removed;
     telegram_message_parts := telegram_message_parts v;
     photo_messages_to_send := photo_messages_to_send v;
     diffs := (folder_path, (added, removed)) :: diffs v |}.

(** Lines 197-206: the record of an added folder, from the cache or from
    the provider. *)
Definition resolve_metadata
    (cfg : config) (e : env) (folder_name : string) (v : scan_vars)
  : M (pyval * scan_vars) :=
  let '(title, year) := Parse.parse_folder_name folder_name in
  metadata ← lift (Py.get (cache v) folder_name);
  cached ← lift (is_cached metadata);
  if cached : bool then mret (metadata, v)
  else
    fetched ← Scraper.fetch_media_metadata_from_omdb
                e title year (omdb_api_key cfg);
    match fetched with
    | Some record =>
        stamp ← now e;
        let metadata := PDict (<["added_timestamp" := PStr stamp]> record) in
        c ← lift (Py.setitem (cache v) folder_name metadata);
        mret (metadata, set_cache c v)
    | None => mret (PNone, v)
    end.

(** Lines 208-216: the poster of an added folder.  [metadata] is the
    object the cache holds, so updating it updates the cache. *)
Definition attach_poster
    (e : env) (full_posters_path folder_name : string)
    (metadata : pyval) (v : scan_vars)
  : M (option string * pyval * scan_vars) :=
  wanted ← lift (has_poster_url metadata);
  if wanted : bool then
    url ← lift (Py.get metadata "poster_url");
    r ← Scraper.download_poster e url full_posters_path folder_name;
    match r with
    | Some path =>
        metadata ← lift (Py.setitem metadata "local_poster_path" (PStr path));
        c ← lift (Py.setitem (cache v) folder_name metadata);
        mret (Some path, metadata, set_cache c v)
    | None => mret (None, metadata, v)
    end
  else mret (None, metadata, v).

(** Lines 218-242: the message for an added folder. *)
Definition queue_message
    (full_posters_path folder_name : string)
    (local_poster_path : option string) (metadata : pyval) (v : scan_vars)
  : M scan_vars :=
  w ← get_world;
  match local_poster_path with
  | Some path =>
      if Notifier.poster_exists full_posters_path path w then
        _ ← lift (build_caption metadata);
        mret (add_photo path v)
      else mret (add_part (PartPlain folder_name) v)
  | None => mret (add_part (PartPlain folder_name) v)
  end.

(** Lines 190-243: one newly added folder. *)
Definition handle_added
    (cfg : config) (e : env) (full_posters_path folder_name : string)
    (v : scan_vars) : M scan_vars :=
  '(metadata, v) ← resolve_metadata cfg e folder_name v;
  '(local_poster_path, metadata, v) ←
    attach_poster e full_posters_path folder_name metadata v;
  queue_message full_posters_path folder_name local_poster_path metadata v.

(** Lines 253-261: one removed folder. *)
Definition handle_removed (e : env) (folder_name : string) (v : scan_vars)
  : M scan_vars :=
  let v := add_part (PartRemoved folder_name) v in
  _ ← Scraper.delete_poster e folder_name;
  present ← lift (Py.contains folder_name (cache v));
  if present : bool then
    c ← lift (Py.delitem (cache v) folder_name);
    mret (set_cache c v)
  else mret v.

(** The loop over [sorted(list(added_for_path))]; a name that is not a
    string makes [parse_folder_name] raise. *)
Definition handle_all_added
    (cfg : config) (e : env) (full_posters_path : string)
    (added_for_path : gset atom) (v : scan_vars) : M scan_vars :=
  names ← lift (Py.sorted added_for_path);
  fold_loop names
    (fun a v => match a with
                | AStr folder_name =>
                    handle_added cfg e full_posters_path folder_name v
                | _ => lift (Raise TypeError)
                end) v.

(** The loop over [sorted(list(removed_for_path))]; a name that is not a
    string makes [escape_markdown_v2] raise. *)
Definition handle_all_removed
    (e : env) (removed_for_path : gset atom) (v : scan_vars) : M scan_vars :=
  names ← lift (Py.sorted removed_for_path);
  fold_loop names
    (fun a v => match a with
                | AStr folder_name => handle_removed e folder_name v
                | _ => lift (Raise AttributeError)
                end) v.

(** Lines 170-266: one monitored root. *)
Definition handle_root
    (cfg : config) (e : env) (full_posters_path : string)
    (old_folder_state : gmap string fsval)
    (current_folder_state : gmap string (gset atom))
    (folder_path : string) (v : scan_vars) : M scan_vars :=
  '(added_for_path, removed_for_path) ←
    lift (diff_for_path old_folder_state current_folder_state folder_path);
  let v := count_diff folder_path added_for_path removed_for_path v in
  v ← (if bool_decide (added_for_path ≠ ∅) then
         let v := add_part PartAddedTitle
                    (add_part (PartRoot folder_path) (set_changed v)) in
         v ← handle_all_added cfg e full_posters_path added_for_path v;
         mret (add_part PartBreak v)
       else mret v);
  if bool_decide (removed_for_path ≠ ∅) then
    let v := add_part PartRemovedTitle
               (add_part (PartRoot folder_path) (set_changed v)) in
    v ← handle_all_removed e removed_for_path v;
    mret (add_part PartBreak v)
  else mret v.

(** Lines 296-317: the photo messages, each with its text fallback. *)
Definition send_photos
    (cfg : config) (e : env) (full_posters_path : string) (v : scan_vars)
  : M unit :=
  for_each (photo_messages_to_send v) (fun photo_path =>
    photo_sent_successfully ←
      catch (_ ← Notifier.send_telegram_photo cfg e full_posters_path photo_path;
             mret true)
            (fun x => if is_Exception x then mret false else lift (Raise x));
    if photo_sent_successfully : bool then mret ()
    else Notifier.send_telegram_message cfg e).

(** Lines 321-369: the text message, split when the oracle says it is
    too long. *)
Definition send_text (cfg : config) (e : env) (v : scan_vars) : M unit :=
  let some_parts := match telegram_message_parts v with
                    | [] => false | _ => true end in
  if some_parts || negb (has_changes v) then
    if text_too_long e then
      for_each (seq 0 (S (text_sections e)))
               (fun _ => Notifier.send_telegram_message cfg e)
    else if has_changes v || send_no_change_message cfg then
      if some_parts || negb (has_changes v)
      then Notifier.send_telegram_message cfg e
      else mret ()
    else mret ()
  else mret ().

(** Lines 148-153. *)
Definition scan_current_state (e : env) (monitored : list string)
  : gmap string (gset atom) :=
  foldl (fun current_folder_state folder_path =>
           <[folder_path := list_to_set (AStr <$> get_subfolders e folder_path)]>
             current_folder_state)
        ∅ monitored.

Definition initial_vars (c : pyval) : scan_vars :=
  {| cache := c; has_changes := false;
     overall_added_count := 0; overall_removed_count := 0;
     telegram_message_parts := []; photo_messages_to_send := [];
     diffs := [] |}.

Definition folder_list_path (cfg : config) : string :=
  path_join (script_dir cfg) (folder_list_file cfg).

Definition full_posters_path (cfg : config) : string :=
  path_join (script_dir cfg) (posters_directory cfg).

Definition media_metadata_file (cfg : config) : string :=
  Scraper.get_media_metadata_file_path (script_dir cfg).

(** Lines 131-158: the poster directory, the cache, the previous state and
    the current state. *)
Definition load_state (cfg : config) (e : env)
  : M (pyval * gmap string fsval * gmap string (gset atom)) :=
  w ← get_world;
  _ ← match posters w with
      | Some _ => mret ()
      | None => set_posters (Some ∅)
      end;
  w ← get_world;
  c ← lift (Scraper.read_media_metadata (files w) (media_metadata_file cfg));
  old_folder_state ← lift (read_folder_state (files w) (folder_list_path cfg));
  let current_folder_state := scan_current_state e (monitored_folders cfg) in
  _ ← set_bot_folder_state (FSet <$> current_folder_state);
  mret (c, old_folder_state, current_folder_state).

(** Lines 170-266: the loop over the monitored roots. *)
Definition reconcile (cfg : config) (e : env) (c : pyval)
    (old_folder_state : gmap string fsval)
    (current_folder_state : gmap string (gset atom)) : M scan_vars :=
  fold_loop (monitored_folders cfg)
    (handle_root cfg e (full_posters_path cfg)
                 old_folder_state current_folder_state)
    (initial_vars c).

(** Lines 296-369. *)
Definition notify (cfg : config) (e : env) (v : scan_vars) : M unit :=
  _ ← send_photos cfg e (full_posters_path cfg) v;
  send_text cfg e v.

(** Lines 372-376.  The dictionary [write_folder_state] updates is the one
    [bot_data] holds. *)
Definition persist (cfg : config) (e : env)
    (current_folder_state : gmap string (gset atom)) (v : scan_vars) : M unit :=
  d ← write_folder_state e (folder_list_path cfg) (FSet <$> current_folder_state);
  _ ← set_bot_folder_state d;
  Scraper.write_media_metadata (media_metadata_file cfg) (cache v).

(** The scan, for a configuration that is loaded.  It returns its local
    variables as they are at the end. *)
Definition periodic_folder_scan (cfg : config) (e : env) : M scan_vars :=
  '(c, old_folder_state, current_folder_state) ← load_state cfg e;
  v ← reconcile cfg e c old_folder_state current_folder_state;
  _ ← notify cfg e v;
  _ ← persist cfg e current_folder_state v;
  mret v.

End Main.

(* ===================================================================== *)
(** * Vocabulary of the properties *)
(* ===================================================================== *)

(** A set of folder names, as a set of Python values. *)
Definition names (s : gset string) : gset atom := set_map AStr s.

(** A set whose elements are all strings. *)
Definition names_only (s : gset atom) : Prop :=
  forall a, a ∈ s -> exists n, a = AStr n.

(** A FolderSnapshot of the specification (root to set of child names), as
    the dictionary the program holds. *)
Definition folder_snapshot (S : gmap string (gset string)) : gmap string fsval :=
  (fun s => FSet (names s)) <$> S.

(** The root-to-set mapping a folder state holds, the reserved entry left
    aside. *)
Definition snapshot_of (st : gmap string fsval) : gmap string (gset atom) :=
  omap (fun x => match x with FSet s => Some s | FRaw _ => None end) st.

(** A snapshot as the specification has it: a set of names per root. *)
Definition snapshot_state (P : gmap string (gset atom)) : gmap string fsval :=
  FSet <$> P.

(** [entries f m d]: [d] holds, key by key, what [f] makes of [m]. *)
Definition entries {A B} (f : string -> A -> res B)
    (m : gmap string A) (d : gmap string B) : Prop :=
  forall k, match m !! k with
            | Some x => exists y, d !! k = Some y /\ f k x = Ok y
            | None => d !! k = None
            end.

(** A folder state is well formed when the reserved key, and only it,
    holds something that is not a set. *)
Definition well_keyed (d : gmap string fsval) : Prop :=
  forall k y, d !! k = Some y ->
    match y with FSet _ => k <> Main.RESERVED | FRaw _ => k = Main.RESERVED end.

(** A folder state after [write_folder_state] has put the time stamp in. *)
Definition stamped (stamp : string) (d : gmap string fsval) :=
  <[Main.RESERVED := FRaw (PStr stamp)]> d.

(** [preserves R m]: whatever [m] does, the world it leaves is related by
    [R] to the world it started in. *)
Definition preserves (R : world -> world -> Prop) {A} (m : M A) : Prop :=
  forall w r w', m w = (r, w') -> R w w'.

(** [returns m Q]: when [m] returns a value, the value satisfies [Q]. *)
Definition returns {A} (m : M A) (Q : A -> Prop) : Prop :=
  forall w a w', m w = (Ok a, w') -> Q a.

(** The JSON files and the object shared through [bot_data] are the same. *)
Definition same_store (w w' : world) : Prop :=
  files w' = files w /\ bot_folder_state w' = bot_folder_state w.

(** Only the trace differs. *)
Definition same_but_trace (w w' : world) : Prop :=
  files w' = files w /\ posters w' = posters w /\ tick w' = tick w
  /\ bot_folder_state w' = bot_folder_state w.

(** Two outcomes agree: both return the same value, in worlds that differ
    in their traces only. *)
Definition agree {A} (o1 o2 : res A * world) : Prop :=
  exists a w1 w2, o1 = (Ok a, w1) /\ o2 = (Ok a, w2) /\ same_but_trace w1 w2.

(** The same collaborators, with another chat API. *)
Definition with_telegram (e : env) (tg : nat -> api_result) : env :=
  {| dirs := dirs e; clock := clock e; omdb := omdb e; download := download e;
     removable := removable e; telegram := tg;
     text_too_long := text_too_long e; text_sections := text_sections e |}.

(** The local variables after roots that had nothing added or removed. *)
Definition quiet_vars (roots : list string) (v : scan_vars) : scan_vars :=
  foldl (fun v root => Main.count_diff root ∅ ∅ v) v roots.

(** The files in the poster directory. *)
Definition poster_files (w : world) : gset string := default ∅ (posters w).

(** [delete_poster] for [folder_name] removes the file [f]. *)
Definition evicts (e : env) (folder_name f : string) : Prop :=
  Str.startswith f (Scraper.sanitize folder_name) = true
  /\ removable e f = true.

(** The number of provider lookups in the trace. *)
Definition lookups (w : world) : nat :=
  length (List.filter (fun ev => match ev with EvLookup _ _ => true | _ => false end)
                      (trace w)).

(** No provider lookup was made. *)
Definition no_lookup (w w' : world) : Prop := lookups w' = lookups w.

(** The cache [c] is a dictionary that holds, for [folder_name], a record
    with the fetch time stamp [fetched] and the value [added] (or none) under
    [added_timestamp]. *)
Definition holds_record (folder_name : string) (fetched : pyval)
    (added : option pyval) (c : pyval) : Prop :=
  exists d r, c = PDict d /\ d !! folder_name = Some (PDict r)
              /\ r !! "last_fetched" = Some fetched
              /\ r !! "added_timestamp" = added.

(** The folder is not among the removed folders the scan reports. *)
Definition not_removed (folder_name : string) (v : scan_vars) : Prop :=
  Forall (fun x => AStr folder_name ∉ x.2.2) (diffs v).

(** The value under [added_timestamp] in the record of a folder. *)
Definition added_timestamp_of (c : pyval) (folder_name : string) : option pyval :=
  match c with
  | PDict d =>
      match d !! folder_name with
      | Some (PDict r) => r !! "added_timestamp"
      | _ => None
      end
  | _ => None
  end.

(** [reordered j j']: the document [j'] is [j] with the members of its
    objects, at any depth, written in another order. *)
Inductive reordered : json -> json -> Prop :=
| reordered_refl j : reordered j j
| reordered_arr l l' :
    Forall2 reordered l l' -> reordered (JArr l) (JArr l')
| reordered_obj m m1 m' :
    NoDup (m.*1) -> m ≡ₚ m1 ->
    Forall2 (fun a b => a.1 = b.1 /\ reordered a.2 b.2) m1 m' ->
    reordered (JObj m) (JObj m').

(* ===================================================================== *)
(** * A small installation, for the examples *)
(* ===================================================================== *)

Module Example.

Definition digit (n : nat) : ascii := ascii_of_nat (48 + n mod 10).

(** The n-th reading of the clock. *)
Definition reading (n : nat) : string :=
  "2024-05-01T10:00:" +:+ String (digit (n / 10)) (String (digit n) "").

Definition movies : string := "/media/movies".

Definition cfg : config :=
  {| monitored_folders := [movies];
     folder_list_file := "folder_list.json";
     bot_token := "token"; chat_id := "42";
     send_no_change_message := false;
     omdb_api_key := "key";
     posters_directory := "posters";
     script_dir := "/app" |}.

(** The provider knows every title and has a poster for it. *)
Definition answer (title : string) : pyval :=
  PDict (list_to_map [("Response", PStr "True"); ("Title", PStr title);
                      ("Poster", PStr "https://img.example/poster.jpg")]).

Definition library (entries : list (string * bool)) : env :=
  {| dirs := fun p => if String.eqb p movies then Dir entries else NoDir;
     clock := reading;
     omdb := fun _ title _ => HttpJson (answer title);
     download := fun _ _ => DlDone;
     removable := fun _ => true;
     telegram := fun _ => ApiOk;
     text_too_long := false;
     text_sections := 0 |}.

Definition e : env := library [("Inception (2010)", true); ("notes.txt", false)].

(** Before the first run: no file, no poster directory. *)
Definition fresh : world :=
  {| files := ∅; posters := None; tick := 0;
     bot_folder_state := ∅; trace := [] |}.

(** A cache file whose record has no fetch time stamp. *)
Definition old_cache : json :=
  JObj [("Inception (2010)",
         JObj [("title", JStr "Inception");
               ("added_timestamp", JStr "2020-01-01T00:00:00")])].

Definition legacy : world :=
  {| files := {[ Main.media_metadata_file cfg := Document old_cache ]};
     posters := None; tick := 0; bot_folder_state := ∅; trace := [] |}.

(** The result of a scan and the world it leaves. *)
Definition scanned (w : world) : scan_vars * world :=
  let r := Main.periodic_folder_scan cfg e w in
  (match r.1 with Ok v => v | Raise _ => Main.initial_vars PNone end, r.2).

(** A folder name with a line feed in it. *)
Definition two_lines : string := "Heat" +:+ String "010" "Uncut (1995)".

(** A poster directory and a cache for the removal of [Alien]. *)
Definition shelf : world :=
  {| files := ∅;
     posters := Some (list_to_set ["Alien.jpg"; "Aliens (1986).png"; "Heat.jpg"]);
     tick := 0; bot_folder_state := ∅; trace := [] |}.

Definition shelf_cache : gmap string pyval :=
  list_to_map [("Alien", PDict ∅); ("Heat", PDict ∅)].

End Example.

(* ===================================================================== *)
(** * [telegram_notifier.escape_markdown_v2] *)
(* ===================================================================== *)

Module Markdown.
Local Open Scope char_scope.

(** [text.replace(old, new)] for a one-character [old]. *)
Definition replace (old : ascii) (new : list ascii) (text : list ascii)
  : list ascii :=
  flat_map (fun c => if Ascii.eqb c old then new else [c]) text.

(** The body of [escape_markdown_v2], on the characters of the text. *)
Definition escape_chars (text : list ascii) : list ascii :=
  let text := replace "\" ["\"; "\"] text in
  let text := replace "_" ["\"; "_"] text in
  let text := replace "*" ["\"; "*"] text in
  let text := replace "[" ["\"; "["] text in
  let text := replace "]" ["\"; "]"] text in
  let text := replace "(" ["\"; "("] text in
  let text := replace ")" ["\"; ")"] text in
  let text := replace "~" ["\"; "~"] text in
  let text := replace "`" ["\"; "`"] text in
  let text := replace ">" ["\"; ">"] text in
  let text := replace "#" ["\"; "#"] text in
  let text := replace "+" ["\"; "+"] text in
  let text := replace "-" ["\"; "-"] text in
  let text := replace "=" ["\"; "="] text in
  let text := replace "|" ["\"; "|"] text in
  let text := replace "{" ["\"; "{"] text in
  let text := replace "}" ["\"; "}"] text in
  let text := replace "." ["\"; "."] text in
  let text := replace "!" ["\"; "!"] text in
  text.

Definition escape_markdown_v2 (text : string) : string :=
  Str.str (escape_chars (Str.chars text)).

(** ** Vocabulary of the properties of the function

    The characters the function escapes. *)
Definition reserved (c : ascii) : bool :=
  existsb (Ascii.eqb c)
    ["\"; "_"; "*"; "["; "]"; "("; ")"; "~"; "`"; ">"; "#"; "+"; "-"; "=";
     "|"; "{"; "}"; "."; "!"].

(** A text in which a reserved character only occurs behind a backslash
    that escapes it, and a backslash only occurs as such an escape. *)
Fixpoint escaped (l : list ascii) : bool :=
  match l with
  | [] => true
  | c :: r =>
      if Ascii.eqb c "\" then
        match r with
        | d :: r' => reserved d && escaped r'
        | [] => false
        end
      else negb (reserved c) && escaped r
  end.

Definition reserved_count (s : string) : nat :=
  List.length (List.filter reserved (Str.chars s)).

(** What the function makes of one character. *)
Definition esc (c : ascii) : list ascii :=
  if reserved c then ["\"; c] else [c].

(** Reading an escaped text back. *)
Fixpoint unescape (l : list ascii) : list ascii :=
  match l with
  | [] => []
  | c :: r =>
      if Ascii.eqb c "\" then
        match r with
        | d :: r' => d :: unescape r'
        | [] => []
        end
      else c :: unescape r
  end.

End Markdown.

(* ===================================================================== *)
(** * The texts of the messages: [main.py] and [telegram_bot_handler.py] *)
(* ===================================================================== *)

Module Caption.
Local Open Scope char_scope.


End Caption.

Module Split.

(** Two line feeds. *)
Definition LF2 : string := String "010" (String "010" "").

Definition strip (s : string) : string := Str.str (Str.strip (Str.chars s)).

Definition first_heading : string :=
  "*Plex Library Updates (Text message split due to length)*" +:+ LF2.

(** [f"*Plex Library Updates (Part {raw_part_counter})*\n\n"] *)
Definition part_heading (raw_part_counter : nat) : string :=
  "*Plex Library Updates (Part " +:+ pretty raw_part_counter +:+ ")*" +:+ LF2.

(** The loop of [periodic_folder_scan] that cuts a long text into parts,
    with the final test that follows it. *)
Fixpoint split_loop (max_telegram_message_length : Z)
    (sections : list string) (raw_current_part_message : string)
    (raw_part_counter : nat) : list string :=
  match sections with
  | [] =>
      if String.eqb (strip raw_current_part_message) "" then []
      else [strip raw_current_part_message]
  | section :: rest =>
      if (max_telegram_message_length
          <? Z.of_nat (String.length raw_current_part_message
                       + String.length section))%Z
      then strip raw_current_part_message
           :: split_loop max_telegram_message_length rest
                (part_heading (S raw_part_counter) +:+ section +:+ LF2)
                (S raw_part_counter)
      else split_loop max_telegram_message_length rest
             (raw_current_part_message +:+ section +:+ LF2)
             raw_part_counter
  end.

Definition split_text (max_telegram_message_length : Z)
    (raw_remaining_text_sections : list string) : list string :=
  split_loop max_telegram_message_length raw_remaining_text_sections
    first_heading 1.

End Split.

Module Handler.
Local Open Scope char_scope.

(** [os.path.basename(p)], POSIX flavour. *)
Definition basename (p : string) : string :=
  match Scraper.rsplit "/" (Str.chars p) with
  | Some (_, after) => Str.str after
  | None => p
  end.

(** [len(x)] for a value of the folder state. *)
Definition len_entry (x : fsval) : res nat :=
  match x with
  | FSet s => Ok (size s)
  | FRaw v => Py.len v
  end.

(** The library breakdown of [status_command]: for each monitored folder
    its base name and the number of entries the shared folder state holds
    for it; [None] stands for the line that tells there is no breakdown
    yet. *)
Definition library_breakdown
    (monitored_folders_config : list string)
    (current_folder_state : gmap string fsval)
  : res (option (list (string * nat))) :=
  if bool_decide (current_folder_state = ∅) then Ok None
  else
    lines ← mapM (fun folder_path_key =>
                    count ← len_entry (default (FSet ∅)
                               (current_folder_state !! folder_path_key));
                    Ok (basename folder_path_key, count))
                 monitored_folders_config;
    Ok (Some lines).

End Handler.

Module Replies.

(** The loop of [search_command] and of [recent_command] that cuts the
    answer into messages: [raw_current_message] is the message being
    filled, [cont] the heading of a further message. *)
Fixpoint paginate_from (cont : string) (texts : list string)
    (raw_current_message : string) : list string :=
  match texts with
  | [] => [raw_current_message]
  | raw_item_text :: rest =>
      if Nat.ltb 3500 (String.length raw_current_message
                       + String.length raw_item_text)
      then raw_current_message
           :: paginate_from cont rest (cont +:+ raw_item_text)
      else paginate_from cont rest (raw_current_message +:+ raw_item_text)
  end.

Definition paginate (header cont : string) (texts : list string)
  : list string :=
  paginate_from cont texts header.

(** What the loop that sends the messages can raise: the chat API
    failing, or a name that is not bound. *)
Inductive raised := ReplyFailed | NameError.

(** [await asyncio.sleep(0.1)] in [telegram_bot_handler.py], a module that
    does not import [asyncio]. *)
Definition sleep : option raised := Some NameError.

(** The loop that sends the messages; [sent] holds the replies made so
    far, and the reply number [n] fails when [fails n]. *)
Fixpoint send_pages (fails : nat -> bool) (response_messages : list string)
    (sent : list string) : option raised * list string :=
  match response_messages with
  | [] => (None, sent)
  | raw_msg :: rest =>
      if fails (length sent) then (Some ReplyFailed, sent)
      else
        let sent := sent ++ [Markdown.escape_markdown_v2 raw_msg] in
        match sleep with
        | Some x => (Some x, sent)
        | None => send_pages fails rest sent
        end
  end.

End Replies.

(* ===================================================================== *)
(** * Vocabulary of the further properties *)
(* ===================================================================== *)

(** What [sanitize] makes of one character. *)
Definition mask (c : ascii) : ascii :=
  if Scraper.illegal c then "_"%char else c.

(** A year: four decimal digits. *)
Definition four_digits (y : list ascii) : Prop :=
  List.length y = 4 /\ Forall (fun c => Str.is_digit c = true) y.

(** The texts of a group, one after the other. *)
Definition joined (g : list string) : string := foldr String.append "" g.

(** The sections of a part, each followed by an empty line. *)
Definition sections_text (g : list string) : string :=
  joined ((fun section => section +:+ Split.LF2) <$> g).

(** A call of the chat API, answered or not. *)
Definition is_send (ev : event) : bool :=
  match ev with EvSendPhoto _ _ | EvSendText _ => true | _ => false end.

(** A text message handed to the chat API. *)
Definition is_text (ev : event) : bool :=
  match ev with EvSendText _ => true | _ => false end.

(** A lookup of the metadata provider. *)
Definition is_lookup (ev : event) : bool :=
  match ev with EvLookup _ _ => true | _ => false end.

(** The events of one kind in the trace are those that were there. *)
Definition none_of (kind : event -> bool) (w w' : world) : Prop :=
  List.filter kind (trace w') = List.filter kind (trace w).

(** The lines of the text message that announce an added folder. *)
Definition plain_lines (v : scan_vars) : nat :=
  length (List.filter (fun p => match p with PartPlain _ => true | _ => false end)
                      (telegram_message_parts v)).

(** The lines of the text message that announce a removed folder. *)
Definition removed_lines (v : scan_vars) : nat :=
  length (List.filter (fun p => match p with PartRemoved _ => true | _ => false end)
                      (telegram_message_parts v)).

(** What a scan has counted and announced so far. *)
Record tally := {
  changed : bool;
  added_count : nat;
  removed_count : nat;
  added_announced : nat;
  removed_announced : nat;
}.

Definition tally_of (v : scan_vars) : tally :=
  {| changed := has_changes v;
     added_count := overall_added_count v;
     removed_count := overall_removed_count v;
     added_announced := length (photo_messages_to_send v) + plain_lines v;
     removed_announced := removed_lines v |}.

(** The folders of a report: added ones and removed ones, over all roots. *)
Definition total_added (ds : list (string * (gset atom * gset atom))) : nat :=
  foldr (fun x n => size x.2.1 + n) 0 ds.

Definition total_removed (ds : list (string * (gset atom * gset atom))) : nat :=
  foldr (fun x n => size x.2.2 + n) 0 ds.

(** The tally after one more line for an added folder, one more line for
    a removed folder, one more part of the text, one more root. *)
Definition one_added (t : tally) : tally :=
  {| changed := changed t; added_count := added_count t;
     removed_count := removed_count t;
     added_announced := added_announced t + 1;
     removed_announced := removed_announced t |}.

Definition one_removed (t : tally) : tally :=
  {| changed := changed t; added_count := added_count t;
     removed_count := removed_count t;
     added_announced := added_announced t;
     removed_announced := removed_announced t + 1 |}.

Definition one_part (p : part) (t : tally) : tally :=
  match p with
  | PartPlain _ => one_added t
  | PartRemoved _ => one_removed t
  | _ => t
  end.

Definition one_root (a r : gset atom) (t : tally) : tally :=
  {| changed := changed t || bool_decide (a ≠ ∅) || bool_decide (r ≠ ∅);
     added_count := added_count t + size a;
     removed_count := removed_count t + size r;
     added_announced := added_announced t + size a;
     removed_announced := removed_announced t + size r |}.

(** A field that is absent, [None], or a text. *)
Definition text_or_none (o : option pyval) : Prop :=
  match o with
  | None | Some PNone | Some (PStr _) => True
  | Some _ => False
  end.

(** A record of the cache as the provider's answers make it: a dictionary
    whose poster address and plot are texts, when it has them. *)
Definition sound_record (md : pyval) : Prop :=
  exists r, md = PDict r
            /\ text_or_none (r !! "poster_url") /\ text_or_none (r !! "plot").

Definition sound_cache (c : pyval) : Prop :=
  exists d, c = PDict d /\ forall k md, d !! k = Some md -> sound_record md.

(** A folder state whose sets hold names only. *)
Definition sound_state (old : gmap string fsval) : Prop :=
  forall root s, old !! root = Some (FSet s) -> names_only s.

(** A provider whose answers give the poster address and the plot as
    texts, when they give them. *)
Definition sound_provider (e : env) : Prop :=
  forall t title year data,
    omdb e t title year = HttpJson (PDict data) ->
    text_or_none (data !! "Poster") /\ text_or_none (data !! "Plot").

(* ===================================================================== *)
(** * Further installations, for the examples *)
(* ===================================================================== *)

(** A request to a poster server. *)
Definition is_download (ev : event) : bool :=
  match ev with EvDownload _ _ => true | _ => false end.

(** The number of events of one kind in the trace. *)
Definition count_of (kind : event -> bool) (w : world) : nat :=
  length (List.filter kind (trace w)).

(** Every poster file of [w] is still there in [w'], unless [P] holds of
    its name. *)
Definition keeps (P : string -> Prop) (w w' : world) : Prop :=
  forall g, g ∈ poster_files w -> g ∈ poster_files w' \/ P g.

(** The file name starts with the sanitized name of a folder of the set. *)
Definition names_poster_of (r : gset atom) (g : string) : Prop :=
  exists n, AStr n ∈ r /\ Str.startswith g (Scraper.sanitize n) = true.

(** The file name starts with the sanitized name of a folder the report
    lists as removed. *)
Definition names_removed_of
    (d : list (string * (gset atom * gset atom))) (g : string) : Prop :=
  exists root a r, (root, (a, r)) ∈ d /\ names_poster_of r g.

Module Sample.

(** The result of a scan and the world it leaves. *)
Definition outcome (cfg : config) (e : env) (w : world) : scan_vars * world :=
  let r := Main.periodic_folder_scan cfg e w in
  (match r.1 with Ok v => v | Raise _ => Main.initial_vars PNone end, r.2).

(** The configuration of the examples without a bot token, and without a
    key for the provider. *)
Definition mute : config :=
  {| monitored_folders := [Example.movies];
     folder_list_file := "folder_list.json";
     bot_token := ""; chat_id := "42";
     send_no_change_message := true;
     omdb_api_key := "key";
     posters_directory := "posters";
     script_dir := "/app" |}.

Definition keyless : config :=
  {| monitored_folders := [Example.movies];
     folder_list_file := "folder_list.json";
     bot_token := "token"; chat_id := "42";
     send_no_change_message := false;
     omdb_api_key := "";
     posters_directory := "posters";
     script_dir := "/app" |}.

(** The collaborators of the examples when the library is not mounted. *)
Definition unplugged : env :=
  {| dirs := fun _ => NoDir;
     clock := Example.reading;
     omdb := fun _ title _ => HttpJson (Example.answer title);
     download := fun _ _ => DlDone;
     removable := fun _ => true;
     telegram := fun _ => ApiOk;
     text_too_long := false;
     text_sections := 0 |}.

(** A snapshot file that holds one folder of the library, and one that is
    not JSON. *)
Definition known : world :=
  {| files := {[ Main.folder_list_path Example.cfg :=
                   Document (JObj [(Example.movies, JArr [JStr "Heat"])]) ]};
     posters := None; tick := 0; bot_folder_state := ∅; trace := [] |}.

Definition garbled : world :=
  {| files := {[ Main.folder_list_path Example.cfg := NotJson ]};
     posters := None; tick := 0; bot_folder_state := ∅; trace := [] |}.

(** A poster address, and the world after the poster of a folder has been
    downloaded from it. *)
Definition address : string := "https://img.example/heat.png".

Definition downloaded : res (option string) * world :=
  Scraper.download_poster Example.e (PStr address) "/app/posters"
    "Heat: Uncut" Example.fresh.

(** A snapshot of two folders. *)
Definition two_folders : gmap string (gset string) :=
  {[ Example.movies := {[ "Heat"; "Alien" ]} ]}.

(** The snapshot of [known] with two posters in the directory. *)
Definition stocked : world :=
  {| files := files known;
     posters := Some (list_to_set ["Heat.jpg"; "Alien.jpg"]);
     tick := 0; bot_folder_state := ∅; trace := [] |}.

End Sample.

(* ===================================================================== *)
(** * Properties *)
(* ===================================================================== *)

(** ** Title and year extraction *)

Module ParseFacts.
Import Str Parse.
Local Open Scope char_scope.

Lemma lazy_then_eq {A} (k : list ascii -> option A) acc l :
  lazy_then k acc l =
  match k l with
  | Some r => Some (rev acc, r)
  | None =>
      match l with
      | c :: l' => if is_newline c then None else lazy_then k (c :: acc) l'
      | [] => None
      end
  end.
Proof. destruct l; reflexivity. Qed.

(** The lazy group fails when the rest of the pattern matches at no
    position. *)
Lemma lazy_then_none {A} (k : list ascii -> option A) l :
  (forall p1 p2, l = p1 ++ p2 -> k p2 = None) ->
  forall acc, lazy_then k acc l = None.
Proof.
  induction l as [|c l IH]; intros Hk acc.
  - simpl. now rewrite (Hk [] [] eq_refl).
  - rewrite lazy_then_eq, (Hk [] (c :: l) eq_refl).
    destruct (is_newline c); [reflexivity|].
    apply IH. intros p1 p2 ->. apply (Hk (c :: p1) p2). reflexivity.
Qed.

Lemma at_end_no_newline rest :
  no_newline rest -> at_end rest = true -> rest = [].
Proof.
  destruct rest as [|c [|c' rest]]; simpl; intros Hn He; try easy.
  inversion Hn; subst. congruence.
Qed.

Lemma no_newline_app l1 l2 :
  no_newline (l1 ++ l2) <-> no_newline l1 /\ no_newline l2.
Proof. apply Forall_app. Qed.

Ltac split_andb :=
  repeat match goal with
         | H : _ && _ = true |- _ => apply andb_prop in H; destruct H
         | H : Ascii.eqb _ _ = true |- _ => apply Ascii.eqb_eq in H
         end.

Ltac solve_andb :=
  rewrite ?andb_true_iff; repeat split; try assumption;
  try apply Ascii.eqb_refl.

(** What [\((\d{4})\)$] accepts on a text without line feed. *)
Lemma paren_year_end_some l y :
  no_newline l -> paren_year_end l = Some y ->
  exists d1 d2 d3 d4,
    l = ["("; d1; d2; d3; d4; ")"] /\ y = [d1; d2; d3; d4]
    /\ all_digits d1 d2 d3 d4 = true.
Proof.
  intros Hn. unfold paren_year_end.
  destruct l as [|o [|d1 [|d2 [|d3 [|d4 [|c rest]]]]]]; try discriminate.
  destruct (_ && at_end rest) eqn:E; [|discriminate].
  intros [= <-]. split_andb. subst o c.
  assert (rest = []) as ->.
  { apply at_end_no_newline; [|assumption].
    do 6 (apply Forall_cons in Hn as [_ Hn]). exact Hn. }
  exists d1, d2, d3, d4. unfold all_digits.
  repeat split. solve_andb.
Qed.

Lemma paren_year_end_ok d1 d2 d3 d4 :
  all_digits d1 d2 d3 d4 = true ->
  paren_year_end ["("; d1; d2; d3; d4; ")"] = Some [d1; d2; d3; d4].
Proof.
  unfold all_digits. intros H. split_andb. unfold paren_year_end.
  replace (_ && at_end []) with true; [reflexivity|].
  symmetry. simpl at_end. solve_andb.
Qed.

Lemma year_end_some l y :
  no_newline l -> year_end l = Some y ->
  exists d1 d2 d3 d4,
    l = [d1; d2; d3; d4] /\ y = [d1; d2; d3; d4]
    /\ all_digits d1 d2 d3 d4 = true.
Proof.
  intros Hn. unfold year_end.
  destruct l as [|d1 [|d2 [|d3 [|d4 rest]]]]; try discriminate.
  destruct (_ && at_end rest) eqn:E; [|discriminate].
  intros [= <-]. split_andb.
  assert (rest = []) as ->.
  { apply at_end_no_newline; [|assumption].
    do 4 (apply Forall_cons in Hn as [_ Hn]). exact Hn. }
  exists d1, d2, d3, d4. unfold all_digits.
  repeat split. solve_andb.
Qed.

Lemma year_end_ok d1 d2 d3 d4 :
  all_digits d1 d2 d3 d4 = true ->
  year_end [d1; d2; d3; d4] = Some [d1; d2; d3; d4].
Proof.
  unfold all_digits. intros H. split_andb. unfold year_end.
  replace (_ && at_end []) with true; [reflexivity|].
  symmetry. simpl at_end. solve_andb.
Qed.

(** What [\s*\((\d{4})\)$] accepts. *)
Lemma spaces_paren_some t r :
  no_newline t -> spaces_then paren_year_end t = Some r ->
  exists ws d1 d2 d3 d4,
    Forall (fun c => is_space c = true) ws
    /\ t = ws ++ paren_tail d1 d2 d3 d4 /\ r = [d1; d2; d3; d4]
    /\ all_digits d1 d2 d3 d4 = true.
Proof.
  induction t as [|c t IH]; intros Hn; [discriminate|].
  assert (Hdirect : paren_year_end (c :: t) = Some r ->
    exists ws d1 d2 d3 d4,
      Forall (fun c => is_space c = true) ws
      /\ c :: t = ws ++ paren_tail d1 d2 d3 d4 /\ r = [d1; d2; d3; d4]
      /\ all_digits d1 d2 d3 d4 = true).
  { intros H. apply paren_year_end_some in H as (d1&d2&d3&d4&->&->&Hd); [|exact Hn].
    exists [], d1, d2, d3, d4. repeat split; auto. }
  simpl. destruct (is_space c) eqn:Hc; [|exact Hdirect].
  destruct (spaces_then paren_year_end t) as [r'|] eqn:E; [|exact Hdirect].
  intros [= <-]. apply Forall_cons in Hn as [_ Hn].
  destruct (IH Hn eq_refl) as (ws&d1&d2&d3&d4&Hws&->&->&Hd).
  exists (c :: ws), d1, d2, d3, d4. repeat split; auto.
Qed.

Lemma spaces_paren_ok ws d1 d2 d3 d4 :
  Forall (fun c => is_space c = true) ws ->
  all_digits d1 d2 d3 d4 = true ->
  spaces_then paren_year_end (ws ++ paren_tail d1 d2 d3 d4)
  = Some [d1; d2; d3; d4].
Proof.
  intros Hws Hd. induction Hws as [|c ws Hc _ IH].
  - cbn [app paren_tail spaces_then]. replace (is_space "(") with false by reflexivity.
    now apply paren_year_end_ok.
  - cbn [app spaces_then]. now rewrite Hc, IH.
Qed.

(** The lazy group of the first pattern stops at the first position from
    which only white space precedes the parenthesised year. *)
Lemma lazy_paren q d1 d2 d3 d4 :
  no_newline (q ++ paren_tail d1 d2 d3 d4) ->
  all_digits d1 d2 d3 d4 = true ->
  forall acc, exists g ws,
    lazy_then (spaces_then paren_year_end) acc (q ++ paren_tail d1 d2 d3 d4)
    = Some (rev acc ++ g, [d1; d2; d3; d4])
    /\ q = g ++ ws /\ Forall (fun c => is_space c = true) ws.
Proof.
  intros Hn Hd. induction q as [|c q IH]; intros acc.
  - exists [], []. rewrite lazy_then_eq.
    rewrite (spaces_paren_ok [] d1 d2 d3 d4); auto.
    now rewrite app_nil_r.
  - rewrite lazy_then_eq.
    destruct (spaces_then paren_year_end ((c :: q) ++ paren_tail d1 d2 d3 d4))
      as [r|] eqn:E.
    + apply spaces_paren_some in E as (ws&e1&e2&e3&e4&Hws&Heq&->&_);
        [|exact Hn].
      apply app_inj_2 in Heq as [<- [= -> -> -> ->]]; [|reflexivity].
      exists [], (c :: q). now rewrite app_nil_r.
    + cbn [app] in Hn |- *. apply Forall_cons in Hn as [Hc Hn]. rewrite Hc.
      destruct (IH Hn (c :: acc)) as (g&ws&->&->&Hws).
      exists (c :: g), ws. split; [|auto].
      cbn [rev]. now rewrite <- app_assoc.
Qed.

Lemma forall_space_rstrip ws :
  Forall (fun c => is_space c = true) ws -> rstrip ws = [].
Proof. induction 1 as [|c ws Hc _ IH]; simpl; [reflexivity|]. now rewrite IH, Hc. Qed.

Lemma rstrip_app_spaces g ws :
  Forall (fun c => is_space c = true) ws -> rstrip (g ++ ws) = rstrip g.
Proof.
  intros Hws. induction g as [|c g IH]; cbn [app].
  - now apply forall_space_rstrip.
  - simpl. now rewrite IH.
Qed.

Lemma strip_app_spaces g ws :
  Forall (fun c => is_space c = true) ws -> strip (g ++ ws) = strip g.
Proof. intros H. unfold strip. now rewrite rstrip_app_spaces. Qed.

(** Rule 1 of the specification, as a decomposition of the name. *)
Lemma spec_rule1_some l p y :
  spec_rule1 l = Some (p, y) <->
  exists d1 d2 d3 d4,
    all_digits d1 d2 d3 d4 = true /\ y = [d1; d2; d3; d4]
    /\ l = p ++ paren_tail d1 d2 d3 d4.
Proof.
  unfold spec_rule1. split.
  - destruct (rev l) as [|c [|d4 [|d3 [|d2 [|d1 [|o rp]]]]]] eqn:E;
      try discriminate.
    destruct (_ && all_digits d1 d2 d3 d4) eqn:Hb; [|discriminate].
    intros [= <- <-]. split_andb. subst o c.
    exists d1, d2, d3, d4. repeat split; auto.
    rewrite <- (rev_involutive l), E. cbn [rev].
    now rewrite <- !app_assoc.
  - intros (d1&d2&d3&d4&Hd&->&->).
    rewrite rev_app_distr. cbn [paren_tail rev app].
    rewrite Hd, rev_involutive. reflexivity.
Qed.

(** The first pattern and rule 1 agree on names without line feed, up to
    the white space [strip] removes anyway. *)
Lemma match_paren_year_spec l :
  no_newline l ->
  match match_paren_year l, spec_rule1 l with
  | Some (g, y), Some (p, y') => strip g = strip p /\ y = y'
  | None, None => True
  | _, _ => False
  end.
Proof.
  intros Hn. destruct (spec_rule1 l) as [[p y]|] eqn:Es.
  - apply spec_rule1_some in Es as (d1&d2&d3&d4&Hd&->&->).
    destruct (lazy_paren p d1 d2 d3 d4 Hn Hd []) as (g&ws&E&->&Hws).
    unfold match_paren_year. rewrite E. cbn [rev app].
    now rewrite strip_app_spaces.
  - unfold match_paren_year. rewrite lazy_then_none; [exact I|].
    intros p1 p2 ->.
    destruct (spaces_then paren_year_end p2) as [r|] eqn:E; [|reflexivity].
    apply spaces_paren_some in E as (ws&d1&d2&d3&d4&_&->&->&Hd).
    2:{ now apply no_newline_app in Hn as [_ Hn]. }
    assert (spec_rule1 (p1 ++ ws ++ paren_tail d1 d2 d3 d4)
            = Some (p1 ++ ws, [d1; d2; d3; d4])) as Hs.
    { apply spec_rule1_some. exists d1, d2, d3, d4.
      repeat split; auto. now rewrite app_assoc. }
    congruence.
Qed.

Lemma digit_not_sep c : is_digit c = true -> is_sep c = false.
Proof. destruct c as [[] [] [] [] [] [] [] []]; try reflexivity; discriminate. Qed.

(** What [[._-]?(\d{4})$] accepts. *)
Lemma sep_year_some t r :
  no_newline t -> opt_sep_then year_end t = Some r ->
  exists d1 d2 d3 d4,
    r = [d1; d2; d3; d4] /\ all_digits d1 d2 d3 d4 = true
    /\ (t = r \/ exists s, is_sep s = true /\ t = s :: r).
Proof.
  intros Hn. destruct t as [|c t]; [discriminate|].
  assert (Hdirect : year_end (c :: t) = Some r ->
    exists d1 d2 d3 d4,
      r = [d1; d2; d3; d4] /\ all_digits d1 d2 d3 d4 = true
      /\ (c :: t = r \/ exists s, is_sep s = true /\ c :: t = s :: r)).
  { intros H. apply year_end_some in H as (d1&d2&d3&d4&->&->&Hd); [|exact Hn].
    exists d1, d2, d3, d4. auto. }
  cbn [opt_sep_then]. destruct (is_sep c) eqn:Hc; [|exact Hdirect].
  destruct (year_end t) as [r'|] eqn:E; [|exact Hdirect].
  intros [= <-]. apply Forall_cons in Hn as [_ Hn].
  apply year_end_some in E as (d1&d2&d3&d4&->&->&Hd); [|exact Hn].
  exists d1, d2, d3, d4. repeat split; auto. right. eauto.
Qed.

Lemma sep_year_ok d1 d2 d3 d4 :
  all_digits d1 d2 d3 d4 = true ->
  opt_sep_then year_end [d1; d2; d3; d4] = Some [d1; d2; d3; d4].
Proof.
  intros Hd. cbn [opt_sep_then]. rewrite digit_not_sep.
  - now apply year_end_ok.
  - unfold all_digits in Hd. now split_andb.
Qed.

Lemma drop_sep_cons c q : q <> [] -> drop_sep (c :: q) = c :: drop_sep q.
Proof. now destruct q. Qed.

Lemma drop_sep_snoc q x :
  drop_sep (q ++ [x]) = if is_sep x then q else q ++ [x].
Proof.
  induction q as [|c q IH]; [reflexivity|].
  cbn [app]. rewrite drop_sep_cons by now destruct q.
  rewrite IH. now destruct (is_sep x).
Qed.

(** The lazy group of the second pattern leaves out one separator. *)
Lemma lazy_sep q d1 d2 d3 d4 :
  no_newline (q ++ [d1; d2; d3; d4]) ->
  all_digits d1 d2 d3 d4 = true ->
  forall acc,
    lazy_then (opt_sep_then year_end) acc (q ++ [d1; d2; d3; d4])
    = Some (rev acc ++ drop_sep q, [d1; d2; d3; d4]).
Proof.
  intros Hn Hd. induction q as [|c q IH]; intros acc.
  - rewrite lazy_then_eq. cbn [app]. rewrite sep_year_ok by exact Hd.
    now rewrite app_nil_r.
  - rewrite lazy_then_eq.
    destruct (opt_sep_then year_end ((c :: q) ++ [d1; d2; d3; d4]))
      as [r|] eqn:E.
    + apply sep_year_some in E as (e1&e2&e3&e4&->&_&[Heq|(s&Hs&Heq)]);
        [| |exact Hn].
      * apply (f_equal (@length ascii)) in Heq.
        cbn [app] in Heq. rewrite length_cons, length_app in Heq.
        simpl in Heq. lia.
      * cbn [app] in Heq. injection Heq as -> Heq.
        assert (q = []) as ->.
        { apply (f_equal (@length ascii)) in Heq.
          rewrite length_app in Heq. simpl in Heq.
          destruct q; [reflexivity|simpl in Heq; lia]. }
        injection Heq as -> -> -> ->.
        cbn [drop_sep]. rewrite Hs. now rewrite app_nil_r.
    + cbn [app] in Hn |- *. apply Forall_cons in Hn as [Hc Hn]. rewrite Hc.
      rewrite (IH Hn). f_equal. f_equal. cbn [rev]. rewrite <- app_assoc.
      f_equal. destruct q as [|c' q].
      * cbn [app opt_sep_then] in E. cbn [drop_sep].
        destruct (is_sep c); [|reflexivity].
        now rewrite year_end_ok in E.
      * now rewrite (drop_sep_cons c (c' :: q)).
Qed.

Lemma spec_rule2_app q d1 d2 d3 d4 :
  all_digits d1 d2 d3 d4 = true ->
  spec_rule2 (q ++ [d1; d2; d3; d4]) = Some (drop_sep q, [d1; d2; d3; d4]).
Proof.
  intros Hd. unfold spec_rule2. rewrite rev_app_distr. cbn [rev app].
  rewrite Hd. destruct q as [|x q _] using rev_ind; [reflexivity|].
  rewrite rev_app_distr. cbn [rev app].
  rewrite drop_sep_snoc, rev_involutive.
  now destruct (is_sep x).
Qed.

Lemma spec_rule2_some l p y :
  spec_rule2 l = Some (p, y) ->
  exists q d1 d2 d3 d4,
    all_digits d1 d2 d3 d4 = true /\ y = [d1; d2; d3; d4]
    /\ l = q ++ [d1; d2; d3; d4].
Proof.
  unfold spec_rule2.
  destruct (rev l) as [|d4 [|d3 [|d2 [|d1 rq]]]] eqn:E; try discriminate.
  destruct (all_digits d1 d2 d3 d4) eqn:Hd; [|discriminate].
  intros Hs. exists (rev rq), d1, d2, d3, d4.
  split; [exact Hd|split].
  - destruct rq as [|s rp]; [|destruct (is_sep s)]; congruence.
  - rewrite <- (rev_involutive l), E. cbn [rev]. now rewrite <- !app_assoc.
Qed.

(** The second pattern and rule 2 agree on names without line feed. *)
Lemma match_sep_year_spec l :
  no_newline l -> match_sep_year l = spec_rule2 l.
Proof.
  intros Hn. destruct (spec_rule2 l) as [[p y]|] eqn:Es.
  - destruct (spec_rule2_some _ _ _ Es) as (q&d1&d2&d3&d4&Hd&->&->).
    rewrite spec_rule2_app in Es by exact Hd. injection Es as <-.
    unfold match_sep_year. now rewrite lazy_sep.
  - unfold match_sep_year. apply lazy_then_none.
    intros p1 p2 ->.
    destruct (opt_sep_then year_end p2) as [r|] eqn:E; [|reflexivity].
    apply sep_year_some in E as (d1&d2&d3&d4&->&Hd&[->|(s&_&->)]).
    + rewrite spec_rule2_app in Es by exact Hd. discriminate.
    + change (s :: [d1; d2; d3; d4]) with ([s] ++ [d1; d2; d3; d4]) in Es.
      rewrite app_assoc, spec_rule2_app in Es by exact Hd. discriminate.
    + now apply no_newline_app in Hn as [_ Hn].
Qed.

Lemma parse_chars_spec l :
  no_newline l -> parse_chars l = spec_parse_chars l.
Proof.
  intros Hn. unfold parse_chars, spec_parse_chars.
  pose proof (match_paren_year_spec l Hn) as H1.
  rewrite (match_sep_year_spec l Hn).
  destruct (match_paren_year l) as [[g y]|], (spec_rule1 l) as [[p y']|];
    try contradiction; [|reflexivity].
  destruct H1 as [-> ->]. reflexivity.
Qed.

End ParseFacts.

(** ** The monad of the scan *)

Module MonadFacts.
Import World.

Lemma bind_unfold {A B} (m : M A) (f : A -> M B) w :
  (m ≫= f) w =
  match m w with
  | (Ok a, w') => f a w'
  | (Raise x, w') => (Raise x, w')
  end.
Proof. reflexivity. Qed.

Lemma bind_ok_inv {A B} (m : M A) (f : A -> M B) w b w' :
  (m ≫= f) w = (Ok b, w') ->
  exists a w1, m w = (Ok a, w1) /\ f a w1 = (Ok b, w').
Proof.
  rewrite bind_unfold. destruct (m w) as [[a|x] w1]; [eauto|discriminate].
Qed.

Lemma bind_ok {A B} (m : M A) (f : A -> M B) w a w1 :
  m w = (Ok a, w1) -> (m ≫= f) w = f a w1.
Proof. intros H. now rewrite bind_unfold, H. Qed.

Lemma lift_ok_inv {A} (r : res A) w a w' :
  lift r w = (Ok a, w') -> r = Ok a /\ w' = w.
Proof. unfold lift. now intros [= -> ->]. Qed.

Lemma res_bind_ok_inv {A B} (r : res A) (f : A -> res B) b :
  r ≫= f = Ok b -> exists a, r = Ok a /\ f a = Ok b.
Proof. destruct r as [a|x]; [eauto|discriminate]. Qed.

End MonadFacts.

(** ** JSON documents and the snapshot store *)

Module JsonFacts.
Import Py.

Lemma pysize_elem l x : x ∈ l -> pysize x < pysize (PList l).
Proof. simpl. induction 1 as [x l|x y l _ IH]; simpl; lia. Qed.

Lemma pysize_lookup (d : gmap string pyval) k x :
  d !! k = Some x -> pysize x < pysize (PDict d).
Proof.
  simpl. revert k x.
  apply (map_fold_weak_ind
           (fun n (m : gmap string pyval) =>
              forall k x, m !! k = Some x -> pysize x < S n)).
  - intros k x. now rewrite lookup_empty.
  - intros i y m r Hi IH k x. rewrite lookup_insert.
    case_decide as E.
    + intros [= ->]. lia.
    + intros H. apply IH in H. lia.
Qed.

(** Loading an object whose member names are distinct. *)
Lemma load_members (f : json -> pyval) (l : list (string * json)) :
  NoDup (l.*1) ->
  foldl (fun d kv => <[kv.1 := f kv.2]> d) (∅ : gmap string pyval) l
  = list_to_map (prod_map id f <$> l).
Proof.
  induction l as [|[k j] l IH] using rev_ind; [reflexivity|].
  rewrite fmap_app, NoDup_app. intros (Hl & Hk & _).
  rewrite foldl_app, fmap_app. simpl.
  rewrite list_to_map_snoc.
  - now rewrite IH.
  - assert ((prod_map id f <$> l).*1 = l.*1) as ->.
    { rewrite <- list_fmap_compose. apply list_fmap_ext. now intros ? []. }
    intros Hin. apply (Hk k Hin). simpl. apply list_elem_of_here.
Qed.

(** [json.load] after [json.dump] gives the value back. *)
Lemma json_roundtrip v : json_load (json_dump v) = v.
Proof.
  remember (pysize v) as n eqn:Hn. revert v Hn.
  induction n as [n IH] using lt_wf_ind. intros v ->.
  destruct v as [| | | |l|d]; try reflexivity.
  - simpl. f_equal. rewrite map_map.
    rewrite <- (map_id l) at 2. apply map_ext_in. intros x Hx.
    apply (IH (pysize x)); [|reflexivity].
    apply pysize_elem. now apply list_elem_of_In.
  - cbn [json_dump json_load]. f_equal.
    rewrite load_members.
    + rewrite map_to_list_fmap, <- list_fmap_compose.
      rewrite <- (list_to_map_to_list d) at 2. f_equal.
      rewrite <- (list_fmap_id (map_to_list d)) at 2.
      apply list_fmap_ext. intros i [k x] Hi. unfold prod_map. simpl. f_equal.
      apply (IH (pysize x)); [|reflexivity].
      apply (pysize_lookup d k). apply elem_of_map_to_list.
      apply list_elem_of_lookup. eauto.
    + rewrite map_to_list_fmap, <- list_fmap_compose.
      assert (fst ∘ prod_map id json_dump <$> map_to_list d
              = (map_to_list d).*1) as ->.
      { apply list_fmap_ext. now intros ? []. }
      apply NoDup_fst_map_to_list.
Qed.

Lemma NoDup_dump_members (d : gmap string pyval) :
  NoDup ((map_to_list (json_dump <$> d)).*1).
Proof. apply NoDup_fst_map_to_list. Qed.

(** The order of the members of the objects of a file does not matter. *)
Lemma json_load_reordered : forall j j', reordered j j' -> json_load j = json_load j'.
Proof.
  fix IH 3. intros j j' [j0|l l' Hl|m m1 m' Hnd Hp Hm].
  - reflexivity.
  - simpl. f_equal. induction Hl as [|x y l l' Hxy _ IHl]; [reflexivity|].
    simpl. f_equal; [apply IH, Hxy|apply IHl].
  - cbn [json_load]. f_equal.
    assert (Hk : m1.*1 = m'.*1).
    { clear -Hm. induction Hm as [|a b ? ? [Hab _] _ IHm]; [reflexivity|].
      rewrite !fmap_cons. now rewrite Hab, IHm. }
    assert (Hnd1 : NoDup (m1.*1)) by now rewrite <- Hp.
    rewrite !load_members; [|now rewrite <- Hk|exact Hnd].
    transitivity (list_to_map (prod_map id json_load <$> m1) : gmap string pyval).
    + apply list_to_map_proper.
      * assert ((prod_map id json_load <$> m).*1 = m.*1) as ->; [|exact Hnd].
        rewrite <- list_fmap_compose. apply list_fmap_ext. now intros ? [].
      * now rewrite Hp.
    + f_equal. clear -Hm IH.
      induction Hm as [|[k a] [k' b] ? ? [Hkk Hab] _ IHm]; [reflexivity|].
      simpl in *. subst k'. f_equal; [|apply IHm].
      f_equal. apply IH, Hab.
Qed.

End JsonFacts.

Module StoreFacts.
Import Py World Main JsonFacts.

Lemma convert_entries_ok {A B} (f : string -> A -> res B) m d :
  entries f m d -> convert_entries f m = Ok d.
Proof.
  unfold convert_entries. revert d.
  apply (map_fold_weak_ind
           (fun r (m : gmap string A) => forall d, entries f m d -> r = Ok d)).
  - intros d Hd. f_equal. symmetry. apply map_empty. intros k.
    specialize (Hd k). now rewrite lookup_empty in Hd.
  - clear m. intros i x m r Hi IH d Hd.
    pose proof (Hd i) as Hdi. rewrite lookup_insert_eq in Hdi.
    destruct Hdi as (y & Hy & Hf).
    rewrite (IH (delete i d)).
    + simpl. rewrite Hf. simpl. f_equal.
      rewrite insert_delete_eq. now apply insert_id.
    + intros k. destruct (decide (k = i)) as [->|Hne].
      * rewrite Hi. apply lookup_delete_eq.
      * specialize (Hd k). rewrite lookup_insert_ne in Hd by congruence.
        now rewrite lookup_delete_ne by congruence.
Qed.

Lemma convert_entries_inv {A B} (f : string -> A -> res B) m d :
  convert_entries f m = Ok d -> entries f m d.
Proof.
  unfold convert_entries. revert d.
  apply (map_fold_weak_ind
           (fun r (m : gmap string A) => forall d, r = Ok d -> entries f m d)).
  - intros d [= <-] k. now rewrite !lookup_empty.
  - clear m. intros i x m r Hi IH d Hd.
    destruct r as [d0|]; [|discriminate]. simpl in Hd.
    destruct (f i x) as [y|] eqn:Hf; [|discriminate].
    injection Hd as <-. intros k.
    destruct (decide (k = i)) as [->|Hne].
    + rewrite !lookup_insert_eq. eauto.
    + rewrite !lookup_insert_ne by congruence. apply (IH d0 eq_refl).
Qed.

Lemma mapM_hashable l : mapM hashable (atom_val <$> l) = Ok l.
Proof.
  induction l as [|a l IH]; [reflexivity|].
  rewrite fmap_cons. cbn [mapM]. rewrite IH. now destruct a.
Qed.

Lemma to_set_atoms l : to_set (PList (atom_val <$> l)) = Ok (list_to_set l).
Proof. unfold to_set. now rewrite mapM_hashable. Qed.

Lemma mapM_atom_str l ns :
  mapM atom_str l = Some ns -> l = AStr <$> ns.
Proof.
  revert ns. induction l as [|a l IH]; intros ns.
  - now intros [= <-].
  - cbn [mapM]. destruct a as [s| |]; try discriminate. simpl.
    destruct (mapM atom_str l) as [ns'|]; [|discriminate].
    intros [= <-]. rewrite fmap_cons. f_equal. now apply IH.
Qed.

Lemma mapM_atom_int l ns :
  mapM atom_int l = Some ns -> l = AInt <$> ns.
Proof.
  revert ns. induction l as [|a l IH]; intros ns.
  - now intros [= <-].
  - cbn [mapM]. destruct a as [|n|]; try discriminate. simpl.
    destruct (mapM atom_int l) as [ns'|]; [|discriminate].
    intros [= <-]. rewrite fmap_cons. f_equal. now apply IH.
Qed.

(** A sorted list holds the elements of the set. *)
Lemma sorted_elements s l : sorted s = Ok l -> l ≡ₚ elements s.
Proof.
  unfold sorted.
  destruct (mapM atom_str (elements s)) as [ns|] eqn:E1.
  { intros [= <-]. apply mapM_atom_str in E1. rewrite E1.
    now rewrite merge_sort_Permutation. }
  destruct (mapM atom_int (elements s)) as [ns|] eqn:E2.
  { intros [= <-]. apply mapM_atom_int in E2. rewrite E2.
    now rewrite merge_sort_Permutation. }
  destruct (elements s) as [|[] [|]]; try discriminate.
  now intros [= <-].
Qed.

Lemma to_set_sorted s l :
  sorted s = Ok l -> to_set (PList (atom_val <$> l)) = Ok s.
Proof.
  intros H. rewrite to_set_atoms. f_equal.
  apply sorted_elements in H. apply set_eq. intros x.
  rewrite elem_of_list_to_set, H. apply elem_of_elements.
Qed.

(** A set of strings can be sorted. *)
Lemma sorted_names_only (s : gset atom) :
  names_only s -> exists l, sorted s = Ok l.
Proof.
  intros Hs. unfold sorted.
  assert (exists ns, mapM atom_str (elements s) = Some ns) as [ns ->];
    [|eauto].
  assert (Forall (fun a => exists n, a = AStr n) (elements s)) as H.
  { apply Forall_forall. intros a Ha. apply elem_of_elements in Ha. auto. }
  induction H as [|a l [n ->] _ [ns IH]]; [now exists []|].
  exists (n :: ns). cbn [mapM]. simpl. now rewrite IH.
Qed.

Lemma names_names_only (s : gset string) : names_only (names s).
Proof. intros a Ha. apply elem_of_map in Ha as (n & -> & _). eauto. Qed.

Lemma listed_names_only (l : list string) :
  names_only (list_to_set (AStr <$> l)).
Proof.
  intros a Ha. apply elem_of_list_to_set, list_elem_of_fmap in Ha as (n & -> & _).
  eauto.
Qed.

(** Serializing succeeds when every set can be sorted. *)
Lemma dump_entries_total (d : gmap string fsval) :
  (forall k s, d !! k = Some (FSet s) -> exists l, sorted s = Ok l) ->
  exists data, convert_entries dump_val d = Ok data.
Proof.
  unfold convert_entries.
  apply (map_fold_weak_ind
           (fun r (m : gmap string fsval) =>
              (forall k s, m !! k = Some (FSet s) -> exists l, sorted s = Ok l) ->
              exists data, r = Ok data)).
  - eauto.
  - intros i x m r Hi IH Hs. destruct IH as [data ->].
    { intros k s Hk. apply (Hs k). rewrite lookup_insert_ne; congruence. }
    simpl. destruct x as [s|v]; simpl; [|eauto].
    destruct (Hs i s) as [l ->]; [apply lookup_insert_eq|]. simpl. eauto.
Qed.

(** Loading what was serialized gives the folder state back. *)
Lemma dump_load_entries (d : gmap string fsval) data :
  well_keyed d ->
  convert_entries dump_val d = Ok data ->
  convert_entries load_val data = Ok d.
Proof.
  intros Hwk Hd. apply convert_entries_inv in Hd.
  apply convert_entries_ok. intros k. specialize (Hd k).
  destruct (d !! k) as [y|] eqn:Hk.
  - destruct Hd as (x & -> & Hx). exists y. split; [reflexivity|].
    specialize (Hwk k y Hk). unfold load_val.
    destruct y as [s|v]; simpl in Hx.
    + apply String.eqb_neq in Hwk. rewrite Hwk.
      apply MonadFacts.res_bind_ok_inv in Hx as (l & Hl & [= <-]).
      now rewrite (to_set_sorted s l).
    + injection Hx as ->. subst k. now rewrite String.eqb_refl.
  - now rewrite Hd.
Qed.

Lemma stamped_well_keyed stamp (d : gmap string fsval) :
  (forall k y, d !! k = Some y -> k <> RESERVED -> exists s, y = FSet s) ->
  well_keyed (stamped stamp d).
Proof.
  intros Hd k y. unfold stamped. rewrite lookup_insert. case_decide as E.
  - now intros [= <-].
  - intros Hk. destruct (Hd k y Hk) as [s ->]; congruence.
Qed.

(** The effect of [write_folder_state] when serializing succeeds. *)
Lemma write_folder_state_ok e p d w data :
  convert_entries dump_val (stamped (clock e (tick w)) d) = Ok data ->
  write_folder_state e p d w =
  (Ok (stamped (clock e (tick w)) d),
   {| files := <[p := Document (json_dump (PDict data))]> (files w);
      posters := posters w; tick := S (tick w);
      bot_folder_state := bot_folder_state w;
      trace := EvWriteFolderState p :: trace w |}).
Proof.
  intros H. unfold write_folder_state, stamped in *.
  rewrite MonadFacts.bind_unfold. simpl. rewrite H. reflexivity.
Qed.

Lemma read_folder_state_document fs p data d :
  fs !! p = Some (Document (json_dump (PDict data))) ->
  convert_entries load_val data = Ok d ->
  read_folder_state fs p = Ok d.
Proof.
  intros Hp Hd. unfold read_folder_state, read_folder_state_try.
  rewrite Hp. cbn [load_file mbind res_bind]. rewrite json_roundtrip.
  cbn [items mbind res_bind]. now rewrite Hd.
Qed.

End StoreFacts.

Module RoundTrip.
Import Py World Main JsonFacts StoreFacts.

Lemma read_folder_state_loaded fs p j data d :
  fs !! p = Some (Document j) ->
  json_load j = PDict data ->
  convert_entries load_val data = Ok d ->
  read_folder_state fs p = Ok d.
Proof.
  intros Hp Hj Hd. unfold read_folder_state, read_folder_state_try.
  rewrite Hp. cbn [load_file mbind res_bind]. rewrite Hj.
  cbn [items mbind res_bind]. now rewrite Hd.
Qed.

Lemma read_media_metadata_loaded fs p j (c : gmap string pyval) :
  fs !! p = Some (Document j) ->
  json_load j = PDict c ->
  Scraper.read_media_metadata fs p = Ok (PDict c).
Proof.
  intros Hp Hj.
  unfold Scraper.read_media_metadata, Scraper.read_media_metadata_try.
  rewrite Hp. cbn [load_file mbind res_bind]. now rewrite Hj.
Qed.

Lemma snapshot_of_stamped stamp (S : gmap string (gset string)) :
  RESERVED ∉ dom S ->
  snapshot_of (stamped stamp (folder_snapshot S)) = names <$> S.
Proof.
  intros HS. apply map_eq. intros k.
  unfold snapshot_of, stamped, folder_snapshot.
  rewrite lookup_omap, lookup_insert, !lookup_fmap. case_decide as E.
  - subst k. apply not_elem_of_dom in HS. now rewrite HS.
  - now destruct (S !! k).
Qed.

Lemma folder_snapshot_dumps stamp (S : gmap string (gset string)) :
  exists data,
    convert_entries dump_val (stamped stamp (folder_snapshot S)) = Ok data.
Proof.
  apply dump_entries_total. intros k s. unfold stamped, folder_snapshot.
  rewrite lookup_insert. case_decide; [discriminate|].
  rewrite lookup_fmap. destruct (S !! k) as [ns|]; [|discriminate].
  intros [= <-]. apply sorted_names_only, names_names_only.
Qed.

Lemma folder_snapshot_well_keyed stamp (S : gmap string (gset string)) :
  well_keyed (stamped stamp (folder_snapshot S)).
Proof.
  apply stamped_well_keyed. intros k y. unfold folder_snapshot.
  rewrite lookup_fmap. destruct (S !! k); [|discriminate].
  intros [= <-]. eauto.
Qed.

End RoundTrip.

(** C3. Saving and loading back reproduces the logical content, whatever
    the order of the members of the objects of the file.  For every
    FolderSnapshot S (no root of which is the reserved key): after
    write_folder_state the file is a JSON object, and read_folder_state of
    that object, or of any reordering of it, returns a state whose
    root-to-set mapping is S.  For every metadata cache c: after
    write_media_metadata the file is a JSON object, and read_media_metadata
    of that object, or of any reordering of it, returns c itself. *)
Theorem save_load_roundtrip :
  forall (e : env) (p : string) (w : world),
    (forall S : gmap string (gset string),
        Main.RESERVED ∉ dom S ->
        exists st w' members,
          Main.write_folder_state e p (folder_snapshot S) w = (Ok st, w')
          /\ files w' !! p = Some (Document (JObj members))
          /\ forall j', reordered (JObj members) j' ->
               exists loaded,
                 Main.read_folder_state (<[p := Document j']> (files w')) p
                 = Ok loaded
                 /\ snapshot_of loaded = names <$> S)
    /\ (forall c : gmap string pyval,
          exists w' members,
            Scraper.write_media_metadata p (PDict c) w = (Ok (), w')
            /\ files w' !! p = Some (Document (JObj members))
            /\ forall j', reordered (JObj members) j' ->
                 Scraper.read_media_metadata (<[p := Document j']> (files w')) p
                 = Ok (PDict c)).
Proof.
  intros e p w. split.
  - intros S HS.
    destruct (RoundTrip.folder_snapshot_dumps (clock e (tick w)) S) as [data Hd].
    eexists _, _, _. split; [|split].
    + apply StoreFacts.write_folder_state_ok. exact Hd.
    + cbn [files]. rewrite lookup_insert_eq. reflexivity.
    + intros j' Hj'. eexists. split.
      * eapply RoundTrip.read_folder_state_loaded.
        -- apply lookup_insert_eq.
        -- rewrite <- (JsonFacts.json_load_reordered _ _ Hj').
           apply (JsonFacts.json_roundtrip (PDict data)).
        -- apply StoreFacts.dump_load_entries; [|exact Hd].
           apply RoundTrip.folder_snapshot_well_keyed.
      * now apply RoundTrip.snapshot_of_stamped.
  - intros c. eexists _, _. split; [reflexivity|split].
    + cbn [files]. rewrite lookup_insert_eq. reflexivity.
    + intros j' Hj'. eapply RoundTrip.read_media_metadata_loaded.
      * apply lookup_insert_eq.
      * rewrite <- (JsonFacts.json_load_reordered _ _ Hj').
        apply (JsonFacts.json_roundtrip (PDict c)).
Qed.

(** ** Loading persisted state *)

Module LoadFacts.
Import World.

Lemma read_folder_state_total fs path :
  exists st, Main.read_folder_state fs path = Ok st.
Proof.
  unfold Main.read_folder_state.
  destruct (Main.read_folder_state_try fs path) as [st|[]]; simpl; eauto.
Qed.

Lemma read_media_metadata_total fs path :
  exists c, Scraper.read_media_metadata fs path = Ok c.
Proof.
  unfold Scraper.read_media_metadata.
  destruct (Scraper.read_media_metadata_try fs path) as [st|[]]; simpl; eauto.
Qed.

End LoadFacts.

(** C8. Loading persisted state never raises, for the snapshot store and
    for the metadata cache alike: every call returns a value; where the file
    is missing the value is the empty mapping; where the file does not parse
    (it is not JSON, or not even text) the error is caught and the value is
    the empty mapping again. *)
Theorem load_never_raises :
  (forall fs path, exists st, Main.read_folder_state fs path = Ok st)
  /\ (forall fs path, Main.read_folder_state (delete path fs) path = Ok ∅)
  /\ (forall fs path,
        Main.read_folder_state (<[path := NotJson]> fs) path = Ok ∅)
  /\ (forall fs path,
        Main.read_folder_state (<[path := NotText]> fs) path = Ok ∅)
  /\ (forall fs path, exists c, Scraper.read_media_metadata fs path = Ok c)
  /\ (forall fs path,
        Scraper.read_media_metadata (delete path fs) path = Ok (PDict ∅))
  /\ (forall fs path,
        Scraper.read_media_metadata (<[path := NotJson]> fs) path
        = Ok (PDict ∅))
  /\ (forall fs path,
        Scraper.read_media_metadata (<[path := NotText]> fs) path
        = Ok (PDict ∅)).
Proof.
  repeat split; intros fs path;
    try apply LoadFacts.read_folder_state_total;
    try apply LoadFacts.read_media_metadata_total;
    unfold Main.read_folder_state, Main.read_folder_state_try,
      Scraper.read_media_metadata, Scraper.read_media_metadata_try;
    rewrite ?lookup_delete_eq, ?lookup_insert_eq; reflexivity.
Qed.

(** ** Frame reasoning on the world *)

Module Frame.
Import World MonadFacts.

Section Preserves.
Context (R : world -> world -> Prop) `{!Reflexive R, !Transitive R}.

Lemma preserves_ret {A} (a : A) : preserves R (mret a).
Proof. intros w r w' [= <- <-]. reflexivity. Qed.

Lemma preserves_lift {A} (x : res A) : preserves R (lift x).
Proof. intros w r w' [= <- <-]. reflexivity. Qed.

Lemma preserves_get_world : preserves R get_world.
Proof. intros w r w' [= <- <-]. reflexivity. Qed.

Lemma preserves_bind {A B} (m : M A) (f : A -> M B) :
  preserves R m -> (forall a, preserves R (f a)) -> preserves R (m ≫= f).
Proof.
  intros Hm Hf w r w'. rewrite bind_unfold.
  destruct (m w) as [[a|x] w1] eqn:E.
  - intros H. transitivity w1; [eapply Hm, E|eapply Hf, H].
  - intros [= <- <-]. eapply Hm, E.
Qed.

Lemma preserves_catch {A} (m : M A) (h : exn -> M A) :
  preserves R m -> (forall x, preserves R (h x)) -> preserves R (catch m h).
Proof.
  intros Hm Hh w r w'. unfold catch.
  destruct (m w) as [[a|x] w1] eqn:E.
  - intros [= <- <-]. eapply Hm, E.
  - intros H. transitivity w1; [eapply Hm, E|eapply Hh, H].
Qed.

Lemma preserves_for_each {A} (l : list A) (body : A -> M unit) :
  (forall x, preserves R (body x)) -> preserves R (for_each l body).
Proof.
  intros Hb. induction l as [|x l IH]; simpl.
  - apply preserves_ret.
  - apply preserves_bind; auto.
Qed.

Lemma preserves_fold_loop {A S} (l : list A) (body : A -> S -> M S) s :
  (forall x s, preserves R (body x s)) -> preserves R (fold_loop l body s).
Proof.
  intros Hb. revert s. induction l as [|x l IH]; intros s; simpl.
  - apply preserves_ret.
  - apply preserves_bind; auto.
Qed.

End Preserves.

#[global] Instance same_store_refl : Reflexive same_store.
Proof. now intros w. Qed.

#[global] Instance same_store_trans : Transitive same_store.
Proof. intros w1 w2 w3 [H1 H2] [H3 H4]. split; congruence. Qed.

#[global] Instance same_but_trace_refl : Reflexive same_but_trace.
Proof. now intros w. Qed.

#[global] Instance same_but_trace_trans : Transitive same_but_trace.
Proof.
  intros w1 w2 w3 (H1&H2&H3&H4) (H5&H6&H7&H8). repeat split; congruence.
Qed.

Ltac frame_step R :=
  first
    [ apply (preserves_ret R)
    | apply (preserves_lift R)
    | apply (preserves_get_world R)
    | solve [auto with frame]
    | apply (preserves_bind R); [|intros]
    | apply (preserves_catch R); [|intros]
    | apply (preserves_for_each R); intros
    | apply (preserves_fold_loop R); intros
    | match goal with
      | |- preserves _ (match ?x with _ => _ end) => destruct x
      | |- preserves _ (let (_, _) := ?x in _) => destruct x
      end ].

Ltac frame R := repeat frame_step R.

Create HintDb frame.

Lemma emit_same_store ev : preserves same_store (emit ev).
Proof. now intros w r w' [= <- <-]. Qed.

Lemma next_tick_same_store : preserves same_store next_tick.
Proof. now intros w r w' [= <- <-]. Qed.

Lemma set_posters_same_store p : preserves same_store (set_posters p).
Proof. now intros w r w' [= <- <-]. Qed.

#[export] Hint Resolve emit_same_store next_tick_same_store
  set_posters_same_store : frame.

Lemma now_same_store e : preserves same_store (now e).
Proof. unfold now. frame same_store. Qed.
#[export] Hint Resolve now_same_store : frame.

Lemma fetch_same_store e t y k :
  preserves same_store (Scraper.fetch_media_metadata_from_omdb e t y k).
Proof. unfold Scraper.fetch_media_metadata_from_omdb. frame same_store. Qed.
#[export] Hint Resolve fetch_same_store : frame.

Lemma add_poster_same_store f : preserves same_store (Scraper.add_poster f).
Proof. unfold Scraper.add_poster. frame same_store. Qed.
#[export] Hint Resolve add_poster_same_store : frame.

Lemma download_poster_same_store e u d n :
  preserves same_store (Scraper.download_poster e u d n).
Proof. unfold Scraper.download_poster. frame same_store. Qed.
#[export] Hint Resolve download_poster_same_store : frame.

Lemma delete_poster_same_store e n :
  preserves same_store (Scraper.delete_poster e n).
Proof.
  unfold Scraper.delete_poster, Scraper.delete_one. frame same_store.
Qed.
#[export] Hint Resolve delete_poster_same_store : frame.

Lemma send_message_same_store cfg e :
  preserves same_store (Notifier.send_telegram_message cfg e).
Proof.
  unfold Notifier.send_telegram_message, Notifier.api_call,
    Notifier.log_and_return.
  frame same_store.
Qed.
#[export] Hint Resolve send_message_same_store : frame.

Lemma send_photo_same_store cfg e d p :
  preserves same_store (Notifier.send_telegram_photo cfg e d p).
Proof.
  unfold Notifier.send_telegram_photo, Notifier.api_call,
    Notifier.log_and_return.
  frame same_store.
Qed.
#[export] Hint Resolve send_photo_same_store : frame.

Lemma handle_added_same_store cfg e d n v :
  preserves same_store (Main.handle_added cfg e d n v).
Proof.
  unfold Main.handle_added, Main.resolve_metadata, Main.attach_poster,
    Main.queue_message.
  frame same_store.
Qed.
#[export] Hint Resolve handle_added_same_store : frame.

Lemma handle_removed_same_store e n v :
  preserves same_store (Main.handle_removed e n v).
Proof. unfold Main.handle_removed. frame same_store. Qed.
#[export] Hint Resolve handle_removed_same_store : frame.

Lemma reconcile_same_store cfg e c old cur :
  preserves same_store (Main.reconcile cfg e c old cur).
Proof.
  unfold Main.reconcile, Main.handle_root, Main.handle_all_added,
    Main.handle_all_removed.
  frame same_store.
Qed.

Lemma notify_same_store cfg e v : preserves same_store (Main.notify cfg e v).
Proof.
  unfold Main.notify, Main.send_photos, Main.send_text. frame same_store.
Qed.

End Frame.

(** ** The phases of a scan *)

Module ScanFacts.
Import World MonadFacts Main StoreFacts.

Ltac mstep :=
  unfold now, dump_file;
  unfold mbind, mret, M_bind, M_ret, res_bind, res_ret, lift, get_world,
    set_posters, set_bot_folder_state, emit, next_tick, set_files;
  cbn beta iota;
  cbn [files posters tick bot_folder_state trace default].

Lemma scan_current_state_lookup e roots (st : gmap string (gset atom)) root :
  foldl (fun cur p => <[p := list_to_set (AStr <$> get_subfolders e p)]> cur)
        st roots !! root
  = if bool_decide (root ∈ roots)
    then Some (list_to_set (AStr <$> get_subfolders e root))
    else st !! root.
Proof.
  revert st. induction roots as [|p roots IH]; intros st; [reflexivity|].
  simpl. rewrite IH. repeat case_bool_decide; try reflexivity.
  - set_solver.
  - apply elem_of_cons in H0 as [->|?]; [|done].
    apply lookup_insert_eq.
  - apply lookup_insert_ne. set_solver.
Qed.

(** The current state holds, for each monitored root, the names of its
    sub-folders. *)
Lemma current_state_monitored e roots root :
  root ∈ roots ->
  scan_current_state e roots !! root
  = Some (list_to_set (AStr <$> get_subfolders e root)).
Proof.
  intros H. unfold scan_current_state. rewrite scan_current_state_lookup.
  now rewrite bool_decide_eq_true_2.
Qed.

Lemma current_state_names_only e roots root s :
  scan_current_state e roots !! root = Some s -> names_only s.
Proof.
  unfold scan_current_state. rewrite scan_current_state_lookup.
  case_bool_decide; [|now rewrite lookup_empty].
  intros [= <-]. apply listed_names_only.
Qed.

Lemma current_state_dumps e roots stamp :
  exists data,
    convert_entries dump_val
      (stamped stamp (FSet <$> scan_current_state e roots)) = Ok data.
Proof.
  apply dump_entries_total. intros k s. unfold stamped.
  rewrite lookup_insert. case_decide; [discriminate|].
  rewrite lookup_fmap.
  destruct (scan_current_state e roots !! k) as [s'|] eqn:E; [|discriminate].
  intros [= <-]. eapply sorted_names_only, current_state_names_only, E.
Qed.

Lemma load_state_spec cfg e w :
  exists c old,
    Scraper.read_media_metadata (files w) (media_metadata_file cfg) = Ok c
    /\ read_folder_state (files w) (folder_list_path cfg) = Ok old
    /\ load_state cfg e w =
       (Ok (c, old, scan_current_state e (monitored_folders cfg)),
        {| files := files w; posters := Some (default ∅ (posters w));
           tick := tick w;
           bot_folder_state :=
             FSet <$> scan_current_state e (monitored_folders cfg);
           trace := trace w |}).
Proof.
  destruct (LoadFacts.read_media_metadata_total (files w) (media_metadata_file cfg))
    as [c Hc].
  destruct (LoadFacts.read_folder_state_total (files w) (folder_list_path cfg))
    as [old Hold].
  exists c, old. split; [exact Hc|split; [exact Hold|]].
  unfold load_state. mstep.
  destruct (posters w) as [ps|] eqn:Hp; mstep; rewrite ?Hp; mstep;
    rewrite Hc; mstep; rewrite Hold; mstep; rewrite ?Hp; reflexivity.
Qed.

Lemma persist_spec cfg e roots v w :
  exists data,
    convert_entries dump_val
      (stamped (clock e (tick w)) (FSet <$> scan_current_state e roots))
    = Ok data
    /\ persist cfg e (scan_current_state e roots) v w =
       (Ok (),
        {| files :=
             <[media_metadata_file cfg := Document (Py.json_dump (cache v))]>
               (<[folder_list_path cfg := Document (Py.json_dump (PDict data))]>
                  (files w));
           posters := posters w; tick := S (tick w);
           bot_folder_state :=
             stamped (clock e (tick w)) (FSet <$> scan_current_state e roots);
           trace := EvWriteMetadata (media_metadata_file cfg)
                    :: EvWriteFolderState (folder_list_path cfg) :: trace w |}).
Proof.
  destruct (current_state_dumps e roots (clock e (tick w))) as [data Hd].
  exists data. split; [exact Hd|].
  unfold persist. rewrite bind_unfold.
  rewrite (write_folder_state_ok _ _ _ _ data Hd). reflexivity.
Qed.

Lemma scan_inv cfg e w v w' :
  periodic_folder_scan cfg e w = (Ok v, w') ->
  exists c old w1 w2 w3,
    load_state cfg e w
    = (Ok (c, old, scan_current_state e (monitored_folders cfg)), w1)
    /\ reconcile cfg e c old (scan_current_state e (monitored_folders cfg)) w1
       = (Ok v, w2)
    /\ notify cfg e v w2 = (Ok (), w3)
    /\ persist cfg e (scan_current_state e (monitored_folders cfg)) v w3
       = (Ok (), w').
Proof.
  unfold periodic_folder_scan. intros H.
  destruct (load_state_spec cfg e w) as (c & old & _ & _ & Hl).
  rewrite (bind_ok _ _ _ _ _ Hl) in H.
  apply bind_ok_inv in H as (v1 & w2 & Hr & H).
  apply bind_ok_inv in H as ([] & w3 & Hn & H).
  apply bind_ok_inv in H as ([] & w4 & Hp & H).
  injection H as <- <-. eauto 10.
Qed.

Lemma scan_intro cfg e w c old w1 v w2 w3 w' :
  load_state cfg e w
  = (Ok (c, old, scan_current_state e (monitored_folders cfg)), w1) ->
  reconcile cfg e c old (scan_current_state e (monitored_folders cfg)) w1
  = (Ok v, w2) ->
  notify cfg e v w2 = (Ok (), w3) ->
  persist cfg e (scan_current_state e (monitored_folders cfg)) v w3
  = (Ok (), w') ->
  periodic_folder_scan cfg e w = (Ok v, w').
Proof.
  intros Hl Hr Hn Hp. unfold periodic_folder_scan.
  rewrite (bind_ok _ _ _ _ _ Hl). cbn beta iota.
  rewrite (bind_ok _ _ _ _ _ Hr), (bind_ok _ _ _ _ _ Hn), (bind_ok _ _ _ _ _ Hp).
  reflexivity.
Qed.

End ScanFacts.

(** ** Notification *)

Module NotifyFacts.
Import World MonadFacts Main Notifier ScanFacts.

Lemma agree_ret {A} (a : A) w1 w2 :
  same_but_trace w1 w2 -> agree ((mret a : M A) w1) ((mret a : M A) w2).
Proof. intros H. exists a, w1, w2. auto. Qed.

Lemma agree_bind {A B} (m1 m2 : M A) (f1 f2 : A -> M B) w1 w2 :
  agree (m1 w1) (m2 w2) ->
  (forall a u1 u2, same_but_trace u1 u2 -> agree (f1 a u1) (f2 a u2)) ->
  agree ((m1 ≫= f1) w1) ((m2 ≫= f2) w2).
Proof.
  intros (a & u1 & u2 & H1 & H2 & Hu) Hf.
  rewrite !bind_unfold, H1, H2. now apply Hf.
Qed.

Lemma agree_for_each {A} (l : list A) (b1 b2 : A -> M unit) :
  (forall x u1 u2, same_but_trace u1 u2 -> agree (b1 x u1) (b2 x u2)) ->
  forall w1 w2, same_but_trace w1 w2 ->
    agree (for_each l b1 w1) (for_each l b2 w2).
Proof.
  intros Hb. induction l as [|x l IH]; intros w1 w2 Hw; simpl.
  - now apply agree_ret.
  - apply agree_bind; auto.
Qed.

(** A sender returns normally whatever the chat API answers. *)
Lemma send_message_agree cfg e1 e2 w1 w2 :
  same_but_trace w1 w2 ->
  agree (send_telegram_message cfg e1 w1) (send_telegram_message cfg e2 w2).
Proof.
  intros (Hf & Hp & Ht & Hb). unfold send_telegram_message.
  destruct (_ || _); [now apply agree_ret|].
  unfold catch, api_call, log_and_return. mstep.
  exists ().
  destruct (telegram e1 (tick w1)), (telegram e2 (tick w2)); mstep;
    eexists _, _; (split; [reflexivity|split; [reflexivity|]]);
    repeat split; cbn; congruence.
Qed.

Lemma send_photo_agree cfg e1 e2 d p w1 w2 :
  same_but_trace w1 w2 ->
  agree (send_telegram_photo cfg e1 d p w1) (send_telegram_photo cfg e2 d p w2).
Proof.
  intros (Hf & Hp & Ht & Hb). unfold send_telegram_photo.
  destruct (_ || _); [now apply agree_ret|].
  mstep. unfold poster_exists. rewrite Hp.
  destruct (bool_decide _); [|now apply agree_ret].
  unfold catch, api_call, log_and_return. mstep.
  exists ().
  destruct (telegram e1 (tick w1)), (telegram e2 (tick w2)); mstep;
    eexists _, _; (split; [reflexivity|split; [reflexivity|]]);
    repeat split; cbn; congruence.
Qed.

Lemma send_photos_agree cfg e1 e2 d v w1 w2 :
  same_but_trace w1 w2 ->
  agree (send_photos cfg e1 d v w1) (send_photos cfg e2 d v w2).
Proof.
  unfold send_photos. apply agree_for_each. intros p u1 u2 Hu.
  apply agree_bind.
  - destruct (send_photo_agree cfg e1 e2 d p u1 u2 Hu)
      as ([] & x1 & x2 & H1 & H2 & Hx).
    unfold catch. rewrite !bind_unfold, H1, H2. now apply agree_ret.
  - intros [] x1 x2 Hx; [now apply agree_ret|now apply send_message_agree].
Qed.

Lemma send_text_agree cfg e1 e2 v w1 w2 :
  text_too_long e1 = text_too_long e2 ->
  text_sections e1 = text_sections e2 ->
  same_but_trace w1 w2 ->
  agree (send_text cfg e1 v w1) (send_text cfg e2 v w2).
Proof.
  intros Hl Hs Hw. unfold send_text. rewrite Hl, Hs.
  repeat match goal with
         | |- agree ((if ?b then _ else _) _) _ => destruct b
         end;
    try (now apply agree_ret); try (now apply send_message_agree).
  apply agree_for_each; [|exact Hw].
  intros _ u1 u2 Hu. now apply send_message_agree.
Qed.

Lemma notify_agree cfg e1 e2 v w1 w2 :
  text_too_long e1 = text_too_long e2 ->
  text_sections e1 = text_sections e2 ->
  same_but_trace w1 w2 ->
  agree (notify cfg e1 v w1) (notify cfg e2 v w2).
Proof.
  intros Hl Hs Hw. unfold notify. apply agree_bind.
  - now apply send_photos_agree.
  - intros [] u1 u2 Hu. now apply send_text_agree.
Qed.

(** Notification never raises. *)
Lemma notify_returns cfg e v w : exists w', notify cfg e v w = (Ok (), w').
Proof.
  destruct (notify_agree cfg e e v w w eq_refl eq_refl)
    as ([] & w1 & w2 & H1 & _); [reflexivity|eauto].
Qed.

End NotifyFacts.

(** C9. A scan that reaches its end has persisted the folder snapshot and
    then the metadata cache, in that order, as its last two effects; the two
    files hold the current state and the cache of the end of the scan; and
    this does not depend on the notification: with any other behaviour of
    the chat API (every send failing, say) the scan ends all the same, with
    the same result and the same files. *)
Theorem persistence_does_not_depend_on_notification :
  forall cfg e w v w',
    Main.periodic_folder_scan cfg e w = (Ok v, w') ->
    (exists rest stamp data,
        trace w' = EvWriteMetadata (Main.media_metadata_file cfg)
                   :: EvWriteFolderState (Main.folder_list_path cfg) :: rest
        /\ Main.convert_entries Main.dump_val
             (stamped stamp
                (snapshot_state
                   (Main.scan_current_state e (monitored_folders cfg))))
           = Ok data
        /\ files w' =
           <[Main.media_metadata_file cfg := Document (Py.json_dump (cache v))]>
             (<[Main.folder_list_path cfg := Document (Py.json_dump (PDict data))]>
                (files w)))
    /\ forall tg, exists w'',
         Main.periodic_folder_scan cfg (with_telegram e tg) w = (Ok v, w'')
         /\ files w'' = files w'.
Proof.
  intros cfg e w v w' H.
  apply ScanFacts.scan_inv in H as (c & old & w1 & w2 & w3 & Hl & Hr & Hn & Hp).
  assert (Hf3 : files w3 = files w).
  { destruct (ScanFacts.load_state_spec cfg e w) as (c' & old' & _ & _ & Hl').
    rewrite Hl' in Hl. injection Hl as _ _ <-.
    apply Frame.reconcile_same_store in Hr as [Hr _].
    apply Frame.notify_same_store in Hn as [Hn _].
    cbn in Hr. congruence. }
  destruct (ScanFacts.persist_spec cfg e (monitored_folders cfg) v w3)
    as (data & Hd & Hp').
  rewrite Hp' in Hp. injection Hp as <-. split.
  - exists (trace w3), (clock e (tick w3)), data. cbn. rewrite Hf3. auto.
  - intros tg.
    destruct (NotifyFacts.notify_agree cfg e (with_telegram e tg) v w2 w2
                eq_refl eq_refl) as ([] & u1 & u2 & H1 & H2 & Hu);
      [reflexivity|].
    rewrite Hn in H1. injection H1 as <-.
    destruct (ScanFacts.persist_spec cfg (with_telegram e tg)
                (monitored_folders cfg) v u2) as (data' & Hd' & Hp'').
    destruct Hu as (Hu1 & Hu2 & Hu3 & Hu4).
    eexists. split.
    + eapply ScanFacts.scan_intro; [exact Hl|exact Hr|exact H2|exact Hp''].
    + cbn. rewrite Hu3 in Hd'. cbn in Hd'.
      change (Main.scan_current_state (with_telegram e tg) (monitored_folders cfg))
        with (Main.scan_current_state e (monitored_folders cfg)) in Hd'.
      assert (data' = data) as -> by congruence.
      now rewrite Hu1.
Qed.

(** ** A scan that finds nothing new *)

Module QuietFacts.
Import World MonadFacts Main StoreFacts ScanFacts.

Lemma get_subfolders_ext e e' p :
  dirs e' = dirs e -> get_subfolders e' p = get_subfolders e p.
Proof. intros H. unfold get_subfolders. now rewrite H. Qed.

Lemma scan_current_state_ext e e' roots :
  dirs e' = dirs e -> scan_current_state e' roots = scan_current_state e roots.
Proof.
  intros H. unfold scan_current_state. generalize (∅ : gmap string (gset atom)).
  induction roots as [|p roots IH]; intros st; [reflexivity|].
  simpl. now rewrite IH, (get_subfolders_ext e e' p H).
Qed.

(** A root whose previous set is its current set changes nothing. *)
Lemma handle_root_quiet cfg e dir old cur root s v w :
  old !! root = Some (FSet s) -> cur !! root = Some s ->
  handle_root cfg e dir old cur root v w = (Ok (count_diff root ∅ ∅ v), w).
Proof.
  intros Ho Hc. unfold handle_root, diff_for_path. rewrite Ho, Hc.
  unfold set_sub_r, set_sub_l. mstep. unfold id.
  rewrite difference_diag_L.
  rewrite bool_decide_eq_false_2 by (intros H; now apply H).
  reflexivity.
Qed.

Lemma reconcile_quiet cfg e dir old cur roots v w :
  (forall root, root ∈ roots ->
     exists s, old !! root = Some (FSet s) /\ cur !! root = Some s) ->
  fold_loop roots (handle_root cfg e dir old cur) v w
  = (Ok (quiet_vars roots v), w).
Proof.
  revert v. induction roots as [|root roots IH]; intros v H; [reflexivity|].
  destruct (H root) as (s & Ho & Hc); [apply list_elem_of_here|].
  cbn [fold_loop]. rewrite bind_unfold.
  rewrite (handle_root_quiet _ _ _ _ _ _ s v w Ho Hc).
  apply IH. intros r Hr. apply H. now apply list_elem_of_further.
Qed.

Lemma quiet_vars_spec roots v :
  diffs (quiet_vars roots v)
  = rev ((fun root => (root, (∅, ∅))) <$> roots) ++ diffs v
  /\ overall_added_count (quiet_vars roots v) = overall_added_count v
  /\ overall_removed_count (quiet_vars roots v) = overall_removed_count v
  /\ has_changes (quiet_vars roots v) = has_changes v
  /\ cache (quiet_vars roots v) = cache v.
Proof.
  revert v. induction roots as [|root roots IH]; intros v.
  - now repeat split.
  - cbn [quiet_vars foldl]. destruct (IH (count_diff root ∅ ∅ v))
      as (H1 & H2 & H3 & H4 & H5).
    unfold quiet_vars in *. rewrite H1, H2, H3, H4, H5.
    cbn [count_diff diffs overall_added_count overall_removed_count
         has_changes cache fmap list_fmap rev].
    rewrite size_empty, !Nat.add_0_r, <- app_assoc. now repeat split.
Qed.

(** The serialized folder state is the serialized entries of the roots,
    with the time stamp put in. *)
Lemma dump_stamped (d : gmap string fsval) stamp data0 :
  convert_entries dump_val (delete RESERVED d) = Ok data0 ->
  convert_entries dump_val (stamped stamp d)
  = Ok (<[RESERVED := PStr stamp]> data0).
Proof.
  intros H0. apply convert_entries_inv in H0.
  apply convert_entries_ok. intros k. unfold stamped.
  destruct (decide (k = RESERVED)) as [->|Hne].
  - rewrite !lookup_insert_eq. eauto.
  - rewrite !lookup_insert_ne by congruence.
    specialize (H0 k). now rewrite lookup_delete_ne in H0 by congruence.
Qed.

Lemma current_entries_dump e roots :
  exists data0,
    convert_entries dump_val
      (delete RESERVED (FSet <$> scan_current_state e roots)) = Ok data0.
Proof.
  apply dump_entries_total. intros k s.
  rewrite lookup_delete. case_decide; [discriminate|].
  rewrite lookup_fmap.
  destruct (scan_current_state e roots !! k) as [s'|] eqn:E; [|discriminate].
  intros [= <-]. eapply sorted_names_only, current_state_names_only, E.
Qed.

Lemma current_state_well_keyed e roots stamp :
  well_keyed (stamped stamp (FSet <$> scan_current_state e roots)).
Proof.
  apply stamped_well_keyed. intros k y. rewrite lookup_fmap.
  destruct (scan_current_state e roots !! k); [|discriminate].
  intros [= <-]. eauto.
Qed.

End QuietFacts.

(** C2 (as amended). Let no monitored root be the reserved key and let the
    snapshot file and the cache file be two files.  When a scan has run to
    its end and a second scan runs with the monitored directories unchanged,
    the second scan runs to its end too and reports, for every monitored
    root, no added and no removed folder; the snapshot file it persists
    holds the same entries for the roots as the file the first scan
    persisted, under time stamps that are each run's own. *)
Theorem second_scan_is_quiet :
  forall cfg e e' w v1 w1,
    Main.RESERVED ∉ monitored_folders cfg ->
    Main.folder_list_path cfg <> Main.media_metadata_file cfg ->
    dirs e' = dirs e ->
    Main.periodic_folder_scan cfg e w = (Ok v1, w1) ->
    exists v2 w2 stamp1 stamp2 roots_data,
      Main.periodic_folder_scan cfg e' w1 = (Ok v2, w2)
      /\ diffs v2 = rev ((fun root => (root, (∅, ∅))) <$> monitored_folders cfg)
      /\ overall_added_count v2 = 0
      /\ overall_removed_count v2 = 0
      /\ has_changes v2 = false
      /\ roots_data !! Main.RESERVED = None
      /\ files w1 !! Main.folder_list_path cfg
         = Some (Document (Py.json_dump
                   (PDict (<[Main.RESERVED := PStr stamp1]> roots_data))))
      /\ files w2 !! Main.folder_list_path cfg
         = Some (Document (Py.json_dump
                   (PDict (<[Main.RESERVED := PStr stamp2]> roots_data)))).
Proof.
  intros cfg e e' w v1 w1 Hres Hpaths Hdirs H1.
  set (cur := Main.scan_current_state e (monitored_folders cfg)).
  apply ScanFacts.scan_inv in H1 as (c & old & u1 & u2 & u3 & _ & _ & _ & Hp).
  destruct (ScanFacts.persist_spec cfg e (monitored_folders cfg) v1 u3)
    as (data1 & Hd1 & Hp1).
  rewrite Hp1 in Hp. injection Hp as <-. clear Hp1.
  destruct (QuietFacts.current_entries_dump e (monitored_folders cfg))
    as [data0 Hd0]. fold cur in Hd0, Hd1.
  rewrite (QuietFacts.dump_stamped _ (clock e (tick u3)) _ Hd0) in Hd1.
  injection Hd1 as <-.
  set (st1 := clock e (tick u3)).
  set (w1 := {| files := _; posters := posters u3 |}).
  assert (Hfile1 : files w1 !! Main.folder_list_path cfg
                   = Some (Document (Py.json_dump
                        (PDict (<[Main.RESERVED := PStr st1]> data0))))).
  { subst w1. cbn [files]. rewrite lookup_insert_ne by congruence.
    apply lookup_insert_eq. }
  (* the second run *)
  destruct (ScanFacts.load_state_spec cfg e' w1) as (c2 & old2 & _ & Hold2 & Hl2).
  rewrite (QuietFacts.scan_current_state_ext e e' _ Hdirs) in Hl2. fold cur in Hl2.
  assert (old2 = stamped st1 (snapshot_state cur)) as ->.
  { assert (Main.read_folder_state (files w1) (Main.folder_list_path cfg)
            = Ok (stamped st1 (snapshot_state cur))) as Hr; [|congruence].
    eapply StoreFacts.read_folder_state_document; [exact Hfile1|].
    apply StoreFacts.dump_load_entries.
    - apply QuietFacts.current_state_well_keyed.
    - now apply QuietFacts.dump_stamped. }
  set (w1' := {| files := files w1; posters := Some _ |}) in Hl2.
  assert (Hr2 : Main.reconcile cfg e' c2 (stamped st1 (snapshot_state cur)) cur w1'
                = (Ok (quiet_vars (monitored_folders cfg) (Main.initial_vars c2)),
                   w1')).
  { apply QuietFacts.reconcile_quiet. intros root Hroot.
    exists (list_to_set (AStr <$> Main.get_subfolders e root)).
    assert (Hc : cur !! root
                 = Some (list_to_set (AStr <$> Main.get_subfolders e root)))
      by now apply ScanFacts.current_state_monitored.
    split; [|exact Hc].
    unfold stamped, snapshot_state.
    rewrite lookup_insert_ne by (intros <-; contradiction).
    now rewrite lookup_fmap, Hc. }
  set (v2 := quiet_vars _ _) in Hr2.
  destruct (NotifyFacts.notify_returns cfg e' v2 w1') as [w3 Hn2].
  destruct (ScanFacts.persist_spec cfg e' (monitored_folders cfg) v2 w3)
    as (data2 & Hd2 & Hp2).
  rewrite (QuietFacts.scan_current_state_ext e e' _ Hdirs) in Hd2, Hp2.
  fold cur in Hd2, Hp2.
  rewrite (QuietFacts.dump_stamped _ (clock e' (tick w3)) _ Hd0) in Hd2.
  injection Hd2 as <-.
  destruct (QuietFacts.quiet_vars_spec (monitored_folders cfg)
              (Main.initial_vars c2)) as (Q1 & Q2 & Q3 & Q4 & _).
  eexists v2, _, st1, (clock e' (tick w3)), data0.
  split; [|repeat split].
  - eapply ScanFacts.scan_intro.
    + rewrite (QuietFacts.scan_current_state_ext e e' _ Hdirs). exact Hl2.
    + rewrite (QuietFacts.scan_current_state_ext e e' _ Hdirs). exact Hr2.
    + exact Hn2.
    + rewrite (QuietFacts.scan_current_state_ext e e' _ Hdirs). exact Hp2.
  - subst v2. rewrite Q1. cbn [Main.initial_vars diffs]. apply app_nil_r.
  - subst v2. now rewrite Q2.
  - subst v2. now rewrite Q3.
  - subst v2. now rewrite Q4.
  - apply StoreFacts.convert_entries_inv in Hd0. specialize (Hd0 Main.RESERVED).
    now rewrite lookup_delete_eq in Hd0.
  - exact Hfile1.
  - cbn [files]. rewrite lookup_insert_ne by congruence.
    apply lookup_insert_eq.
Qed.

(** ** Removed folders *)

Module EvictFacts.
Import World MonadFacts Main StoreFacts ScanFacts Scraper.

Lemma evicts_dec e n f : Decision (evicts e n f).
Proof. unfold evicts. apply _. Qed.

Lemma delete_one_spec e n f w :
  exists w',
    delete_one e (sanitize n) f w = (Ok (), w')
    /\ same_store w w' /\ tick w' = tick w
    /\ (forall g, g ∈ poster_files w' <->
                  g ∈ poster_files w /\ (g = f -> ~ evicts e n f)).
Proof.
  unfold delete_one, evicts.
  destruct (Str.startswith f (sanitize n)) eqn:Hs.
  - destruct (removable e f) eqn:Hr; mstep; eexists; (split; [reflexivity|]);
      (split; [now split|split; [reflexivity|]]); intros g;
      unfold poster_files; cbn [posters default]; unfold id.
    + rewrite elem_of_difference, elem_of_singleton.
      split; [intros [? ?]; split; [done|tauto]|].
      intros [? Hg]. split; [done|]. intros ->. now apply Hg.
    + split; [intros ?; split; [done|]|tauto]. intros _ [_ ?]. discriminate.
  - mstep. eexists. split; [reflexivity|].
    split; [now split|split; [reflexivity|]]. intros g.
    split; [intros ?; split; [done|]|tauto]. intros _ [? _]. discriminate.
Qed.

Lemma delete_loop_spec e n l w :
  exists w',
    for_each l (delete_one e (sanitize n)) w = (Ok (), w')
    /\ same_store w w' /\ tick w' = tick w
    /\ (forall g, g ∈ poster_files w' <->
                  g ∈ poster_files w /\ (g ∈ l -> ~ evicts e n g)).
Proof.
  revert w. induction l as [|f l IH]; intros w.
  - exists w. split; [reflexivity|]. split; [reflexivity|split; [reflexivity|]].
    intros g. split; [intros ?; split; [done|]|tauto]. now intros ?%elem_of_nil.
  - destruct (delete_one_spec e n f w) as (w1 & H1 & S1 & T1 & P1).
    destruct (IH w1) as (w2 & H2 & S2 & T2 & P2).
    exists w2. cbn [for_each]. rewrite bind_unfold, H1.
    split; [exact H2|]. split; [now transitivity w1|split; [congruence|]].
    intros g. rewrite P2, P1, elem_of_cons. split.
    + intros [[Hg Hf] Hl]. split; [done|]. intros [->|?]; auto.
    + intros [Hg Hl]. repeat split; auto. intros ->. auto.
Qed.

(** [delete_poster] removes every file whose name starts with the
    sanitized folder name and whose removal succeeds, and nothing else. *)
Lemma delete_poster_spec e n w :
  exists w',
    delete_poster e n w = (Ok (), w')
    /\ same_store w w' /\ tick w' = tick w
    /\ (forall g, g ∈ poster_files w' <->
                  g ∈ poster_files w /\ ~ evicts e n g).
Proof.
  unfold delete_poster. mstep.
  destruct (posters w) as [ps|] eqn:Hp.
  - destruct (delete_loop_spec e n (elements ps) w) as (w' & H & S & T & P).
    exists w'. split; [exact H|]. split; [exact S|split; [exact T|]].
    assert (Hpf : poster_files w = ps) by (unfold poster_files; now rewrite Hp).
    intros g. rewrite P, Hpf, elem_of_elements. tauto.
  - exists w. split; [reflexivity|]. split; [reflexivity|split; [reflexivity|]].
    intros g. unfold poster_files. rewrite Hp. cbn [default]. set_solver.
Qed.

Lemma handle_removed_spec e n v w c :
  cache v = PDict c ->
  exists v' w',
    handle_removed e n v w = (Ok v', w')
    /\ cache v' = PDict (delete n c) /\ diffs v' = diffs v
    /\ same_store w w' /\ tick w' = tick w
    /\ (forall g, g ∈ poster_files w' <->
                  g ∈ poster_files w /\ ~ evicts e n g).
Proof.
  intros Hc. unfold handle_removed.
  destruct (delete_poster_spec e n w) as (w' & H & S & T & P).
  rewrite bind_unfold, H. cbn [add_part cache]. rewrite Hc.
  cbn [Py.contains]. mstep.
  case_bool_decide as Hn.
  - cbn [Py.delitem]. eexists _, w'. split; [reflexivity|].
    split; [reflexivity|split; [reflexivity|split; [exact S|split; [exact T|exact P]]]].
  - eexists _, w'. split; [reflexivity|]. cbn [add_part cache diffs].
    rewrite Hc.
    split; [|split; [reflexivity|split; [exact S|split; [exact T|exact P]]]].
    f_equal. symmetry. apply delete_id.
    destruct (c !! n) eqn:E; [|reflexivity]. exfalso. apply Hn. eauto.
Qed.

(** Sorting a set of strings gives its names. *)
Lemma sorted_names_spec (s : gset atom) :
  names_only s ->
  exists ns, Py.sorted s = Ok (AStr <$> ns) /\ forall n, n ∈ ns <-> AStr n ∈ s.
Proof.
  intros Hs. destruct (sorted_names_only s Hs) as [l Hl].
  pose proof (sorted_elements s l Hl) as Hp.
  assert (Forall (fun a => exists n, a = AStr n) l) as Hall.
  { apply Forall_forall. intros a Ha. apply Hs.
    rewrite Hp in Ha. now apply elem_of_elements in Ha. }
  assert (exists ns, l = AStr <$> ns) as [ns ->].
  { clear -Hall. induction Hall as [|a l [n ->] _ [ns ->]]; [now exists []|].
    now exists (n :: ns). }
  exists ns. split; [exact Hl|]. intros n.
  rewrite <- elem_of_elements, <- Hp. rewrite list_elem_of_fmap. split.
  - eauto.
  - now intros (m & [= ->] & Hm).
Qed.

Lemma lookup_deleted (c : gmap string pyval) ns k :
  foldl (fun c n => delete n c) c ns !! k
  = if bool_decide (k ∈ ns) then None else c !! k.
Proof.
  revert c. induction ns as [|n ns IH]; intros c; [reflexivity|].
  cbn [foldl]. rewrite IH. repeat case_bool_decide; try reflexivity.
  - set_solver.
  - apply elem_of_cons in H0 as [->|?]; [|done]. apply lookup_delete_eq.
  - apply lookup_delete_ne. set_solver.
Qed.

Lemma removed_loop_spec e ns v w c :
  cache v = PDict c ->
  exists v' w',
    fold_loop (AStr <$> ns)
      (fun a v => match a with
                  | AStr folder_name => handle_removed e folder_name v
                  | _ => lift (Raise AttributeError)
                  end) v w = (Ok v', w')
    /\ cache v' = PDict (foldl (fun c n => delete n c) c ns)
    /\ diffs v' = diffs v
    /\ same_store w w' /\ tick w' = tick w
    /\ (forall g, g ∈ poster_files w' <->
                  g ∈ poster_files w /\ forall n, n ∈ ns -> ~ evicts e n g).
Proof.
  revert v w c. induction ns as [|n ns IH]; intros v w c Hc.
  - exists v, w. split; [reflexivity|]. split; [exact Hc|].
    split; [reflexivity|split; [reflexivity|split; [reflexivity|]]].
    intros g. split; [intros ?; split; [done|]|tauto].
    now intros n ?%elem_of_nil.
  - destruct (handle_removed_spec e n v w c Hc)
      as (v1 & w1 & H1 & C1 & D1 & S1 & T1 & P1).
    destruct (IH v1 w1 _ C1) as (v2 & w2 & H2 & C2 & D2 & S2 & T2 & P2).
    exists v2, w2. rewrite fmap_cons. cbn [fold_loop].
    rewrite bind_unfold, H1.
    split; [exact H2|]. split; [exact C2|].
    split; [congruence|split; [now transitivity w1|split; [congruence|]]].
    intros g. rewrite P2, P1. split.
    + intros [[Hg Hn] Hns]. split; [done|].
      intros m [->|?]%elem_of_cons; auto.
    + intros [Hg Hns]. repeat split; auto.
      * apply Hns, list_elem_of_here.
      * intros m Hm. now apply Hns, list_elem_of_further.
Qed.

End EvictFacts.

(** C7. Handling the removed folders of a root (the cache being a
    dictionary) always runs to its end, whatever removals fail.  After it:
    the cache has no record for any removed name; every poster file whose
    name starts with the sanitized name of a removed folder, and whose
    removal does not fail, is gone; the records of the other names and the
    other poster files are as before. *)
Theorem removed_folders_are_evicted :
  forall e (removed : gset string) v w c,
    cache v = PDict c ->
    exists v' w' c',
      Main.handle_all_removed e (names removed) v w = (Ok v', w')
      /\ cache v' = PDict c'
      /\ (forall n, n ∈ removed -> c' !! n = None)
      /\ (forall n f, n ∈ removed -> f ∈ poster_files w ->
            Str.startswith f (Scraper.sanitize n) = true ->
            removable e f = true -> f ∉ poster_files w')
      /\ (forall m, m ∉ removed -> c' !! m = c !! m)
      /\ (forall f, f ∈ poster_files w' <->
            f ∈ poster_files w /\ forall n, n ∈ removed -> ~ evicts e n f).
Proof.
  intros e removed v w c Hc.
  destruct (EvictFacts.sorted_names_spec (names removed)
              (StoreFacts.names_names_only removed)) as (ns & Hs & Hns).
  assert (Hns' : forall n, n ∈ ns <-> n ∈ removed).
  { intros n. rewrite Hns. unfold names. rewrite elem_of_map. split.
    - now intros (m & [= ->] & Hm).
    - eauto. }
  destruct (EvictFacts.removed_loop_spec e ns v w c Hc)
    as (v' & w' & H & C & _ & _ & _ & P).
  exists v', w', (foldl (fun c n => delete n c) c ns).
  unfold Main.handle_all_removed.
  rewrite MonadFacts.bind_unfold. unfold World.lift. rewrite Hs.
  split; [exact H|]. split; [exact C|].
  assert (HP : forall f, f ∈ poster_files w' <->
            f ∈ poster_files w /\ forall n, n ∈ removed -> ~ evicts e n f).
  { intros f. rewrite P. split; intros [Hf Hn]; (split; [done|]);
      intros n Hin; apply Hn; now apply Hns'. }
  split; [|split; [|split; [|exact HP]]].
  - intros n Hn. rewrite EvictFacts.lookup_deleted.
    rewrite bool_decide_eq_true_2; [reflexivity|now apply Hns'].
  - intros n f Hn Hf Hpre Hrm Hf'. apply HP in Hf' as [_ Hf'].
    apply (Hf' n Hn). now split.
  - intros m Hm. rewrite EvictFacts.lookup_deleted.
    rewrite bool_decide_eq_false_2; [reflexivity|]. intros Hin. now apply Hm, Hns'.
Qed.

(** ** Added folders *)

Module EnrichFacts.
Import World MonadFacts Main StoreFacts ScanFacts Scraper Frame.

#[global] Instance no_lookup_refl : Reflexive no_lookup.
Proof. now intros w. Qed.

#[global] Instance no_lookup_trans : Transitive no_lookup.
Proof. unfold no_lookup. intros w1 w2 w3 H1 H2. congruence. Qed.

Lemma emit_no_lookup ev :
  match ev with EvLookup _ _ => False | _ => True end ->
  preserves no_lookup (emit ev).
Proof. intros H w r w' [= <- <-]. now destruct ev. Qed.

Lemma next_tick_no_lookup : preserves no_lookup next_tick.
Proof. now intros w r w' [= <- <-]. Qed.

Lemma set_posters_no_lookup p : preserves no_lookup (set_posters p).
Proof. now intros w r w' [= <- <-]. Qed.

#[export] Hint Resolve next_tick_no_lookup set_posters_no_lookup : frame.
#[export] Hint Extern 1 (preserves no_lookup (emit _)) =>
  apply emit_no_lookup; exact I : frame.

Lemma add_poster_no_lookup f : preserves no_lookup (add_poster f).
Proof. unfold add_poster. frame no_lookup. Qed.
#[export] Hint Resolve add_poster_no_lookup : frame.

Lemma download_poster_no_lookup e u d n :
  preserves no_lookup (download_poster e u d n).
Proof. unfold download_poster. frame no_lookup. Qed.
#[export] Hint Resolve download_poster_no_lookup : frame.

Lemma attach_poster_no_lookup e d n md v :
  preserves no_lookup (attach_poster e d n md v).
Proof. unfold attach_poster. frame no_lookup. Qed.

Lemma queue_message_no_lookup d n lp md v :
  preserves no_lookup (queue_message d n lp md v).
Proof. unfold queue_message. frame no_lookup. Qed.

Lemma truthy_record (r : gmap string pyval) k x :
  r !! k = Some x -> Py.truthy (PDict r) = true.
Proof.
  intros H. cbn [Py.truthy]. rewrite bool_decide_eq_false_2; [reflexivity|].
  intros ->. now rewrite lookup_empty in H.
Qed.

Lemma is_cached_record (r : gmap string pyval) x :
  r !! "last_fetched" = Some x -> is_cached (PDict r) = Ok true.
Proof.
  intros H. unfold is_cached. rewrite (truthy_record r _ _ H).
  cbn [Py.contains]. rewrite bool_decide_eq_true_2; eauto.
Qed.

(** A record with a fetch time stamp is taken from the cache as it is:
    nothing is asked, not even the time. *)
Lemma resolve_cached cfg e n v w c r x :
  cache v = PDict c -> c !! n = Some (PDict r) ->
  r !! "last_fetched" = Some x ->
  resolve_metadata cfg e n v w = (Ok (PDict r, v), w).
Proof.
  intros Hc Hn Hx. unfold resolve_metadata.
  destruct (Parse.parse_folder_name n) as [title year].
  rewrite Hc. cbn [Py.get]. rewrite Hn. cbn [default]. mstep. unfold id.
  rewrite (is_cached_record r x Hx). reflexivity.
Qed.

(** Without a record the provider is asked, once. *)
Ltac mrun :=
  repeat (first [rewrite bind_unfold | progress unfold World.now];
          cbn [lift emit next_tick get_world set_posters mret M_ret
               tick files posters trace bot_folder_state]).

Lemma resolve_missing cfg e n v w c o w' :
  cache v = PDict c -> c !! n = None ->
  omdb_api_key cfg <> "" ->
  resolve_metadata cfg e n v w = (o, w') ->
  lookups w' = S (lookups w).
Proof.
  intros Hc Hn Hk. unfold resolve_metadata.
  destruct (Parse.parse_folder_name n) as [title year].
  rewrite Hc. cbn [Py.get]. rewrite Hn. cbn [default].
  rewrite bind_unfold. cbn [lift].
  unfold is_cached. cbn [Py.truthy].
  rewrite bind_unfold. cbn [lift].
  unfold fetch_media_metadata_from_omdb.
  apply String.eqb_neq in Hk. rewrite Hk. mrun.
  destruct (omdb e (tick w) title year) as [|[| | | | |data]]; mrun;
    try (intros [= <- <-]; reflexivity).
  match goal with |- context [Py.eq_str ?a ?b] => destruct (Py.eq_str a b) end;
    mrun; cbn [Py.setitem]; mrun; intros [= <- <-]; reflexivity.
Qed.

End EnrichFacts.

(** C5. For an added folder whose exact name has a record in the cache with
    a fetch time stamp, the record is reused as it is and handling the
    folder makes no lookup call, whatever the age of the record; a lookup
    call is made only when the cache has no such record; and it is made
    when the cache has no record at all for the name. *)
Theorem cached_record_is_reused :
  forall cfg e posters_dir folder_name v w,
    (forall c r stamp,
        cache v = PDict c -> c !! folder_name = Some (PDict r) ->
        r !! "last_fetched" = Some stamp ->
        Main.resolve_metadata cfg e folder_name v w = (Ok (PDict r, v), w)
        /\ forall o w',
             Main.handle_added cfg e posters_dir folder_name v w = (o, w') ->
             lookups w' = lookups w)
    /\ (forall o w',
          Main.resolve_metadata cfg e folder_name v w = (o, w') ->
          lookups w' <> lookups w ->
          ~ exists c r stamp,
              cache v = PDict c /\ c !! folder_name = Some (PDict r)
              /\ r !! "last_fetched" = Some stamp)
    /\ (forall c o w',
          cache v = PDict c -> c !! folder_name = None ->
          omdb_api_key cfg <> "" ->
          Main.resolve_metadata cfg e folder_name v w = (o, w') ->
          lookups w' = S (lookups w)).
Proof.
  intros cfg e dir n v w. split; [|split].
  - intros c r x Hc Hn Hx.
    pose proof (EnrichFacts.resolve_cached cfg e n v w c r x Hc Hn Hx) as Hr.
    split; [exact Hr|]. intros o w'. unfold Main.handle_added.
    rewrite (MonadFacts.bind_ok _ _ _ _ _ Hr). cbn beta iota.
    rewrite MonadFacts.bind_unfold.
    destruct (Main.attach_poster e dir n (PDict r) v w) as [[[[lp md] v1]|x1] w1] eqn:Ha.
    + intros Hq. apply EnrichFacts.attach_poster_no_lookup in Ha.
      apply EnrichFacts.queue_message_no_lookup in Hq.
      unfold no_lookup in *. congruence.
    + intros [= <- <-]. now apply EnrichFacts.attach_poster_no_lookup in Ha.
  - intros o w' Hr Hne (c & r & x & Hc & Hn & Hx).
    rewrite (EnrichFacts.resolve_cached cfg e n v w c r x Hc Hn Hx) in Hr.
    injection Hr as <- <-. now apply Hne.
  - intros c o w'. apply EnrichFacts.resolve_missing.
Qed.

(** ** The time stamps of a record *)

Module StampFacts.
Import World MonadFacts Main StoreFacts ScanFacts Scraper EnrichFacts EvictFacts.

(** What handles the folders of a root leaves the report as it is. *)
Lemma resolve_diffs cfg e m v w md v' w' :
  resolve_metadata cfg e m v w = (Ok (md, v'), w') -> diffs v' = diffs v.
Proof.
  unfold resolve_metadata. destruct (Parse.parse_folder_name m) as [title year].
  mrun. destruct (Py.get (cache v) m) as [md0|]; mrun; [|discriminate].
  destruct (is_cached md0) as [[]|]; mrun;
    [now intros [= <- <- <-]| |discriminate].
  destruct (fetch_media_metadata_from_omdb e title year (omdb_api_key cfg) w)
    as [[[rec|]|] w1]; mrun; [|now intros [= <- <- <-]|discriminate].
  match goal with |- context [Py.setitem ?a ?b ?c] =>
    destruct (Py.setitem a b c) end; mrun; [|discriminate].
  now intros [= <- <- <-].
Qed.

Lemma attach_diffs e dir m md v w lp md' v' w' :
  attach_poster e dir m md v w = (Ok (lp, md', v'), w') -> diffs v' = diffs v.
Proof.
  unfold attach_poster. mrun.
  destruct (has_poster_url md) as [[]|]; mrun;
    [|now intros [= <- <- <-]|discriminate].
  destruct (Py.get md "poster_url") as [url|]; mrun; [|discriminate].
  destruct (download_poster e url dir m w) as [[[path|]|] w1]; mrun;
    [|now intros [= <- <- <-]|discriminate].
  destruct (Py.setitem md "local_poster_path" (PStr path)) as [md1|];
    mrun; [|discriminate].
  match goal with |- context [Py.setitem ?a ?b ?c] =>
    destruct (Py.setitem a b c) end; mrun; [|discriminate].
  now intros [= <- <- <-].
Qed.

Lemma queue_diffs dir m lp md v w v' w' :
  queue_message dir m lp md v w = (Ok v', w') ->
  cache v' = cache v /\ diffs v' = diffs v.
Proof.
  unfold queue_message. mrun.
  destruct lp as [path|]; [|now intros [= <- <-]].
  destruct (Notifier.poster_exists dir path w); [|now intros [= <- <-]].
  mrun. destruct (build_caption md); mrun; [|discriminate].
  now intros [= <- <-].
Qed.

Lemma handle_added_diffs cfg e dir m v w v' w' :
  handle_added cfg e dir m v w = (Ok v', w') -> diffs v' = diffs v.
Proof.
  intros H. unfold handle_added in H.
  apply bind_ok_inv in H as ([md v1] & w1 & H1 & H).
  apply bind_ok_inv in H as ([[lp md'] v2] & w2 & H2 & H3).
  apply resolve_diffs in H1. apply attach_diffs in H2.
  apply queue_diffs in H3 as [_ H3]. congruence.
Qed.

Lemma handle_removed_diffs e m v w v' w' :
  handle_removed e m v w = (Ok v', w') -> diffs v' = diffs v.
Proof.
  unfold handle_removed. mrun.
  destruct (delete_poster e m w) as [[[]|] w1]; mrun; [|discriminate].
  cbn [add_part cache].
  destruct (Py.contains m (cache v)) as [[]|]; mrun;
    [|now intros [= <- <-]|discriminate].
  destruct (Py.delitem (cache v) m); mrun; [|discriminate].
  now intros [= <- <-].
Qed.

Lemma fold_loop_diffs {A} (l : list A) (body : A -> scan_vars -> M scan_vars)
    v w v' w' :
  (forall x v w v' w', body x v w = (Ok v', w') -> diffs v' = diffs v) ->
  fold_loop l body v w = (Ok v', w') -> diffs v' = diffs v.
Proof.
  intros Hb. revert v w. induction l as [|x l IH]; intros v w.
  - now intros [= <- <-].
  - cbn [fold_loop]. intros H.
    apply bind_ok_inv in H as (v1 & w1 & H1 & H2).
    apply Hb in H1. apply IH in H2. congruence.
Qed.

Lemma handle_all_added_diffs cfg e dir s v w v' w' :
  handle_all_added cfg e dir s v w = (Ok v', w') -> diffs v' = diffs v.
Proof.
  intros H. unfold handle_all_added in H.
  apply bind_ok_inv in H as (l & w1 & H1 & H).
  apply lift_ok_inv in H1 as [_ ->].
  eapply fold_loop_diffs; [|exact H].
  intros [m| |] v0 w0 v0' w0'; [|discriminate|discriminate].
  apply handle_added_diffs.
Qed.

Lemma handle_all_removed_diffs e s v w v' w' :
  handle_all_removed e s v w = (Ok v', w') -> diffs v' = diffs v.
Proof.
  intros H. unfold handle_all_removed in H.
  apply bind_ok_inv in H as (l & w1 & H1 & H).
  apply lift_ok_inv in H1 as [_ ->].
  eapply fold_loop_diffs; [|exact H].
  intros [m| |] v0 w0 v0' w0'; [|discriminate|discriminate].
  apply handle_removed_diffs.
Qed.

Section Record.
Context (name : string) (fetched : pyval) (added : option pyval).

Local Abbreviation held v := (holds_record name fetched added (cache v)).

Lemma resolve_holds cfg e m v w md v' w' :
  held v ->
  resolve_metadata cfg e m v w = (Ok (md, v'), w') ->
  held v' /\ diffs v' = diffs v
  /\ (m = name -> exists d, cache v' = PDict d /\ d !! name = Some md).
Proof.
  intros (d & r & Hc & Hn & Hf & Ha) H.
  destruct (decide (m = name)) as [->|Hne].
  - rewrite (resolve_cached cfg e name v w d r fetched Hc Hn Hf) in H.
    injection H as <- <- <-. split; [|split; [reflexivity|]].
    + exists d, r. auto.
    + intros _. eauto.
  - split; [|split; [|congruence]]; revert H; unfold resolve_metadata;
      destruct (Parse.parse_folder_name m) as [title year];
      rewrite Hc; cbn [Py.get]; mrun;
      (destruct (is_cached (default PNone (d !! m))) as [[]|]; mrun;
       [intros [= <- <- <-]; try reflexivity; exists d, r; auto
       | |discriminate]);
      (destruct (fetch_media_metadata_from_omdb e title year
                   (omdb_api_key cfg) w) as [[[rec|]|] w1]; mrun;
       [cbn [Py.setitem]; mrun; intros [= <- <- <-]
       |intros [= <- <- <-]|discriminate]);
      try reflexivity; try (exists d, r; now auto).
    cbn [set_cache cache]. eexists _, r. split; [reflexivity|].
    rewrite lookup_insert_ne by congruence. auto.
Qed.

Lemma attach_holds e dir m md v w lp md' v' w' :
  held v ->
  (m = name -> exists d, cache v = PDict d /\ d !! name = Some md) ->
  attach_poster e dir m md v w = (Ok (lp, md', v'), w') ->
  held v' /\ diffs v' = diffs v.
Proof.
  intros (d & r & Hc & Hn & Hf & Ha) Hmd. unfold attach_poster. mrun.
  destruct (has_poster_url md) as [[]|]; mrun;
    [|intros [= <- <- <-]; split; [exists d, r; auto|reflexivity]
     |discriminate].
  destruct (Py.get md "poster_url") as [url|]; mrun; [|discriminate].
  destruct (download_poster e url dir m w) as [[[path|]|] w1]; mrun;
    [|intros [= <- <- <-]; split; [exists d, r; auto|reflexivity]
     |discriminate].
  destruct (Py.setitem md "local_poster_path" (PStr path)) as [md1|] eqn:E1;
    mrun; [|discriminate].
  rewrite Hc. cbn [Py.setitem]. mrun. intros [= <- <- <- <-].
  split; [|reflexivity]. cbn [set_cache cache].
  destruct (decide (m = name)) as [->|Hne].
  - destruct (Hmd eq_refl) as (d' & Hd' & Hn').
    assert (d' = d) as -> by congruence.
    assert (md = PDict r) as -> by congruence.
    cbn [Py.setitem] in E1. injection E1 as <-.
    eexists _, _. split; [reflexivity|]. rewrite lookup_insert_eq.
    split; [reflexivity|]. now rewrite !lookup_insert_ne by discriminate.
  - eexists _, r. split; [reflexivity|].
    rewrite lookup_insert_ne by congruence. auto.
Qed.

Lemma queue_holds dir m lp md v w v' w' :
  queue_message dir m lp md v w = (Ok v', w') ->
  cache v' = cache v /\ diffs v' = diffs v.
Proof.
  unfold queue_message. mrun.
  destruct lp as [path|]; [|now intros [= <- <-]].
  destruct (Notifier.poster_exists dir path w); [|now intros [= <- <-]].
  mrun. destruct (build_caption md); mrun; [|discriminate].
  now intros [= <- <-].
Qed.

Lemma handle_added_holds cfg e dir m v w v' w' :
  held v ->
  handle_added cfg e dir m v w = (Ok v', w') ->
  held v' /\ diffs v' = diffs v.
Proof.
  intros Hv H. unfold handle_added in H.
  apply bind_ok_inv in H as ([md v1] & w1 & H1 & H).
  apply bind_ok_inv in H as ([[lp md'] v2] & w2 & H2 & H3).
  destruct (resolve_holds _ _ _ _ _ _ _ _ Hv H1) as (Hv1 & D1 & Hmd).
  destruct (attach_holds _ _ _ _ _ _ _ _ _ _ Hv1 Hmd H2) as (Hv2 & D2).
  destruct (queue_holds _ _ _ _ _ _ _ _ H3) as (C3 & D3).
  rewrite C3. split; [exact Hv2|congruence].
Qed.

Lemma handle_removed_holds e m v w v' w' :
  m <> name ->
  held v ->
  handle_removed e m v w = (Ok v', w') ->
  held v' /\ diffs v' = diffs v.
Proof.
  intros Hne (d & r & Hc & Hn & Hf & Ha) H.
  destruct (handle_removed_spec e m v w d Hc)
    as (v1 & w1 & H1 & C1 & D1 & _).
  rewrite H1 in H. injection H as <- <-. split; [|exact D1].
  exists (delete m d), r. split; [exact C1|].
  rewrite lookup_delete_ne by congruence. auto.
Qed.

Lemma fold_loop_holds {A} (l : list A) (body : A -> scan_vars -> M scan_vars)
    (ok : A -> Prop) v w v' w' :
  (forall x v w v' w', ok x -> held v -> body x v w = (Ok v', w') ->
                       held v' /\ diffs v' = diffs v) ->
  Forall ok l ->
  held v ->
  fold_loop l body v w = (Ok v', w') ->
  held v' /\ diffs v' = diffs v.
Proof.
  intros Hb Hl. revert v w. induction Hl as [|x l Hx _ IH]; intros v w Hv.
  - now intros [= <- <-].
  - cbn [fold_loop]. intros H.
    apply bind_ok_inv in H as (v1 & w1 & H1 & H2).
    destruct (Hb _ _ _ _ _ Hx Hv H1) as (Hv1 & D1).
    destruct (IH _ _ Hv1 H2) as (Hv' & D'). split; [exact Hv'|congruence].
Qed.

Lemma handle_all_added_holds cfg e dir s v w v' w' :
  held v ->
  handle_all_added cfg e dir s v w = (Ok v', w') ->
  held v' /\ diffs v' = diffs v.
Proof.
  intros Hv H. unfold handle_all_added in H.
  apply bind_ok_inv in H as (l & w1 & H1 & H).
  apply lift_ok_inv in H1 as [_ ->].
  eapply (fold_loop_holds l _ (fun _ => True)); [|now apply Forall_forall|exact Hv|exact H].
  intros [m| |] v0 w0 v0' w0' _ Hv0; [|discriminate|discriminate].
  now apply handle_added_holds.
Qed.

Lemma handle_all_removed_holds e s v w v' w' :
  AStr name ∉ s ->
  held v ->
  handle_all_removed e s v w = (Ok v', w') ->
  held v' /\ diffs v' = diffs v.
Proof.
  intros Hs Hv H. unfold handle_all_removed in H.
  apply bind_ok_inv in H as (l & w1 & H1 & H).
  apply lift_ok_inv in H1 as [Hl ->].
  eapply (fold_loop_holds l _ (fun a => a <> AStr name)); [| |exact Hv|exact H].
  - intros [m| |] v0 w0 v0' w0' Hm Hv0; [|discriminate|discriminate].
    apply handle_removed_holds; [congruence|exact Hv0].
  - apply Forall_forall. intros a Ha ->. apply Hs.
    apply sorted_elements in Hl. rewrite Hl in Ha.
    now apply elem_of_elements in Ha.
Qed.

(** One root adds its pair to the report, and keeps the record unless
    its folder is among the removed ones. *)
Lemma handle_root_holds cfg e dir old cur root v w v' w' :
  handle_root cfg e dir old cur root v w = (Ok v', w') ->
  exists a r,
    diff_for_path old cur root = Ok (a, r)
    /\ diffs v' = (root, (a, r)) :: diffs v
    /\ (AStr name ∉ r -> held v -> held v').
Proof.
  unfold handle_root. intros H.
  apply bind_ok_inv in H as ([a r] & w1 & H1 & H).
  apply lift_ok_inv in H1 as [Hd ->].
  exists a, r. split; [exact Hd|].
  apply bind_ok_inv in H as (v1 & w1 & H1 & H2).
  assert (Hstep1 : diffs v1 = (root, (a, r)) :: diffs v
                   /\ (held v -> held v1)).
  { destruct (bool_decide (a ≠ ∅)).
    - apply bind_ok_inv in H1 as (v0 & w0 & H0 & [= <- <-]).
      cbn [add_part cache diffs]. split.
      + now rewrite (handle_all_added_diffs _ _ _ _ _ _ _ _ H0).
      + intros Hv. eapply handle_all_added_holds; [|exact H0]. exact Hv.
    - injection H1 as <- <-. now split. }
  destruct Hstep1 as [D1 Hv1].
  destruct (bool_decide (r ≠ ∅)).
  - apply bind_ok_inv in H2 as (v0 & w0 & H0 & [= <- <-]).
    cbn [add_part cache diffs]. split.
    + now rewrite (handle_all_removed_diffs _ _ _ _ _ _ H0).
    + intros Hr Hv. eapply handle_all_removed_holds; [exact Hr| |exact H0].
      now apply Hv1.
  - injection H2 as <- <-. split; [exact D1|auto].
Qed.

(** The loop over the roots keeps the record of a folder that is not
    reported removed. *)
Lemma roots_loop_holds cfg e dir old cur roots v w v' w' :
  fold_loop roots (handle_root cfg e dir old cur) v w = (Ok v', w') ->
  (exists pre, diffs v' = pre ++ diffs v)
  /\ (not_removed name v' -> held v -> held v').
Proof.
  revert v w. induction roots as [|root roots IH]; intros v w.
  - intros [= <- <-]. split; [now exists []|auto].
  - cbn [fold_loop]. intros H.
    apply bind_ok_inv in H as (v1 & w1 & H1 & H2).
    destruct (handle_root_holds _ _ _ _ _ _ _ _ _ _ H1)
      as (a & r & _ & D1 & Hv1).
    destruct (IH _ _ H2) as [[pre Dpre] Hv'].
    split.
    + exists (pre ++ [(root, (a, r))]). rewrite Dpre, D1.
      now rewrite <- app_assoc.
    + intros Hnr Hv. apply Hv'; [exact Hnr|]. apply Hv1; [|exact Hv].
      unfold not_removed in Hnr. rewrite Forall_forall in Hnr.
      apply (Hnr (root, (a, r))). rewrite Dpre, D1.
      apply elem_of_app. right. apply list_elem_of_here.
Qed.

End Record.
End StampFacts.

Module ReportFacts.
Import World MonadFacts Main StampFacts.

(** The report holds, root by root, what [diff_for_path] gives. *)
Lemma roots_loop_diffs cfg e dir old cur roots v w v' w' :
  fold_loop roots (handle_root cfg e dir old cur) v w = (Ok v', w') ->
  exists entries,
    diffs v' = rev entries ++ diffs v
    /\ Forall2 (fun root x => x.1 = root /\ diff_for_path old cur root = Ok x.2)
               roots entries.
Proof.
  revert v w. induction roots as [|root roots IH]; intros v w.
  - intros [= <- <-]. exists []. split; [reflexivity|constructor].
  - cbn [fold_loop]. intros H.
    apply bind_ok_inv in H as (v1 & w1 & H1 & H2).
    destruct (handle_root_holds "" PNone None _ _ _ _ _ _ _ _ _ _ H1)
      as (a & r & Hd & D1 & _).
    destruct (IH _ _ H2) as (entries & D & HF).
    exists ((root, (a, r)) :: entries). split.
    + rewrite D, D1. cbn [rev]. now rewrite <- app_assoc.
    + constructor; [now split|exact HF].
Qed.

End ReportFacts.

Module FetchFacts.
Import World MonadFacts Main Scraper EnrichFacts.

(** What [resolve_metadata] returns: nothing, or the cached value with
    no lookup made, or a record just fetched, stamped and stored. *)
Lemma resolve_cases cfg e n v w md v' w' :
  resolve_metadata cfg e n v w = (Ok (md, v'), w') ->
  (md = PNone /\ v' = v)
  \/ (v' = v /\ w' = w /\ is_cached md = Ok true)
  \/ (lookups w' = S (lookups w)
      /\ exists record d,
           md = PDict (<["added_timestamp" := PStr (clock e (pred (tick w')))]>
                         record)
           /\ cache v' = PDict d /\ d !! n = Some md).
Proof.
  unfold resolve_metadata. destruct (Parse.parse_folder_name n) as [title year].
  mrun. destruct (Py.get (cache v) n) as [md0|]; mrun; [|discriminate].
  destruct (is_cached md0) as [[]|] eqn:Hc; mrun;
    [intros [= <- <- <-]; auto| |discriminate].
  unfold fetch_media_metadata_from_omdb.
  destruct (String.eqb (omdb_api_key cfg) ""); mrun;
    [intros [= <- <- <-]; auto|].
  destruct (omdb e (tick w) title year) as [|[| | | | |data]]; mrun;
    try (intros [= <- <- <-]; auto).
  match goal with |- context [Py.eq_str ?a ?b] => destruct (Py.eq_str a b) end;
    mrun; [|intros [= <- <- <-]; auto].
  destruct (cache v) as [| | | | |d]; cbn [Py.setitem]; mrun; try discriminate.
  intros [= <- <- <-]. right. right. split; [reflexivity|].
  eexists _, _. cbn [tick pred set_cache cache]. split; [reflexivity|].
  split; [reflexivity|]. apply lookup_insert_eq.
Qed.

End FetchFacts.

(** ** Statements on the title and the year *)

(** C4 (as amended). On every folder name without a line feed,
    parse_folder_name applies the three rules of the extraction policy in
    order, the first that matches winning: a trailing (4-digit year) gives
    the trimmed prefix and the four digits; otherwise a trailing 4-digit
    year, after one separator among . - _ or after none, gives the prefix
    with . and - replaced by spaces, trimmed, and the four digits; otherwise
    the trimmed name and no year.  In particular the three names of the
    specification parse as it says. *)
Theorem title_year_extraction :
  forall folder_name,
    Str.no_newline (Str.chars folder_name) ->
    Parse.parse_folder_name folder_name = Parse.spec_parse folder_name
    /\ Parse.parse_folder_name "Inception (2010)" = ("Inception", Some "2010")
    /\ Parse.parse_folder_name "The.Matrix.1999" = ("The Matrix", Some "1999")
    /\ Parse.parse_folder_name "Random Folder" = ("Random Folder", None).
Proof.
  intros folder_name Hn. split; [|now repeat split].
  unfold Parse.parse_folder_name, Parse.spec_parse.
  now rewrite ParseFacts.parse_chars_spec.
Qed.

Lemma title_year_extraction_witness :
  Str.no_newline (Str.chars "The.Matrix_1999")
  /\ Parse.parse_folder_name "The.Matrix_1999" = ("The Matrix", Some "1999").
Proof.
  assert (H : Str.no_newline (Str.chars "The.Matrix_1999"))
    by (repeat constructor).
  split; [exact H|].
  exact (eq_trans (proj1 (title_year_extraction "The.Matrix_1999" H)) eq_refl).
Defined.

(** With a line feed inside the title the first pattern does not match: the
    name keeps its year, where the policy as written extracts it. *)
Lemma line_feed_counterexample :
  Parse.parse_folder_name Example.two_lines = (Example.two_lines, None)
  /\ Parse.spec_parse Example.two_lines
     = ("Heat" +:+ String "010" "Uncut", Some "1995")
  /\ Parse.parse_folder_name Example.two_lines
     <> Parse.spec_parse Example.two_lines.
Proof. split; [reflexivity|split; [reflexivity|discriminate]]. Qed.

(** ** Statements on the diff *)

(** C1. For every previous snapshot P, current snapshot C and root, the
    diff of the root is the pair of set differences C[root] - P[root] and
    P[root] - C[root], where a root missing from a snapshot stands for the
    empty set; so a name is added exactly when it is in C[root] and not in
    P[root], removed exactly when it is in P[root] and not in C[root], and
    the diff of a snapshot against itself is empty for every root.  A scan
    that reaches its end reports, root by root, this diff of the state it
    loaded against the live listing. *)
Theorem diff_is_set_difference :
  (forall (P C : gmap string (gset atom)) (root : string),
      let p := default ∅ (P !! root) in
      let c := default ∅ (C !! root) in
      Main.diff_for_path (snapshot_state P) C root = Ok (c ∖ p, p ∖ c)
      /\ (forall x, x ∈ c ∖ p <-> x ∈ c /\ x ∉ p)
      /\ (forall x, x ∈ p ∖ c <-> x ∈ p /\ x ∉ c)
      /\ Main.diff_for_path (snapshot_state P) P root = Ok (∅, ∅))
  /\ (forall cfg e w v w',
        Main.periodic_folder_scan cfg e w = (Ok v, w') ->
        exists old,
          Main.read_folder_state (files w) (Main.folder_list_path cfg) = Ok old
          /\ Forall2
               (fun root x =>
                  x.1 = root
                  /\ Main.diff_for_path old
                       (Main.scan_current_state e (monitored_folders cfg)) root
                     = Ok x.2)
               (monitored_folders cfg) (rev (diffs v))).
Proof.
  split.
  - intros P C root p c. unfold Main.diff_for_path, snapshot_state.
    rewrite lookup_fmap. subst p c.
    assert (Hself : forall s : gset atom, s ∖ s = ∅) by apply difference_diag_L.
    destruct (P !! root) as [s|]; simpl; rewrite Hself;
      (split; [reflexivity|split; [|split; [|reflexivity]]]);
      intros x; apply elem_of_difference.
  - intros cfg e w v w' H.
    apply ScanFacts.scan_inv in H as (c & old & w1 & w2 & w3 & Hl & Hr & _).
    destruct (ScanFacts.load_state_spec cfg e w) as (c' & old' & _ & Hold & Hl').
    rewrite Hl' in Hl. injection Hl as <- <- <-.
    exists old'. split; [exact Hold|].
    apply ReportFacts.roots_loop_diffs in Hr as (entries & D & HF).
    cbn [Main.initial_vars diffs] in D. rewrite D, app_nil_r, rev_involutive.
    exact HF.
Qed.

Lemma diff_is_set_difference_witness :
  Main.periodic_folder_scan Example.cfg Example.e Example.fresh
  = (Ok (Example.scanned Example.fresh).1, (Example.scanned Example.fresh).2)
  /\ exists old,
       Main.read_folder_state (files Example.fresh)
         (Main.folder_list_path Example.cfg) = Ok old
       /\ Forall2
            (fun root x =>
               x.1 = root
               /\ Main.diff_for_path old
                    (Main.scan_current_state Example.e
                       (monitored_folders Example.cfg)) root
                  = Ok x.2)
            (monitored_folders Example.cfg)
            (rev (diffs (Example.scanned Example.fresh).1)).
Proof.
  assert (H : Main.periodic_folder_scan Example.cfg Example.e Example.fresh
              = (Ok (Example.scanned Example.fresh).1,
                 (Example.scanned Example.fresh).2))
    by (vm_compute; reflexivity).
  split; [exact H|].
  exact (proj2 diff_is_set_difference _ _ _ _ _ H).
Defined.

(** ** Statements on two scans in a row *)

Lemma second_scan_is_quiet_witness :
  (Main.RESERVED ∉ monitored_folders Example.cfg)
  /\ Main.folder_list_path Example.cfg <> Main.media_metadata_file Example.cfg
  /\ Main.periodic_folder_scan Example.cfg Example.e Example.fresh
     = (Ok (Example.scanned Example.fresh).1, (Example.scanned Example.fresh).2)
  /\ exists v2 w2 stamp1 stamp2 roots_data,
      Main.periodic_folder_scan Example.cfg Example.e
        (Example.scanned Example.fresh).2 = (Ok v2, w2)
      /\ diffs v2
         = rev ((fun root => (root, (∅, ∅))) <$> monitored_folders Example.cfg)
      /\ overall_added_count v2 = 0
      /\ overall_removed_count v2 = 0
      /\ has_changes v2 = false
      /\ roots_data !! Main.RESERVED = None
      /\ (files (Example.scanned Example.fresh).2)
           !! Main.folder_list_path Example.cfg
         = Some (Document (Py.json_dump
                   (PDict (<[Main.RESERVED := PStr stamp1]> roots_data))))
      /\ files w2 !! Main.folder_list_path Example.cfg
         = Some (Document (Py.json_dump
                   (PDict (<[Main.RESERVED := PStr stamp2]> roots_data)))).
Proof.
  assert (H1 : Main.RESERVED ∉ monitored_folders Example.cfg)
    by (refine (bool_decide_unpack _ _); vm_compute; exact I).
  assert (H2 : Main.folder_list_path Example.cfg
               <> Main.media_metadata_file Example.cfg)
    by (vm_compute; discriminate).
  assert (H3 : Main.periodic_folder_scan Example.cfg Example.e Example.fresh
               = (Ok (Example.scanned Example.fresh).1,
                  (Example.scanned Example.fresh).2))
    by (vm_compute; reflexivity).
  split; [exact H1|split; [exact H2|split; [exact H3|]]].
  exact (second_scan_is_quiet Example.cfg Example.e Example.e Example.fresh
           _ _ H1 H2 eq_refl H3).
Defined.

(** The snapshot file after the second run is not the file after the
    first: the time stamp in it is the second run's. *)
Lemma snapshot_file_changes_counterexample :
  let w1 := (Example.scanned Example.fresh).2 in
  let w2 := (Example.scanned w1).2 in
  Main.periodic_folder_scan Example.cfg Example.e Example.fresh
  = (Ok (Example.scanned Example.fresh).1, w1)
  /\ Main.periodic_folder_scan Example.cfg Example.e w1
     = (Ok (Example.scanned w1).1, w2)
  /\ files w1 !! Main.folder_list_path Example.cfg
     = Some (Document
               (JObj [("/media/movies", JArr [JStr "Inception (2010)"]);
                      ("last_updated", JStr "2024-05-01T10:00:06")]))
  /\ files w2 !! Main.folder_list_path Example.cfg
     = Some (Document
               (JObj [("/media/movies", JArr [JStr "Inception (2010)"]);
                      ("last_updated", JStr "2024-05-01T10:00:07")]))
  /\ files w2 !! Main.folder_list_path Example.cfg
     <> files w1 !! Main.folder_list_path Example.cfg.
Proof.
  cbv zeta.
  split; [vm_compute; reflexivity|].
  split; [vm_compute; reflexivity|].
  split; [vm_compute; reflexivity|].
  split; [vm_compute; reflexivity|].
  vm_compute. discriminate.
Qed.

(** ** Statements on the stores *)

Lemma save_load_roundtrip_witness :
  let S : gmap string (gset string) := {[ Example.movies := {[ "Heat" ]} ]} in
  (Main.RESERVED ∉ dom S)
  /\ exists st w' members,
       Main.write_folder_state Example.e "state.json" (folder_snapshot S)
         Example.fresh = (Ok st, w')
       /\ files w' !! "state.json" = Some (Document (JObj members))
       /\ forall j', reordered (JObj members) j' ->
            exists loaded,
              Main.read_folder_state
                (<["state.json" := Document j']> (files w')) "state.json"
              = Ok loaded
              /\ snapshot_of loaded = names <$> S.
Proof.
  intros S.
  assert (H : Main.RESERVED ∉ dom S)
    by (refine (bool_decide_unpack _ _); vm_compute; exact I).
  split; [exact H|].
  exact (proj1 (save_load_roundtrip Example.e "state.json" Example.fresh) S H).
Defined.

Lemma persistence_does_not_depend_on_notification_witness :
  Main.periodic_folder_scan Example.cfg Example.e Example.fresh
  = (Ok (Example.scanned Example.fresh).1, (Example.scanned Example.fresh).2)
  /\ forall tg, exists w'',
       Main.periodic_folder_scan Example.cfg (with_telegram Example.e tg)
         Example.fresh = (Ok (Example.scanned Example.fresh).1, w'')
       /\ files w'' = files (Example.scanned Example.fresh).2.
Proof.
  assert (H : Main.periodic_folder_scan Example.cfg Example.e Example.fresh
              = (Ok (Example.scanned Example.fresh).1,
                 (Example.scanned Example.fresh).2))
    by (vm_compute; reflexivity).
  split; [exact H|].
  exact (proj2 (persistence_does_not_depend_on_notification _ _ _ _ _ H)).
Defined.

(** C10. write_folder_state updates the dictionary it is given: whatever
    that dictionary, after the call it is the same dictionary with the
    current time under the reserved key last_updated, the other entries as
    they were.  The key is put in before the dictionary is serialized: for a
    snapshot the file written holds it.  The caller is the scan, whose
    current state, the object bot_data holds too, ends with that entry. *)
Theorem write_folder_state_updates_its_argument :
  (forall e p (d : gmap string fsval) w,
      exists w',
        Main.write_folder_state e p d w
        = (Ok (<[Main.RESERVED := FRaw (PStr (clock e (tick w)))]> d), w'))
  /\ (forall e p (S : gmap string (gset string)) w,
        exists data w',
          Main.write_folder_state e p (folder_snapshot S) w
          = (Ok (<[Main.RESERVED := FRaw (PStr (clock e (tick w)))]>
                   (folder_snapshot S)), w')
          /\ files w' !! p = Some (Document (Py.json_dump (PDict data)))
          /\ data !! Main.RESERVED = Some (PStr (clock e (tick w))))
  /\ (forall cfg e w v w',
        Main.periodic_folder_scan cfg e w = (Ok v, w') ->
        exists stamp,
          bot_folder_state w'
          = <[Main.RESERVED := FRaw (PStr stamp)]>
              (snapshot_state
                 (Main.scan_current_state e (monitored_folders cfg)))).
Proof.
  split; [|split].
  - intros e p d w. unfold Main.write_folder_state.
    rewrite MonadFacts.bind_unfold. simpl.
    destruct (Main.convert_entries _ _); eexists; reflexivity.
  - intros e p S w.
    destruct (RoundTrip.folder_snapshot_dumps (clock e (tick w)) S) as [data Hd].
    exists data. eexists. split; [|split].
    + apply (StoreFacts.write_folder_state_ok _ _ _ _ _ Hd).
    + cbn [files]. apply lookup_insert_eq.
    + apply StoreFacts.convert_entries_inv in Hd.
      specialize (Hd Main.RESERVED). unfold stamped in Hd.
      rewrite lookup_insert_eq in Hd. destruct Hd as (y & Hy & [= <-]).
      exact Hy.
  - intros cfg e w v w' H.
    apply ScanFacts.scan_inv in H as (c & old & w1 & w2 & w3 & _ & _ & _ & Hp).
    destruct (ScanFacts.persist_spec cfg e (monitored_folders cfg) v w3)
      as (data & _ & Hp').
    rewrite Hp' in Hp. injection Hp as <-.
    exists (clock e (tick w3)). reflexivity.
Qed.

Lemma write_folder_state_updates_its_argument_witness :
  Main.periodic_folder_scan Example.cfg Example.e Example.fresh
  = (Ok (Example.scanned Example.fresh).1, (Example.scanned Example.fresh).2)
  /\ exists stamp,
       bot_folder_state (Example.scanned Example.fresh).2
       = <[Main.RESERVED := FRaw (PStr stamp)]>
           (snapshot_state
              (Main.scan_current_state Example.e
                 (monitored_folders Example.cfg))).
Proof.
  assert (H : Main.periodic_folder_scan Example.cfg Example.e Example.fresh
              = (Ok (Example.scanned Example.fresh).1,
                 (Example.scanned Example.fresh).2))
    by (vm_compute; reflexivity).
  split; [exact H|].
  exact (proj2 (proj2 write_folder_state_updates_its_argument) _ _ _ _ _ H).
Defined.

(** ** Statements on removed and added folders *)

Lemma removed_folders_are_evicted_witness :
  let v := Main.initial_vars (PDict Example.shelf_cache) in
  cache v = PDict Example.shelf_cache
  /\ exists v' w' c',
       Main.handle_all_removed Example.e (names {[ "Alien" ]}) v Example.shelf
       = (Ok v', w')
       /\ cache v' = PDict c'
       /\ (forall n, n ∈ ({[ "Alien" ]} : gset string) -> c' !! n = None)
       /\ (forall n f, n ∈ ({[ "Alien" ]} : gset string) ->
             f ∈ poster_files Example.shelf ->
             Str.startswith f (Scraper.sanitize n) = true ->
             removable Example.e f = true -> f ∉ poster_files w')
       /\ (forall m, m ∉ ({[ "Alien" ]} : gset string) ->
             c' !! m = Example.shelf_cache !! m)
       /\ (forall f, f ∈ poster_files w' <->
             f ∈ poster_files Example.shelf
             /\ forall n, n ∈ ({[ "Alien" ]} : gset string) ->
                          ~ evicts Example.e n f).
Proof.
  intros v. split; [reflexivity|].
  exact (removed_folders_are_evicted Example.e {[ "Alien" ]} v Example.shelf
           Example.shelf_cache eq_refl).
Defined.

Lemma cached_record_is_reused_witness :
  let r : gmap string pyval := {[ "last_fetched" := PStr "2024-05-01T10:00:01" ]} in
  let c : gmap string pyval := {[ "Heat" := PDict r ]} in
  let v := Main.initial_vars (PDict c) in
  cache v = PDict c
  /\ c !! "Heat" = Some (PDict r)
  /\ r !! "last_fetched" = Some (PStr "2024-05-01T10:00:01")
  /\ Main.resolve_metadata Example.cfg Example.e "Heat" v Example.fresh
     = (Ok (PDict r, v), Example.fresh)
  /\ forall o w',
       Main.handle_added Example.cfg Example.e "/app/posters" "Heat" v
         Example.fresh = (o, w') ->
       lookups w' = lookups Example.fresh.
Proof.
  intros r c v.
  assert (H1 : cache v = PDict c) by reflexivity.
  assert (H2 : c !! "Heat" = Some (PDict r)) by (vm_compute; reflexivity).
  assert (H3 : r !! "last_fetched" = Some (PStr "2024-05-01T10:00:01"))
    by (vm_compute; reflexivity).
  split; [exact H1|split; [exact H2|split; [exact H3|]]].
  exact (proj1 (cached_record_is_reused Example.cfg Example.e "/app/posters"
                  "Heat" v Example.fresh) c r _ H1 H2 H3).
Defined.

(** C6 (as amended). A record of the cache that has a fetch time stamp is
    not fetched again: every scan that runs to its end without reporting the
    folder removed leaves the record in the cache, in memory and in the file
    it persists, with its fetch time stamp and with the added_timestamp it
    had.  The time stamp is written with a fetch: what the scan takes for an
    added folder is nothing, or the cached value with no lookup made, or a
    record just fetched, stamped with the time of that moment and stored. *)
Theorem fetched_record_keeps_added_timestamp :
  (forall cfg e w v w' folder_name d r fetched,
      Scraper.read_media_metadata (files w) (Main.media_metadata_file cfg)
      = Ok (PDict d) ->
      d !! folder_name = Some (PDict r) ->
      r !! "last_fetched" = Some fetched ->
      Main.periodic_folder_scan cfg e w = (Ok v, w') ->
      not_removed folder_name v ->
      holds_record folder_name fetched (r !! "added_timestamp") (cache v)
      /\ added_timestamp_of (cache v) folder_name = r !! "added_timestamp"
      /\ files w' !! Main.media_metadata_file cfg
         = Some (Document (Py.json_dump (cache v))))
  /\ (forall cfg e folder_name v w md v' w',
        Main.resolve_metadata cfg e folder_name v w = (Ok (md, v'), w') ->
        (md = PNone /\ v' = v)
        \/ (v' = v /\ w' = w /\ Main.is_cached md = Ok true)
        \/ (lookups w' = S (lookups w)
            /\ exists record d,
                 md = PDict (<["added_timestamp" :=
                                 PStr (clock e (pred (tick w')))]> record)
                 /\ cache v' = PDict d /\ d !! folder_name = Some md)).
Proof.
  split; [|apply FetchFacts.resolve_cases].
  intros cfg e w v w' name d r fetched Hread Hd Hr H Hnr.
  apply ScanFacts.scan_inv in H as (c & old & w1 & w2 & w3 & Hl & Hrec & _ & Hp).
  destruct (ScanFacts.load_state_spec cfg e w) as (c' & old' & Hc' & _ & Hl').
  rewrite Hl' in Hl. injection Hl as <- <- <-.
  assert (c' = PDict d) as -> by congruence.
  apply (StampFacts.roots_loop_holds name fetched (r !! "added_timestamp"))
    in Hrec as [_ Hheld].
  assert (Hv : holds_record name fetched (r !! "added_timestamp") (cache v)).
  { apply Hheld; [exact Hnr|]. exists d, r. cbn [Main.initial_vars cache]. auto. }
  split; [exact Hv|split].
  - destruct Hv as (d' & r' & -> & Hd' & _ & Ha). cbn [added_timestamp_of].
    now rewrite Hd'.
  - destruct (ScanFacts.persist_spec cfg e (monitored_folders cfg) v w3)
      as (data & _ & Hp').
    rewrite Hp' in Hp. injection Hp as <-. cbn [files]. apply lookup_insert_eq.
Qed.

Lemma fetched_record_keeps_added_timestamp_witness :
  let w1 := (Example.scanned Example.fresh).2 in
  let name := "Inception (2010)" in
  let d := match (Example.scanned Example.fresh).1.(cache) with
           | PDict d => d | _ => ∅ end in
  let r := match d !! name with Some (PDict r) => r | _ => ∅ end in
  Scraper.read_media_metadata (files w1) (Main.media_metadata_file Example.cfg)
  = Ok (PDict d)
  /\ d !! name = Some (PDict r)
  /\ r !! "last_fetched" = Some (PStr "2024-05-01T10:00:01")
  /\ Main.periodic_folder_scan Example.cfg Example.e w1
     = (Ok (Example.scanned w1).1, (Example.scanned w1).2)
  /\ not_removed name (Example.scanned w1).1
  /\ added_timestamp_of (cache (Example.scanned w1).1) name
     = Some (PStr "2024-05-01T10:00:02").
Proof.
  intros w1 name d r.
  assert (H1 : Scraper.read_media_metadata (files w1)
                 (Main.media_metadata_file Example.cfg) = Ok (PDict d))
    by (vm_compute; reflexivity).
  assert (H2 : d !! name = Some (PDict r)) by (vm_compute; reflexivity).
  assert (H3 : r !! "last_fetched" = Some (PStr "2024-05-01T10:00:01"))
    by (vm_compute; reflexivity).
  assert (H4 : Main.periodic_folder_scan Example.cfg Example.e w1
               = (Ok (Example.scanned w1).1, (Example.scanned w1).2))
    by (vm_compute; reflexivity).
  assert (H5 : not_removed name (Example.scanned w1).1)
    by (refine (bool_decide_unpack _ _); vm_compute; exact I).
  split; [exact H1|split; [exact H2|split; [exact H3|split; [exact H4|]]]].
  split; [exact H5|].
  refine (eq_trans
            (proj1 (proj2 (proj1 fetched_record_keeps_added_timestamp
                             _ _ _ _ _ _ _ _ _ H1 H2 H3 H4 H5))) _).
  vm_compute. reflexivity.
Defined.

(** The record of an added folder that has an added_timestamp but no fetch
    time stamp is fetched again, and the record stored in its place is
    stamped with the time of the scan. *)
Lemma added_timestamp_counterexample :
  let name := "Inception (2010)" in
  let file := Main.media_metadata_file Example.cfg in
  let v := (Example.scanned Example.legacy).1 in
  let w' := (Example.scanned Example.legacy).2 in
  (exists c0,
      Scraper.read_media_metadata (files Example.legacy) file = Ok c0
      /\ added_timestamp_of c0 name = Some (PStr "2020-01-01T00:00:00"))
  /\ Main.periodic_folder_scan Example.cfg Example.e Example.legacy = (Ok v, w')
  /\ not_removed name v
  /\ added_timestamp_of (cache v) name = Some (PStr "2024-05-01T10:00:02")
  /\ Scraper.read_media_metadata (files w') file = Ok (cache v).
Proof.
  intros name file v w'. split; [|split; [|split; [|split]]].
  - eexists. split; vm_compute; reflexivity.
  - vm_compute. reflexivity.
  - refine (bool_decide_unpack _ _). vm_compute. exact I.
  - vm_compute. reflexivity.
  - vm_compute. reflexivity.
Qed.

(* ===================================================================== *)
(** * Further properties of the code *)
(* ===================================================================== *)

(** ** Strings *)

Module StrFacts.

Lemma chars_str l : Str.chars (Str.str l) = l.
Proof. apply list_ascii_of_string_of_list_ascii. Qed.

Lemma str_chars s : Str.str (Str.chars s) = s.
Proof. apply string_of_list_ascii_of_string. Qed.

Lemma append_cons c a b : String c a +:+ b = String c (a +:+ b).
Proof. reflexivity. Qed.

Lemma append_assoc a b c : (a +:+ b) +:+ c = a +:+ (b +:+ c).
Proof.
  induction a as [|x a IH]; [reflexivity|].
  rewrite !append_cons. now rewrite IH.
Qed.

Lemma append_nil_r a : a +:+ "" = a.
Proof.
  induction a as [|x a IH]; [reflexivity|]. rewrite append_cons. now rewrite IH.
Qed.

Lemma length_append a b :
  String.length (a +:+ b) = String.length a + String.length b.
Proof.
  induction a as [|x a IH]; [reflexivity|].
  rewrite append_cons. cbn [String.length]. now rewrite IH.
Qed.

Lemma chars_app a b : Str.chars (a +:+ b) = Str.chars a ++ Str.chars b.
Proof.
  unfold Str.chars. induction a as [|c a IH]; [reflexivity|].
  rewrite append_cons. cbn [list_ascii_of_string app]. now rewrite IH.
Qed.

Lemma str_app a b : Str.str (a ++ b) = Str.str a +:+ Str.str b.
Proof.
  unfold Str.str. induction a as [|c a IH]; [reflexivity|].
  cbn [app string_of_list_ascii]. rewrite append_cons. now rewrite IH.
Qed.

Lemma length_str l : String.length (Str.str l) = List.length l.
Proof. unfold Str.str. induction l; cbn; congruence. Qed.

Lemma length_chars s : List.length (Str.chars s) = String.length s.
Proof. rewrite <- (str_chars s) at 2. now rewrite length_str. Qed.

Lemma prefix_app a b : String.prefix a (a +:+ b) = true.
Proof.
  induction a as [|c a IH]; [now destruct b|].
  rewrite append_cons. cbn [String.prefix].
  destruct (ascii_dec c c); [exact IH|congruence].
Qed.

End StrFacts.

(** ** Escaping for the chat API *)

Module MarkdownFacts.
Import Markdown StrFacts.
Local Open Scope char_scope.
#[local] Arguments reserved : simpl never.


Lemma replace_app o n a b : replace o n (a ++ b) = replace o n a ++ replace o n b.
Proof. unfold replace. apply flat_map_app. Qed.

Lemma escape_chars_app a b : escape_chars (a ++ b) = escape_chars a ++ escape_chars b.
Proof. unfold escape_chars. cbv zeta. now rewrite !replace_app. Qed.

Lemma escape_chars_one c : escape_chars [c] = esc c.
Proof.
  destruct c as [[] [] [] [] [] [] [] []]; vm_compute; reflexivity.
Qed.

Lemma escape_chars_cons c l : escape_chars (c :: l) = esc c ++ escape_chars l.
Proof. change (c :: l) with ([c] ++ l). now rewrite escape_chars_app, escape_chars_one. Qed.

Lemma escape_chars_flat l : escape_chars l = flat_map esc l.
Proof.
  induction l as [|c l IH]; [reflexivity|].
  rewrite escape_chars_cons, IH. reflexivity.
Qed.


Lemma escaped_flat l : escaped (flat_map esc l) = true.
Proof.
  induction l as [|c l IH]; [reflexivity|].
  cbn [flat_map]. unfold esc at 1.
  destruct (reserved c) eqn:Hc.
  - cbn. now rewrite Hc, IH.
  - cbn [app escaped].
    destruct (Ascii.eqb c "\") eqn:Hb.
    + apply Ascii.eqb_eq in Hb. subst c. discriminate Hc.
    + now rewrite Hc, IH.
Qed.

Lemma unescape_flat l : unescape (flat_map esc l) = l.
Proof.
  induction l as [|c l IH]; [reflexivity|].
  cbn [flat_map]. unfold esc at 1.
  destruct (reserved c) eqn:Hc.
  - cbn. now rewrite IH.
  - cbn [app unescape].
    destruct (Ascii.eqb c "\") eqn:Hb.
    + apply Ascii.eqb_eq in Hb. subst c. discriminate Hc.
    + now rewrite IH.
Qed.

Lemma length_flat l :
  List.length (flat_map esc l) = List.length l + List.length (List.filter reserved l).
Proof.
  induction l as [|c l IH]; [reflexivity|].
  cbn [flat_map List.filter]. rewrite length_app, IH. unfold esc.
  destruct (reserved c); cbn; lia.
Qed.

Lemma reserved_flat l :
  List.length (List.filter reserved (flat_map esc l))
  = 2 * List.length (List.filter reserved l).
Proof.
  induction l as [|c l IH]; [reflexivity|].
  cbn [flat_map]. rewrite List.filter_app, length_app, IH. unfold esc.
  destruct (reserved c) eqn:Hc; cbn [List.filter].
  - change (reserved "\") with true. rewrite Hc. cbn [List.length]. lia.
  - rewrite Hc. cbn [List.length]. lia.
Qed.

End MarkdownFacts.

(** X1. The nineteen replacements of escape_markdown_v2, made one after the
    other, amount to one pass over the text: every reserved character
    (the backslash and the eighteen marks of MarkdownV2) gets one backslash
    before it, and every other character is kept.  The backslash being
    replaced first, no backslash put in by a later replacement is escaped
    again. *)
Theorem escape_is_one_pass text :
  Markdown.escape_markdown_v2 text
  = Str.str (flat_map Markdown.esc (Str.chars text)).
Proof.
  unfold Markdown.escape_markdown_v2.
  now rewrite MarkdownFacts.escape_chars_flat.
Qed.

(** X2. An escaped text holds no markup: in the text escape_markdown_v2
    returns, every reserved character stands right after a backslash that
    escapes it, and every backslash escapes the reserved character that
    follows it. *)
Theorem escape_leaves_no_markup text :
  Markdown.escaped (Str.chars (Markdown.escape_markdown_v2 text)) = true.
Proof.
  unfold Markdown.escape_markdown_v2.
  rewrite StrFacts.chars_str, MarkdownFacts.escape_chars_flat.
  apply MarkdownFacts.escaped_flat.
Qed.

(** X3. Escaping loses nothing: two texts with the same escaped text are
    the same text. *)
Theorem escape_is_injective a b :
  Markdown.escape_markdown_v2 a = Markdown.escape_markdown_v2 b -> a = b.
Proof.
  unfold Markdown.escape_markdown_v2. intros H.
  apply (f_equal Str.chars) in H.
  rewrite !StrFacts.chars_str, !MarkdownFacts.escape_chars_flat in H.
  apply (f_equal Markdown.unescape) in H.
  rewrite !MarkdownFacts.unescape_flat in H.
  apply (f_equal Str.str) in H.
  now rewrite !StrFacts.str_chars in H.
Qed.

Lemma escape_is_injective_witness :
  Markdown.escape_markdown_v2 "T2 (1991)" = "T2 \(1991\)"
  /\ "T2 (1991)" = "T2 (1991)".
Proof.
  assert (H : Markdown.escape_markdown_v2 "T2 (1991)"
              = Markdown.escape_markdown_v2 "T2 (1991)") by reflexivity.
  split; [vm_compute; reflexivity|].
  exact (escape_is_injective "T2 (1991)" "T2 (1991)" H).
Defined.

(** X4. Escaping a text made of two pieces gives the escaped pieces, one
    after the other: to escape a joined text is to join the escaped
    texts. *)
Theorem escape_of_joined_text a b :
  Markdown.escape_markdown_v2 (a +:+ b)
  = Markdown.escape_markdown_v2 a +:+ Markdown.escape_markdown_v2 b.
Proof.
  unfold Markdown.escape_markdown_v2.
  now rewrite StrFacts.chars_app, MarkdownFacts.escape_chars_app,
    StrFacts.str_app.
Qed.

(** X5. Escaping adds one character for each reserved character of the
    text, and escaping the result again adds two more for each: a text
    without reserved characters is returned as it is, and for any other
    text escaping twice does not give what escaping once gives. *)
Theorem escape_twice_grows text :
  String.length (Markdown.escape_markdown_v2 text)
  = String.length text + Markdown.reserved_count text
  /\ String.length (Markdown.escape_markdown_v2 (Markdown.escape_markdown_v2 text))
     = String.length text + 3 * Markdown.reserved_count text
  /\ (Markdown.reserved_count text = 0 -> Markdown.escape_markdown_v2 text = text)
  /\ (Markdown.reserved_count text <> 0 ->
      Markdown.escape_markdown_v2 (Markdown.escape_markdown_v2 text)
      <> Markdown.escape_markdown_v2 text).
Proof.
  unfold Markdown.reserved_count.
  assert (Hlen : forall t,
    String.length (Markdown.escape_markdown_v2 t)
    = String.length t
      + List.length (List.filter Markdown.reserved (Str.chars t))).
  { intros t. unfold Markdown.escape_markdown_v2.
    rewrite StrFacts.length_str, MarkdownFacts.escape_chars_flat,
      MarkdownFacts.length_flat, StrFacts.length_chars. reflexivity. }
  assert (Hres :
    List.length (List.filter Markdown.reserved
                   (Str.chars (Markdown.escape_markdown_v2 text)))
    = 2 * List.length (List.filter Markdown.reserved (Str.chars text))).
  { unfold Markdown.escape_markdown_v2.
    rewrite StrFacts.chars_str, MarkdownFacts.escape_chars_flat.
    apply MarkdownFacts.reserved_flat. }
  split; [apply Hlen|]. split; [rewrite Hlen, Hlen, Hres; lia|]. split.
  - intros H0. clear Hlen Hres. unfold Markdown.escape_markdown_v2.
    rewrite MarkdownFacts.escape_chars_flat.
    rewrite <- (StrFacts.str_chars text) at 2. f_equal.
    induction (Str.chars text) as [|c l IH]; [reflexivity|].
    cbn [flat_map List.filter] in *. unfold Markdown.esc at 1.
    destruct (Markdown.reserved c); [discriminate H0|].
    cbn [app]. f_equal. apply IH, H0.
  - intros Hn Heq. apply (f_equal String.length) in Heq.
    rewrite Hlen, Hlen, Hres in Heq. lia.
Qed.

Lemma escape_twice_grows_witness :
  Markdown.reserved_count "Mr. Bean" = 1
  /\ Markdown.escape_markdown_v2 "Mr. Bean" = "Mr\. Bean"
  /\ Markdown.escape_markdown_v2 (Markdown.escape_markdown_v2 "Mr. Bean")
     = "Mr\\\. Bean"
  /\ Markdown.escape_markdown_v2 (Markdown.escape_markdown_v2 "Mr. Bean")
     <> Markdown.escape_markdown_v2 "Mr. Bean".
Proof.
  assert (H : Markdown.reserved_count "Mr. Bean" <> 0)
    by (vm_compute; discriminate).
  split; [vm_compute; reflexivity|].
  split; [vm_compute; reflexivity|].
  split; [vm_compute; reflexivity|].
  exact (proj2 (proj2 (proj2 (escape_twice_grows "Mr. Bean"))) H).
Defined.

(** ** Poster files *)

Module PosterFacts.
Import World MonadFacts Main Scraper EnrichFacts StrFacts.
Local Open Scope char_scope.

Lemma mask_legal c : illegal (mask c) = false.
Proof. unfold mask. destruct (illegal c) eqn:E; [reflexivity|exact E]. Qed.

Lemma mask_mask c : mask (mask c) = mask c.
Proof. unfold mask at 1. now rewrite mask_legal. Qed.

Lemma add_poster_spec f w :
  add_poster f w
  = (Ok (), {| files := files w;
               posters := Some ({[f]} ∪ default ∅ (posters w));
               tick := tick w; bot_folder_state := bot_folder_state w;
               trace := trace w |}).
Proof. reflexivity. Qed.

(** What [download_poster] returns when it returns a path. *)
Lemma download_poster_some e url dir n w path w1 :
  download_poster e url dir n w = (Ok (Some path), w1) ->
  exists u ext,
    url = PStr u
    /\ ext = (if String.eqb (splitext_ext u) "" then ".jpg"%string
              else splitext_ext u)
    /\ path = path_join dir (sanitize n +:+ ext)
    /\ (sanitize n +:+ ext)%string ∈ poster_files w1
    /\ download e (tick w) u = DlDone.
Proof.
  unfold download_poster.
  destruct (negb (Py.truthy url) || Py.eq_str url "N/A"); [discriminate|].
  unfold add_poster. ScanFacts.mstep.
  destruct (posters w) as [ps|] eqn:Hp; ScanFacts.mstep;
    (destruct url as [| | |u| |]; ScanFacts.mstep; try discriminate);
    (destruct (download e (tick w) u) eqn:Hd; ScanFacts.mstep;
     try discriminate);
    intros [= <- <-];
    exists u; eexists; (split; [reflexivity|]); (split; [reflexivity|]);
    (split; [reflexivity|]); (split; [|exact Hd]);
    unfold poster_files; cbn [posters default]; set_solver.
Qed.

End PosterFacts.

(** X6. The file name [download_poster] and [delete_poster] derive from a
    folder name has the length of the folder name and none of the nine
    characters the pattern forbids; a name without them is kept as it is,
    and sanitizing twice changes nothing more. *)
Theorem sanitized_name_is_clean :
  forall folder_name,
    Forall (fun c => Scraper.illegal c = false)
           (Str.chars (Scraper.sanitize folder_name))
    /\ String.length (Scraper.sanitize folder_name) = String.length folder_name
    /\ Scraper.sanitize (Scraper.sanitize folder_name)
       = Scraper.sanitize folder_name
    /\ (Forall (fun c => Scraper.illegal c = false) (Str.chars folder_name) ->
        Scraper.sanitize folder_name = folder_name).
Proof.
  intros n. unfold Scraper.sanitize.
  change (fun c => if Scraper.illegal c then "_"%char else c) with mask.
  rewrite !StrFacts.chars_str. split; [|split; [|split]].
  - apply Forall_map, Forall_forall. intros c _. apply PosterFacts.mask_legal.
  - now rewrite StrFacts.length_str, length_map, StrFacts.length_chars.
  - f_equal. rewrite map_map. apply map_ext, PosterFacts.mask_mask.
  - intros H. rewrite <- (StrFacts.str_chars n) at 2. f_equal.
    induction H as [|c l Hc _ IH]; [reflexivity|].
    cbn [map]. rewrite IH. unfold mask. now rewrite Hc.
Qed.

Lemma sanitized_name_is_clean_witness :
  Forall (fun c => Scraper.illegal c = false) (Str.chars "Heat (1995)")
  /\ Scraper.sanitize "Heat (1995)" = "Heat (1995)"
  /\ Scraper.sanitize "Face/Off: 1997?" = "Face_Off_ 1997_".
Proof.
  assert (H : Forall (fun c => Scraper.illegal c = false)
                     (Str.chars "Heat (1995)"))
    by (repeat constructor).
  split; [exact H|]. split; [|vm_compute; reflexivity].
  exact (proj2 (proj2 (proj2 (sanitized_name_is_clean "Heat (1995)"))) H).
Defined.


(** X7. A poster [download_poster] reports saved is in the poster
    directory under the sanitized folder name followed by an extension, so
    the existence test of the caller succeeds on the path returned, and
    [delete_poster] for the same folder name finds the file: after it, the
    file is gone, unless its removal fails. *)
Theorem saved_poster_is_found_again :
  forall e url dir folder_name w path w1,
    Scraper.download_poster e url dir folder_name w = (Ok (Some path), w1) ->
    exists ext,
      let f := Scraper.sanitize folder_name +:+ ext in
      String.prefix "." ext = true
      /\ path = World.path_join dir f
      /\ f ∈ poster_files w1
      /\ Notifier.poster_exists dir path w1 = true
      /\ exists w2,
           Scraper.delete_poster e folder_name w1 = (Ok (), w2)
           /\ (removable e f = true -> f ∉ poster_files w2)
           /\ (removable e f = false -> f ∈ poster_files w2).
Proof.
  intros e url dir n w path w1 H.
  apply PosterFacts.download_poster_some in H as (u & ext & -> & Hext & -> & Hin & _).
  exists ext. cbv zeta. split; [|split; [reflexivity|split; [exact Hin|split]]].
  - subst ext. destruct (String.eqb (Scraper.splitext_ext u) "") eqn:E;
      [reflexivity|].
    unfold Scraper.splitext_ext in *.
    destruct (Scraper.rsplit "." _) as [[before after]|]; [|discriminate E].
    destruct (existsb _ before); [|discriminate E].
    unfold Str.str. cbn [string_of_list_ascii String.prefix].
    destruct (ascii_dec "." "."); [|congruence].
    now destruct (string_of_list_ascii after).
  - unfold Notifier.poster_exists. apply bool_decide_eq_true_2.
    exists (Scraper.sanitize n +:+ ext). split; [exact Hin|reflexivity].
  - destruct (EvictFacts.delete_poster_spec e n w1) as (w2 & Hd & _ & _ & P).
    exists w2. split; [exact Hd|]. split.
    + intros Hr Hf. apply P in Hf as [_ Hf]. apply Hf. split; [|exact Hr].
      apply StrFacts.prefix_app.
    + intros Hr. apply P. split; [exact Hin|]. intros [_ Hr']. congruence.
Qed.

Lemma saved_poster_is_found_again_witness :
  Sample.downloaded
  = (Ok (Some "/app/posters/Heat_ Uncut.png"), Sample.downloaded.2)
  /\ exists ext,
       let f := Scraper.sanitize "Heat: Uncut" +:+ ext in
       String.prefix "." ext = true
       /\ "/app/posters/Heat_ Uncut.png" = World.path_join "/app/posters" f
       /\ f ∈ poster_files Sample.downloaded.2
       /\ Notifier.poster_exists "/app/posters" "/app/posters/Heat_ Uncut.png"
            Sample.downloaded.2 = true
       /\ exists w2,
            Scraper.delete_poster Example.e "Heat: Uncut" Sample.downloaded.2
            = (Ok (), w2)
            /\ (removable Example.e f = true -> f ∉ poster_files w2)
            /\ (removable Example.e f = false -> f ∈ poster_files w2).
Proof.
  assert (H : Scraper.download_poster Example.e (PStr Sample.address)
                "/app/posters" "Heat: Uncut" Example.fresh
              = (Ok (Some "/app/posters/Heat_ Uncut.png"),
                 Sample.downloaded.2))
    by (vm_compute; reflexivity).
  split; [exact H|].
  exact (saved_poster_is_found_again _ _ _ _ _ _ _ H).
Defined.

(** ** The shape of a parsed name *)

Module ShapeFacts.
Import Str Parse ParseFacts.
Local Open Scope char_scope.

Lemma rstrip_rstrip l : rstrip (rstrip l) = rstrip l.
Proof.
  induction l as [|c l IH]; [reflexivity|].
  cbn [rstrip]. destruct (rstrip l) as [|x r] eqn:E.
  - destruct (is_space c) eqn:Hc; [reflexivity|]. cbn [rstrip]. now rewrite Hc.
  - cbn [rstrip] in IH |- *. now rewrite IH.
Qed.

Lemma rstrip_lstrip m : rstrip m = m -> rstrip (lstrip m) = lstrip m.
Proof.
  induction m as [|c m IH]; [reflexivity|]. intros H.
  cbn [lstrip]. destruct (is_space c) eqn:Hc; [|exact H].
  apply IH. cbn [rstrip] in H. rewrite Hc in H.
  destruct (rstrip m) as [|x r]; [discriminate|]. now injection H.
Qed.

Lemma lstrip_lstrip l : lstrip (lstrip l) = lstrip l.
Proof.
  induction l as [|c l IH]; [reflexivity|].
  cbn [lstrip]. destruct (is_space c) eqn:Hc; [exact IH|].
  cbn [lstrip]. now rewrite Hc.
Qed.

Lemma strip_strip l : strip (strip l) = strip l.
Proof.
  unfold strip. rewrite (rstrip_lstrip (rstrip l) (rstrip_rstrip l)).
  apply lstrip_lstrip.
Qed.

Lemma lazy_then_some {A} (k : list ascii -> option A) l :
  forall acc g r,
    lazy_then k acc l = Some (g, r) ->
    exists p1 p2, l = p1 ++ p2 /\ g = rev acc ++ p1 /\ k p2 = Some r.
Proof.
  induction l as [|c l IH]; intros acc g r; rewrite lazy_then_eq.
  - destruct (k []) as [r'|] eqn:E; [|discriminate].
    intros [= <- <-]. exists [], []. rewrite !app_nil_r. auto.
  - destruct (k (c :: l)) as [r'|] eqn:E.
    + intros [= <- <-]. exists [], (c :: l). rewrite !app_nil_r. auto.
    + destruct (is_newline c); [discriminate|]. intros H.
      apply IH in H as (p1 & p2 & -> & -> & Hk).
      exists (c :: p1), p2. cbn [rev]. rewrite <- app_assoc. auto.
Qed.

Lemma spaces_then_some {A} (k : list ascii -> option A) t r :
  spaces_then k t = Some r -> exists ws t', t = ws ++ t' /\ k t' = Some r.
Proof.
  induction t as [|c t IH]; cbn [spaces_then].
  - intros H. now exists [], [].
  - destruct (is_space c); [|intros H; now exists [], (c :: t)].
    destruct (spaces_then k t) as [r'|]; [|intros H; now exists [], (c :: t)].
    intros [= <-]. destruct (IH eq_refl) as (ws & t' & -> & Hk).
    now exists (c :: ws), t'.
Qed.

Lemma opt_sep_then_some {A} (k : list ascii -> option A) t r :
  opt_sep_then k t = Some r -> exists s t', t = s ++ t' /\ k t' = Some r.
Proof.
  destruct t as [|c t]; cbn [opt_sep_then].
  - intros H. now exists [], [].
  - destruct (is_sep c); [|intros H; now exists [], (c :: t)].
    destruct (k t) as [r'|] eqn:E; [|intros H; now exists [], (c :: t)].
    intros [= <-]. now exists [c], t.
Qed.

Lemma paren_year_end_shape l y :
  paren_year_end l = Some y ->
  four_digits y /\ exists p q, l = p ++ y ++ q.
Proof.
  unfold paren_year_end.
  destruct l as [|o [|d1 [|d2 [|d3 [|d4 [|c rest]]]]]]; try discriminate.
  destruct (_ && at_end rest) eqn:E; [|discriminate].
  intros [= <-]. split_andb. split.
  - split; [reflexivity|]. repeat constructor; assumption.
  - now exists [o], (c :: rest).
Qed.

Lemma year_end_shape l y :
  year_end l = Some y -> four_digits y /\ exists p q, l = p ++ y ++ q.
Proof.
  unfold year_end.
  destruct l as [|d1 [|d2 [|d3 [|d4 rest]]]]; try discriminate.
  destruct (_ && at_end rest) eqn:E; [|discriminate].
  intros [= <-]. split_andb. split.
  - split; [reflexivity|]. repeat constructor; assumption.
  - now exists [], rest.
Qed.

Lemma parse_chars_shape l :
  strip (parse_chars l).1 = (parse_chars l).1
  /\ forall y, (parse_chars l).2 = Some y ->
       four_digits y /\ exists p q, l = p ++ y ++ q.
Proof.
  unfold parse_chars.
  destruct (match_paren_year l) as [[g1 g2]|] eqn:E1; cbn [fst snd].
  - split; [apply strip_strip|]. intros y [= <-].
    apply lazy_then_some in E1 as (p1 & p2 & -> & _ & H).
    apply spaces_then_some in H as (ws & t & -> & H).
    apply paren_year_end_shape in H as [Hy (p & q & ->)].
    split; [exact Hy|]. exists (p1 ++ ws ++ p), q. now rewrite <- !app_assoc.
  - destruct (match_sep_year l) as [[g1 g2]|] eqn:E2; cbn [fst snd].
    + split; [apply strip_strip|]. intros y [= <-].
      apply lazy_then_some in E2 as (p1 & p2 & -> & _ & H).
      apply opt_sep_then_some in H as (s & t & -> & H).
      apply year_end_shape in H as [Hy (p & q & ->)].
      split; [exact Hy|]. exists (p1 ++ s ++ p), q. now rewrite <- !app_assoc.
    + split; [apply strip_strip|]. discriminate.
Qed.

End ShapeFacts.

(** X8. Whatever the folder name, the title [parse_folder_name] returns has
    no white space at either end, and a year it returns is made of four
    decimal digits that stand, in that order, in the folder name. *)
Theorem parsed_title_is_trimmed_and_year_has_four_digits :
  forall folder_name,
    let r := Parse.parse_folder_name folder_name in
    Str.strip (Str.chars r.1) = Str.chars r.1
    /\ forall year, r.2 = Some year ->
         String.length year = 4
         /\ Forall (fun c => Str.is_digit c = true) (Str.chars year)
         /\ exists p q, Str.chars folder_name = p ++ Str.chars year ++ q.
Proof.
  intros n. cbv zeta. unfold Parse.parse_folder_name.
  destruct (ShapeFacts.parse_chars_shape (Str.chars n)) as [Ht Hy].
  destruct (Parse.parse_chars (Str.chars n)) as [t y]. cbn [fst snd] in *.
  unfold Str.chars, Str.str in *.
  rewrite list_ascii_of_string_of_list_ascii. split; [exact Ht|].
  intros year Hyear. destruct y as [y|]; [|discriminate].
  injection Hyear as <-. destruct (Hy y eq_refl) as [[Hl Hd] Hsub].
  rewrite list_ascii_of_string_of_list_ascii.
  split; [|split; [exact Hd|exact Hsub]].
  rewrite <- Hl. clear. induction y; cbn; congruence.
Qed.

Lemma parsed_title_is_trimmed_and_year_has_four_digits_witness :
  Parse.parse_folder_name " Blade Runner - 2049 " = ("Blade Runner - 2049", None)
  /\ Parse.parse_folder_name "Blade.Runner-2049" = ("Blade Runner", Some "2049")
  /\ String.length "2049" = 4
  /\ Forall (fun c => Str.is_digit c = true) (Str.chars "2049")
  /\ exists p q, Str.chars "Blade.Runner-2049" = p ++ Str.chars "2049" ++ q.
Proof.
  assert (H : (Parse.parse_folder_name "Blade.Runner-2049").2 = Some "2049")
    by reflexivity.
  split; [reflexivity|]. split; [reflexivity|].
  exact (proj2 (parsed_title_is_trimmed_and_year_has_four_digits
                  "Blade.Runner-2049") "2049" H).
Defined.

(** ** What a scan counts and announces *)

Module TallyFacts.
Import World MonadFacts Main StoreFacts ScanFacts Scraper EnrichFacts EvictFacts.

Ltac tally_eq :=
  unfold one_part, one_added, one_removed, one_root, tally_of;
  cbn [changed added_count removed_count added_announced removed_announced];
  f_equal; try lia.

Lemma tally_set_cache c v : tally_of (set_cache c v) = tally_of v.
Proof. reflexivity. Qed.

Lemma tally_add_part p v : tally_of (add_part p v) = one_part p (tally_of v).
Proof.
  unfold tally_of at 1, plain_lines, removed_lines.
  cbn [add_part has_changes overall_added_count overall_removed_count
       photo_messages_to_send telegram_message_parts].
  rewrite !List.filter_app, !length_app.
  destruct p; cbn [List.filter length]; tally_eq;
    unfold plain_lines, removed_lines; lia.
Qed.

Lemma tally_add_photo path v :
  tally_of (add_photo path v) = one_added (tally_of v).
Proof.
  unfold tally_of at 1, plain_lines, removed_lines.
  cbn [add_photo has_changes overall_added_count overall_removed_count
       photo_messages_to_send telegram_message_parts].
  rewrite length_app. cbn [length]. tally_eq. unfold plain_lines. lia.
Qed.

Lemma resolve_tally cfg e m v w md v' w' :
  resolve_metadata cfg e m v w = (Ok (md, v'), w') -> tally_of v' = tally_of v.
Proof.
  unfold resolve_metadata. destruct (Parse.parse_folder_name m) as [title year].
  mrun. destruct (Py.get (cache v) m) as [md0|]; mrun; [|discriminate].
  destruct (is_cached md0) as [[]|]; mrun;
    [now intros [= <- <- <-]| |discriminate].
  destruct (fetch_media_metadata_from_omdb e title year (omdb_api_key cfg) w)
    as [[[rec|]|] w1]; mrun; [|now intros [= <- <- <-]|discriminate].
  match goal with |- context [Py.setitem ?a ?b ?c] =>
    destruct (Py.setitem a b c) end; mrun; [|discriminate].
  now intros [= <- <- <-].
Qed.

Lemma attach_tally e dir m md v w lp md' v' w' :
  attach_poster e dir m md v w = (Ok (lp, md', v'), w') ->
  tally_of v' = tally_of v.
Proof.
  unfold attach_poster. mrun.
  destruct (has_poster_url md) as [[]|]; mrun;
    [|now intros [= <- <- <-]|discriminate].
  destruct (Py.get md "poster_url") as [url|]; mrun; [|discriminate].
  destruct (download_poster e url dir m w) as [[[path|]|] w1]; mrun;
    [|now intros [= <- <- <-]|discriminate].
  destruct (Py.setitem md "local_poster_path" (PStr path)) as [md1|];
    mrun; [|discriminate].
  match goal with |- context [Py.setitem ?a ?b ?c] =>
    destruct (Py.setitem a b c) end; mrun; [|discriminate].
  now intros [= <- <- <-].
Qed.

(** Each added folder is announced once: by a photo or by a line. *)
Lemma queue_tally dir m lp md v w v' w' :
  queue_message dir m lp md v w = (Ok v', w') ->
  tally_of v' = one_added (tally_of v).
Proof.
  unfold queue_message. mrun.
  destruct lp as [path|];
    [|intros [= <- <-]; now rewrite tally_add_part].
  destruct (Notifier.poster_exists dir path w);
    [|intros [= <- <-]; now rewrite tally_add_part].
  mrun. destruct (build_caption md); mrun; [|discriminate].
  intros [= <- <-]. now rewrite tally_add_photo.
Qed.

Lemma handle_added_tally cfg e dir m v w v' w' :
  handle_added cfg e dir m v w = (Ok v', w') ->
  tally_of v' = one_added (tally_of v).
Proof.
  intros H. unfold handle_added in H.
  apply bind_ok_inv in H as ([md v1] & w1 & H1 & H).
  apply bind_ok_inv in H as ([[lp md'] v2] & w2 & H2 & H3).
  apply resolve_tally in H1. apply attach_tally in H2.
  apply queue_tally in H3. congruence.
Qed.

Lemma handle_removed_tally e m v w v' w' :
  handle_removed e m v w = (Ok v', w') ->
  tally_of v' = one_removed (tally_of v).
Proof.
  unfold handle_removed. mrun.
  destruct (delete_poster e m w) as [[[]|] w1]; mrun; [|discriminate].
  cbn [add_part cache].
  destruct (Py.contains m (cache v)) as [[]|]; mrun;
    [|intros [= <- <-]; now rewrite tally_add_part|discriminate].
  destruct (Py.delitem (cache v) m); mrun; [|discriminate].
  intros [= <- <-]. now rewrite tally_set_cache, tally_add_part.
Qed.

Lemma fold_loop_tally {A} (l : list A) (body : A -> scan_vars -> M scan_vars)
    (step : tally -> tally) v w v' w' :
  (forall x v w v' w', body x v w = (Ok v', w') ->
                       tally_of v' = step (tally_of v)) ->
  fold_loop l body v w = (Ok v', w') ->
  tally_of v' = Nat.iter (length l) step (tally_of v).
Proof.
  intros Hb. revert v w. induction l as [|x l IH]; intros v w.
  - now intros [= <- <-].
  - cbn [fold_loop]. intros H.
    apply bind_ok_inv in H as (v1 & w1 & H1 & H2).
    apply Hb in H1. apply IH in H2. rewrite H2, H1.
    cbn [length]. now rewrite Nat.iter_succ_r.
Qed.

Lemma iter_one_added n t :
  Nat.iter n one_added t
  = {| changed := changed t; added_count := added_count t;
       removed_count := removed_count t;
       added_announced := added_announced t + n;
       removed_announced := removed_announced t |}.
Proof.
  induction n as [|n IH].
  - destruct t. cbn. f_equal. lia.
  - rewrite Nat.iter_succ, IH. tally_eq.
Qed.

Lemma iter_one_removed n t :
  Nat.iter n one_removed t
  = {| changed := changed t; added_count := added_count t;
       removed_count := removed_count t;
       added_announced := added_announced t;
       removed_announced := removed_announced t + n |}.
Proof.
  induction n as [|n IH].
  - destruct t. cbn. f_equal. lia.
  - rewrite Nat.iter_succ, IH. tally_eq.
Qed.

Lemma sorted_length s l : Py.sorted s = Ok l -> length l = size s.
Proof.
  intros H. apply sorted_elements in H. now rewrite H.
Qed.

Lemma handle_all_added_tally cfg e dir s v w v' w' :
  handle_all_added cfg e dir s v w = (Ok v', w') ->
  tally_of v' = Nat.iter (size s) one_added (tally_of v).
Proof.
  intros H. unfold handle_all_added in H.
  apply bind_ok_inv in H as (l & w1 & H1 & H).
  apply lift_ok_inv in H1 as [Hl ->].
  rewrite <- (sorted_length _ _ Hl).
  eapply fold_loop_tally; [|exact H].
  intros [m| |] v0 w0 v0' w0'; [|discriminate|discriminate].
  apply handle_added_tally.
Qed.

Lemma handle_all_removed_tally e s v w v' w' :
  handle_all_removed e s v w = (Ok v', w') ->
  tally_of v' = Nat.iter (size s) one_removed (tally_of v).
Proof.
  intros H. unfold handle_all_removed in H.
  apply bind_ok_inv in H as (l & w1 & H1 & H).
  apply lift_ok_inv in H1 as [Hl ->].
  rewrite <- (sorted_length _ _ Hl).
  eapply fold_loop_tally; [|exact H].
  intros [m| |] v0 w0 v0' w0'; [|discriminate|discriminate].
  apply handle_removed_tally.
Qed.

(** One root: its diff is counted, and announced folder by folder. *)
Lemma handle_root_tally cfg e dir old cur root v w v' w' :
  handle_root cfg e dir old cur root v w = (Ok v', w') ->
  exists a r,
    diff_for_path old cur root = Ok (a, r)
    /\ diffs v' = (root, (a, r)) :: diffs v
    /\ tally_of v' = one_root a r (tally_of v).
Proof.
  intros H.
  destruct (StampFacts.handle_root_holds "" PNone None _ _ _ _ _ _ _ _ _ _ H)
    as (a & r & Hd & D & _).
  exists a, r. split; [exact Hd|split; [exact D|]].
  unfold handle_root in H.
  apply bind_ok_inv in H as ([a' r'] & w1 & H1 & H).
  apply lift_ok_inv in H1 as [Hd' ->].
  assert (a' = a /\ r' = r) as [-> ->] by (split; congruence).
  apply bind_ok_inv in H as (v1 & w1 & H1 & H2).
  assert (T0 : tally_of (count_diff root a r v)
    = {| changed := changed (tally_of v);
         added_count := added_count (tally_of v) + size a;
         removed_count := removed_count (tally_of v) + size r;
         added_announced := added_announced (tally_of v);
         removed_announced := removed_announced (tally_of v) |})
    by reflexivity.
  assert (Tc : forall x, tally_of (set_changed x)
    = {| changed := true; added_count := added_count (tally_of x);
         removed_count := removed_count (tally_of x);
         added_announced := added_announced (tally_of x);
         removed_announced := removed_announced (tally_of x) |})
    by reflexivity.
  assert (T1 : tally_of v1
    = {| changed := changed (tally_of v) || bool_decide (a ≠ ∅);
         added_count := added_count (tally_of v) + size a;
         removed_count := removed_count (tally_of v) + size r;
         added_announced := added_announced (tally_of v) + size a;
         removed_announced := removed_announced (tally_of v) |}).
  { revert H1. destruct (bool_decide (a ≠ ∅)) eqn:Ha; intros H1.
    - apply bind_ok_inv in H1 as (v0 & w0 & H0 & [= <- <-]).
      apply handle_all_added_tally in H0.
      rewrite tally_add_part, H0, iter_one_added, !tally_add_part, Tc, T0.
      cbn. now rewrite orb_true_r.
    - injection H1 as <- <-. apply bool_decide_eq_false, dec_stable in Ha.
      subst a. rewrite T0, size_empty, orb_false_r. f_equal. lia. }
  revert H2. destruct (bool_decide (r ≠ ∅)) eqn:Hr; intros H2.
  - apply bind_ok_inv in H2 as (v0 & w0 & H0 & [= <- <-]).
    apply handle_all_removed_tally in H0.
    rewrite tally_add_part, H0, iter_one_removed, !tally_add_part, Tc, T1.
    unfold one_root. rewrite Hr. cbn. now rewrite !orb_true_r.
  - injection H2 as <- <-. unfold one_root. rewrite Hr.
    apply bool_decide_eq_false, dec_stable in Hr.
    subst r. rewrite T1.
    rewrite size_empty, orb_false_r. f_equal; lia.
Qed.

(** The loop over the roots: the tally is that of the report. *)
Lemma roots_loop_tally cfg e dir old cur roots v w v' w' :
  fold_loop roots (handle_root cfg e dir old cur) v w = (Ok v', w') ->
  exists pre,
    diffs v' = pre ++ diffs v
    /\ added_count (tally_of v') = added_count (tally_of v) + total_added pre
    /\ removed_count (tally_of v')
       = removed_count (tally_of v) + total_removed pre
    /\ added_announced (tally_of v')
       = added_announced (tally_of v) + total_added pre
    /\ removed_announced (tally_of v')
       = removed_announced (tally_of v) + total_removed pre
    /\ changed (tally_of v')
       = changed (tally_of v)
         || negb (Nat.eqb (total_added pre + total_removed pre) 0).
Proof.
  revert v w. induction roots as [|root roots IH]; intros v w.
  - intros [= <- <-]. exists []. cbn. rewrite orb_false_r.
    repeat split; lia.
  - cbn [fold_loop]. intros H.
    apply bind_ok_inv in H as (v1 & w1 & H1 & H2).
    apply handle_root_tally in H1 as (a & r & _ & D1 & T1).
    destruct (IH _ _ H2) as (pre & D & A & R & AA & RA & C).
    exists (pre ++ [(root, (a, r))]).
    assert (Ha : total_added (pre ++ [(root, (a, r))]) = total_added pre + size a).
    { clear. unfold total_added.
      induction pre as [|x pre IH]; cbn [app foldr fst snd];
        [lia|rewrite IH; lia]. }
    assert (Hr : total_removed (pre ++ [(root, (a, r))])
                 = total_removed pre + size r).
    { clear. unfold total_removed.
      induction pre as [|x pre IH]; cbn [app foldr fst snd];
        [lia|rewrite IH; lia]. }
    rewrite Ha, Hr, A, R, AA, RA, C, T1, D, D1. unfold one_root. cbn.
    rewrite <- app_assoc. repeat split; try lia.
    assert (Hz : forall s : gset atom, bool_decide (s ≠ ∅) = negb (Nat.eqb (size s) 0)).
    { intros s. destruct (decide (s = ∅)) as [->|Hs].
      - rewrite bool_decide_eq_false_2 by (intros ?; congruence).
        now rewrite size_empty.
      - rewrite bool_decide_eq_true_2 by exact Hs.
        destruct (size s) eqn:E; [|reflexivity].
        apply size_empty_iff, leibniz_equiv in E. contradiction. }
    rewrite !Hz.
    generalize (has_changes v) (size a) (size r)
      (total_added pre) (total_removed pre).
    intros b n1 n2 n3 n4.
    destruct b, n1, n2, n3, n4; cbn; rewrite ?Nat.add_0_r; reflexivity.
Qed.

End TallyFacts.

(** X9. The counters of a scan are those of its report: a scan that
    reaches its end has counted, over the monitored roots, as many added
    folders as the diffs of the report hold, and as many removed ones; and
    it flags a change exactly when one of the two counts is not zero. *)
Theorem scan_counts_the_report :
  forall cfg e w v w',
    Main.periodic_folder_scan cfg e w = (Ok v, w') ->
    overall_added_count v = total_added (diffs v)
    /\ overall_removed_count v = total_removed (diffs v)
    /\ (has_changes v = true <->
        0 < overall_added_count v + overall_removed_count v).
Proof.
  intros cfg e w v w' H.
  apply ScanFacts.scan_inv in H as (c & old & w1 & w2 & w3 & _ & Hr & _).
  apply TallyFacts.roots_loop_tally in Hr as (pre & D & A & R & _ & _ & C).
  cbn [Main.initial_vars diffs] in D. rewrite app_nil_r in D. subst pre.
  cbn in A, R, C. rewrite A, R. split; [reflexivity|split; [reflexivity|]].
  rewrite C. destruct (total_added (diffs v) + total_removed (diffs v)).
  - cbn. split; [discriminate|lia].
  - cbn. split; [lia|reflexivity].
Qed.

Lemma scan_counts_the_report_witness :
  Main.periodic_folder_scan Example.cfg Example.e Example.fresh
  = (Ok (Example.scanned Example.fresh).1, (Example.scanned Example.fresh).2)
  /\ overall_added_count (Example.scanned Example.fresh).1 = 1
  /\ overall_added_count (Example.scanned Example.fresh).1
     = total_added (diffs (Example.scanned Example.fresh).1)
  /\ overall_removed_count (Example.scanned Example.fresh).1
     = total_removed (diffs (Example.scanned Example.fresh).1)
  /\ (has_changes (Example.scanned Example.fresh).1 = true <->
      0 < overall_added_count (Example.scanned Example.fresh).1
          + overall_removed_count (Example.scanned Example.fresh).1).
Proof.
  assert (H : Main.periodic_folder_scan Example.cfg Example.e Example.fresh
              = (Ok (Example.scanned Example.fresh).1, (Example.scanned Example.fresh).2))
    by (vm_compute; reflexivity).
  split; [exact H|]. split; [vm_compute; reflexivity|].
  exact (scan_counts_the_report _ _ _ _ _ H).
Defined.

(** X10. Every added folder is announced once and every removed folder is
    announced once: when a scan reaches its end, the photo messages it has
    queued and the plain lines of its text message are together as many as
    the added folders it counted, and the lines for removed folders are as
    many as the removed folders it counted. *)
Theorem every_change_is_announced_once :
  forall cfg e w v w',
    Main.periodic_folder_scan cfg e w = (Ok v, w') ->
    length (photo_messages_to_send v) + plain_lines v = overall_added_count v
    /\ removed_lines v = overall_removed_count v.
Proof.
  intros cfg e w v w' H.
  apply ScanFacts.scan_inv in H as (c & old & w1 & w2 & w3 & _ & Hr & _).
  apply TallyFacts.roots_loop_tally in Hr as (pre & _ & A & R & AA & RA & _).
  cbn in A, R, AA, RA. lia.
Qed.

Lemma every_change_is_announced_once_witness :
  Main.periodic_folder_scan Example.cfg Example.e Example.fresh
  = (Ok (Example.scanned Example.fresh).1, (Example.scanned Example.fresh).2)
  /\ length (photo_messages_to_send (Example.scanned Example.fresh).1) = 1
  /\ length (photo_messages_to_send (Example.scanned Example.fresh).1)
     + plain_lines (Example.scanned Example.fresh).1
     = overall_added_count (Example.scanned Example.fresh).1
  /\ removed_lines (Example.scanned Example.fresh).1
     = overall_removed_count (Example.scanned Example.fresh).1.
Proof.
  assert (H : Main.periodic_folder_scan Example.cfg Example.e Example.fresh
              = (Ok (Example.scanned Example.fresh).1, (Example.scanned Example.fresh).2))
    by (vm_compute; reflexivity).
  split; [exact H|]. split; [vm_compute; reflexivity|].
  exact (every_change_is_announced_once _ _ _ _ _ H).
Defined.

(** ** What a scan does not do *)

Module SilenceFacts.
Import World MonadFacts Main Scraper Notifier Frame.

Section Kind.
Context (kind : event -> bool).

#[global] Instance none_of_refl : Reflexive (none_of kind).
Proof. now intros w. Qed.

#[global] Instance none_of_trans : Transitive (none_of kind).
Proof. unfold none_of. intros w1 w2 w3 H1 H2. congruence. Qed.

Lemma emit_none_of ev : kind ev = false -> preserves (none_of kind) (emit ev).
Proof.
  intros H w r w' [= <- <-]. unfold none_of. cbn [trace List.filter].
  now rewrite H.
Qed.

Lemma next_tick_none_of : preserves (none_of kind) next_tick.
Proof. now intros w r w' [= <- <-]. Qed.

Lemma set_posters_none_of p : preserves (none_of kind) (set_posters p).
Proof. now intros w r w' [= <- <-]. Qed.

Lemma set_files_none_of f : preserves (none_of kind) (set_files f).
Proof. now intros w r w' [= <- <-]. Qed.

Lemma set_bot_folder_state_none_of d :
  preserves (none_of kind) (set_bot_folder_state d).
Proof. now intros w r w' [= <- <-]. Qed.

End Kind.

#[export] Hint Resolve next_tick_none_of set_posters_none_of set_files_none_of
  set_bot_folder_state_none_of : frame.
#[export] Hint Extern 1 (preserves (none_of _) (emit _)) =>
  apply emit_none_of; reflexivity : frame.

(** The senders make no call when a credential is missing. *)
Lemma send_message_silent cfg e :
  bot_token cfg = "" \/ chat_id cfg = "" ->
  preserves (none_of is_send) (send_telegram_message cfg e).
Proof.
  intros H. unfold send_telegram_message.
  replace (_ || _) with true; [frame (none_of is_send)|].
  symmetry. apply orb_true_iff. now rewrite !String.eqb_eq.
Qed.

Lemma send_photo_silent cfg e d p :
  bot_token cfg = "" \/ chat_id cfg = "" ->
  preserves (none_of is_send) (send_telegram_photo cfg e d p).
Proof.
  intros H. unfold send_telegram_photo.
  replace (_ || _) with true; [frame (none_of is_send)|].
  symmetry. apply orb_true_iff. now rewrite !String.eqb_eq.
Qed.

Lemma scan_silent cfg e :
  bot_token cfg = "" \/ chat_id cfg = "" ->
  preserves (none_of is_send) (periodic_folder_scan cfg e).
Proof.
  intros H.
  pose proof (send_message_silent cfg e H) as Hm.
  pose proof (fun d p => send_photo_silent cfg e d p H) as Hp.
  unfold periodic_folder_scan, load_state, reconcile, notify, persist,
    handle_root, handle_all_added, handle_all_removed, handle_added,
    handle_removed, resolve_metadata, attach_poster, queue_message,
    send_photos, send_text, write_folder_state, write_media_metadata,
    fetch_media_metadata_from_omdb, download_poster, add_poster,
    delete_poster, delete_one, dump_file, now.
  frame (none_of is_send).
Qed.

Lemma scan_without_key cfg e :
  omdb_api_key cfg = "" ->
  preserves (none_of is_lookup) (periodic_folder_scan cfg e).
Proof.
  intros Hk.
  unfold periodic_folder_scan, load_state, reconcile, notify, persist,
    handle_root, handle_all_added, handle_all_removed, handle_added,
    handle_removed, resolve_metadata, attach_poster, queue_message,
    send_photos, send_text, write_folder_state, write_media_metadata,
    fetch_media_metadata_from_omdb, download_poster, add_poster,
    delete_poster, delete_one, send_telegram_message, send_telegram_photo,
    api_call, log_and_return, dump_file, now.
  rewrite Hk. cbn [String.eqb].
  frame (none_of is_lookup).
Qed.

End SilenceFacts.

Module ReachFacts.
Import World MonadFacts Main StoreFacts ScanFacts.

Lemma read_folder_state_unreadable fs p :
  fs !! p = None \/ (exists x, read_folder_state_try fs p = Raise x) ->
  read_folder_state fs p = Ok ∅.
Proof.
  unfold read_folder_state. intros [H|[x H]].
  - unfold read_folder_state_try. now rewrite H.
  - rewrite H. now destruct x.
Qed.

Lemma Forall2_elem_of {A B} (P : A -> B -> Prop) l k :
  Forall2 P l k -> Forall2 (fun a b => a ∈ l /\ P a b) l k.
Proof.
  intros H. induction H as [|a b l k Hab _ IH]; constructor.
  - split; [apply list_elem_of_here|exact Hab].
  - eapply Forall2_impl; [exact IH|]. intros a' b' [Ha' Hp].
    split; [now apply list_elem_of_further|exact Hp].
Qed.

(** The report of a scan, read against what the scan loaded and found. *)
Lemma scan_report cfg e w v w' :
  periodic_folder_scan cfg e w = (Ok v, w') ->
  exists old,
    read_folder_state (files w) (folder_list_path cfg) = Ok old
    /\ Forall2
         (fun root x =>
            root ∈ monitored_folders cfg /\ x.1 = root
            /\ diff_for_path old
                 (scan_current_state e (monitored_folders cfg)) root
               = Ok x.2)
         (monitored_folders cfg) (rev (diffs v)).
Proof.
  intros H.
  apply scan_inv in H as (c & old & w1 & w2 & w3 & Hl & Hr & _).
  destruct (load_state_spec cfg e w) as (c' & old' & _ & Hold & Hl').
  rewrite Hl' in Hl. injection Hl as <- <- <-.
  exists old'. split; [exact Hold|].
  apply ReportFacts.roots_loop_diffs in Hr as (entries & D & HF).
  cbn [initial_vars diffs] in D. rewrite D, app_nil_r, rev_involutive.
  apply Forall2_elem_of in HF.
  eapply Forall2_impl; [exact HF|]. intros root x (Hin & Hx & Hd). auto.
Qed.

End ReachFacts.

(** X11. With no bot token or no chat id a scan calls the chat API not
    once, whatever it finds, and whether it ends or not. *)
Theorem missing_credentials_mean_no_message :
  forall cfg e w r w',
    bot_token cfg = "" \/ chat_id cfg = "" ->
    Main.periodic_folder_scan cfg e w = (r, w') ->
    List.filter is_send (trace w') = List.filter is_send (trace w).
Proof.
  intros cfg e w r w' Hc H.
  exact (SilenceFacts.scan_silent cfg e Hc w r w' H).
Qed.

Lemma missing_credentials_mean_no_message_witness :
  (bot_token Sample.mute = "" \/ chat_id Sample.mute = "")
  /\ overall_added_count (Sample.outcome Sample.mute Example.e Example.fresh).1
     = 1
  /\ List.filter is_send
       (trace (Sample.outcome Sample.mute Example.e Example.fresh).2)
     = List.filter is_send (trace Example.fresh).
Proof.
  assert (H1 : bot_token Sample.mute = "" \/ chat_id Sample.mute = "")
    by (left; reflexivity).
  assert (H2 : Main.periodic_folder_scan Sample.mute Example.e Example.fresh
               = (Ok (Sample.outcome Sample.mute Example.e Example.fresh).1,
                  (Sample.outcome Sample.mute Example.e Example.fresh).2))
    by (vm_compute; reflexivity).
  split; [exact H1|]. split; [vm_compute; reflexivity|].
  exact (missing_credentials_mean_no_message _ _ _ _ _ H1 H2).
Defined.

(** X12. With no provider key a scan makes no lookup, whatever it finds. *)
Theorem missing_api_key_means_no_lookup :
  forall cfg e w r w',
    omdb_api_key cfg = "" ->
    Main.periodic_folder_scan cfg e w = (r, w') ->
    lookups w' = lookups w.
Proof.
  intros cfg e w r w' Hk H.
  exact (f_equal (@length event) (SilenceFacts.scan_without_key cfg e Hk w r w' H)).
Qed.

Lemma missing_api_key_means_no_lookup_witness :
  omdb_api_key Sample.keyless = ""
  /\ overall_added_count
       (Sample.outcome Sample.keyless Example.e Example.fresh).1 = 1
  /\ lookups (Sample.outcome Sample.keyless Example.e Example.fresh).2
     = lookups Example.fresh.
Proof.
  assert (H1 : omdb_api_key Sample.keyless = "") by reflexivity.
  assert (H2 : Main.periodic_folder_scan Sample.keyless Example.e Example.fresh
               = (Ok (Sample.outcome Sample.keyless Example.e Example.fresh).1,
                  (Sample.outcome Sample.keyless Example.e Example.fresh).2))
    by (vm_compute; reflexivity).
  split; [exact H1|]. split; [vm_compute; reflexivity|].
  exact (missing_api_key_means_no_lookup _ _ _ _ _ H1 H2).
Defined.

(** X13. When the snapshot file is missing, or reading it fails in any way,
    a scan that reaches its end reports every sub-folder of every monitored
    root as added and none as removed. *)
Theorem unreadable_snapshot_reports_everything_added :
  forall cfg e w v w',
    files w !! Main.folder_list_path cfg = None
    \/ (exists x, Main.read_folder_state_try (files w) (Main.folder_list_path cfg)
                  = Raise x) ->
    Main.periodic_folder_scan cfg e w = (Ok v, w') ->
    Forall2
      (fun root x =>
         x = (root, (list_to_set (AStr <$> Main.get_subfolders e root), ∅)))
      (monitored_folders cfg) (rev (diffs v)).
Proof.
  intros cfg e w v w' Hf H.
  apply ReachFacts.scan_report in H as (old & Hold & HF).
  rewrite (ReachFacts.read_folder_state_unreadable _ _ Hf) in Hold.
  injection Hold as <-.
  eapply Forall2_impl; [exact HF|]. intros root [r [a d]] (Hin & Hx & Hd).
  cbn [fst snd] in *. subst r. unfold Main.diff_for_path in Hd.
  rewrite lookup_empty, (ScanFacts.current_state_monitored _ _ _ Hin) in Hd.
  cbn in Hd. injection Hd as <- <-.
  now rewrite difference_empty_L, empty_difference_L.
Qed.

Lemma unreadable_snapshot_reports_everything_added_witness :
  Main.read_folder_state_try (files Sample.garbled)
    (Main.folder_list_path Example.cfg) = Raise JSONDecodeError
  /\ Forall2
       (fun root x =>
          x = (root,
               (list_to_set (AStr <$> Main.get_subfolders Example.e root), ∅)))
       (monitored_folders Example.cfg)
       (rev (diffs (Sample.outcome Example.cfg Example.e Sample.garbled).1)).
Proof.
  assert (H0 : Main.read_folder_state_try (files Sample.garbled)
                 (Main.folder_list_path Example.cfg) = Raise JSONDecodeError)
    by (vm_compute; reflexivity).
  assert (H1 : files Sample.garbled !! Main.folder_list_path Example.cfg = None
               \/ (exists x,
                     Main.read_folder_state_try (files Sample.garbled)
                       (Main.folder_list_path Example.cfg) = Raise x))
    by (right; exists JSONDecodeError; exact H0).
  assert (H2 : Main.periodic_folder_scan Example.cfg Example.e Sample.garbled
               = (Ok (Sample.outcome Example.cfg Example.e Sample.garbled).1,
                  (Sample.outcome Example.cfg Example.e Sample.garbled).2))
    by (vm_compute; reflexivity).
  split; [exact H0|].
  exact (unreadable_snapshot_reports_everything_added _ _ _ _ _ H1 H2).
Defined.

(** X14. A monitored root that does not exist, or cannot be listed, is read
    as a root without sub-folders: a scan that reaches its end reports
    every folder the snapshot holds for it as removed, and none as added. *)
Theorem unreachable_root_reports_everything_removed :
  forall cfg e w v w' old root s,
    root ∈ monitored_folders cfg ->
    dirs e root = NoDir \/ dirs e root = DirError ->
    Main.read_folder_state (files w) (Main.folder_list_path cfg) = Ok old ->
    old !! root = Some (FSet s) ->
    Main.periodic_folder_scan cfg e w = (Ok v, w') ->
    (root, (∅, s)) ∈ diffs v.
Proof.
  intros cfg e w v w' old root s Hin Hdir Hold Hs H.
  apply ReachFacts.scan_report in H as (old' & Hold' & HF).
  assert (old' = old) as -> by congruence.
  apply list_elem_of_In, in_rev, list_elem_of_In.
  apply list_elem_of_lookup_1 in Hin as [i Hi].
  destruct (Forall2_lookup_l _ _ _ _ _ HF Hi) as ([r [a d]] & Hx & _ & Hr & Hd).
  cbn [fst snd] in *. subst r.
  apply list_elem_of_lookup_2 in Hx.
  enough ((a, d) = (∅, s)) as <- by exact Hx.
  assert (Hin : root ∈ monitored_folders cfg)
    by (eapply list_elem_of_lookup_2, Hi).
  unfold Main.diff_for_path in Hd.
  rewrite Hs, (ScanFacts.current_state_monitored _ _ _ Hin) in Hd.
  assert (Main.get_subfolders e root = []) as Hg.
  { unfold Main.get_subfolders. now destruct Hdir as [-> | ->]. }
  rewrite Hg in Hd. cbn in Hd. injection Hd as <- <-.
  now rewrite empty_difference_L, difference_empty_L.
Qed.

Lemma unreachable_root_reports_everything_removed_witness :
  dirs Sample.unplugged Example.movies = NoDir
  /\ Main.read_folder_state (files Sample.known)
       (Main.folder_list_path Example.cfg)
     = Ok {[ Example.movies := FSet {[ AStr "Heat" ]} ]}
  /\ (Example.movies, (∅, {[ AStr "Heat" ]}))
     ∈ diffs (Sample.outcome Example.cfg Sample.unplugged Sample.known).1.
Proof.
  assert (H1 : Example.movies ∈ monitored_folders Example.cfg)
    by (refine (bool_decide_unpack _ _); vm_compute; exact I).
  assert (H2 : dirs Sample.unplugged Example.movies = NoDir) by reflexivity.
  assert (H3 : Main.read_folder_state (files Sample.known)
                 (Main.folder_list_path Example.cfg)
               = Ok {[ Example.movies := FSet {[ AStr "Heat" ]} ]})
    by (vm_compute; reflexivity).
  assert (H4 : ({[ Example.movies := FSet {[ AStr "Heat" ]} ]}
                  : gmap string fsval) !! Example.movies
               = Some (FSet {[ AStr "Heat" ]}))
    by (vm_compute; reflexivity).
  assert (H5 : Main.periodic_folder_scan Example.cfg Sample.unplugged
                 Sample.known
               = (Ok (Sample.outcome Example.cfg Sample.unplugged
                        Sample.known).1,
                  (Sample.outcome Example.cfg Sample.unplugged Sample.known).2))
    by (vm_compute; reflexivity).
  split; [exact H2|]. split; [exact H3|].
  exact (unreachable_root_reports_everything_removed _ _ _ _ _ _ _ _
           H1 (or_introl H2) H3 H4 H5).
Defined.

(** ** The order of the names in the snapshot file *)

Module OrderFacts.
Import Py World MonadFacts Main StoreFacts.

Lemma leb_total : Total (fun a b : string => Is_true (String.leb a b)).
Proof.
  intros a b. destruct (String.leb_total a b) as [H|H]; rewrite H; now auto.
Qed.

(** Sorting a set of strings: its names, each once, in ascending order. *)
Lemma sorted_names (s : gset atom) :
  names_only s ->
  exists ns,
    elements s = AStr <$> ns
    /\ sorted s = Ok (AStr <$> merge_sort String.leb ns).
Proof.
  intros Hs.
  assert (exists ns, mapM atom_str (elements s) = Some ns) as [ns Hns].
  { assert (Forall (fun a => exists n, a = AStr n) (elements s)) as H.
    { apply Forall_forall. intros a Ha. apply elem_of_elements in Ha. auto. }
    induction H as [|a l [n ->] _ [ns IH]]; [now exists []|].
    exists (n :: ns). cbn [mapM]. simpl. now rewrite IH. }
  exists ns. split; [now apply mapM_atom_str|].
  unfold sorted. now rewrite Hns.
Qed.

Lemma dump_val_names root (s : gset string) :
  exists l,
    dump_val root (FSet (names s)) = Ok (PList (PStr <$> l))
    /\ Sorted String.leb l /\ NoDup l /\ forall n, n ∈ l <-> n ∈ s.
Proof.
  destruct (sorted_names (names s) (names_names_only s)) as (ns & He & Hs).
  exists (merge_sort String.leb ns). split; [|split; [|split]].
  - cbn [dump_val]. rewrite Hs. cbn. f_equal. f_equal.
    rewrite <- list_fmap_compose. reflexivity.
  - apply Sorted_merge_sort, leb_total.
  - rewrite merge_sort_Permutation.
    apply (NoDup_fmap_1 AStr). rewrite <- He. apply NoDup_elements.
  - intros n. rewrite merge_sort_Permutation.
    transitivity (AStr n ∈ elements (names s)).
    + rewrite He. rewrite list_elem_of_fmap. split; [eauto|].
      now intros (m & [= ->] & Hm).
    + rewrite elem_of_elements. unfold names. rewrite elem_of_map. split.
      * now intros (m & [= ->] & Hm).
      * eauto.
Qed.

End OrderFacts.

(** X15. The snapshot file lists names in order: for a snapshot, the array
    [write_folder_state] writes under a root holds the names of the root's
    sub-folders, each once, in ascending order of their characters. *)
Theorem snapshot_file_lists_names_in_order :
  forall e p (S : gmap string (gset string)) w,
    exists data w',
      Main.write_folder_state e p (folder_snapshot S) w
      = (Ok (stamped (clock e (tick w)) (folder_snapshot S)), w')
      /\ files w' !! p = Some (Document (Py.json_dump (PDict data)))
      /\ forall root s,
           S !! root = Some s -> root <> Main.RESERVED ->
           exists l,
             data !! root = Some (PList (PStr <$> l))
             /\ Sorted String.leb l /\ NoDup l
             /\ forall n, n ∈ l <-> n ∈ s.
Proof.
  intros e p S w.
  destruct (RoundTrip.folder_snapshot_dumps (clock e (tick w)) S) as [data Hd].
  exists data. eexists. split; [|split].
  - apply (StoreFacts.write_folder_state_ok _ _ _ _ _ Hd).
  - cbn [files]. apply lookup_insert_eq.
  - intros root s Hs Hne.
    apply StoreFacts.convert_entries_inv in Hd. specialize (Hd root).
    unfold stamped, folder_snapshot in Hd.
    rewrite lookup_insert_ne, lookup_fmap, Hs in Hd by congruence.
    cbn in Hd. destruct Hd as (y & Hy & Hdump).
    change (Main.dump_val root (FSet (names s)) = Ok y) in Hdump.
    destruct (OrderFacts.dump_val_names root s) as (l & Hl & Hsorted & Hnd & Hin).
    exists l. split; [congruence|auto].
Qed.

Lemma snapshot_file_lists_names_in_order_witness :
  Sample.two_folders !! Example.movies = Some {[ "Heat"; "Alien" ]}
  /\ exists data w',
       Main.write_folder_state Example.e "state.json"
         (folder_snapshot Sample.two_folders) Example.fresh
       = (Ok (stamped (clock Example.e (tick Example.fresh))
                (folder_snapshot Sample.two_folders)), w')
       /\ files w' !! "state.json"
          = Some (Document (Py.json_dump (PDict data)))
       /\ exists l,
            data !! Example.movies = Some (PList (PStr <$> l))
            /\ Sorted String.leb l /\ NoDup l
            /\ forall n, n ∈ l <-> n ∈ ({[ "Heat"; "Alien" ]} : gset string).
Proof.
  assert (H1 : Sample.two_folders !! Example.movies = Some {[ "Heat"; "Alien" ]})
    by (vm_compute; reflexivity).
  assert (H2 : Example.movies <> Main.RESERVED) by discriminate.
  split; [exact H1|].
  destruct (snapshot_file_lists_names_in_order Example.e "state.json"
              Sample.two_folders Example.fresh) as (data & w' & Hw & Hf & Hl).
  exists data, w'. split; [exact Hw|]. split; [exact Hf|].
  exact (Hl _ _ H1 H2).
Defined.

(** ** A scan that runs to its end *)

Module SoundFacts.
Import Py World MonadFacts Main StoreFacts ScanFacts Scraper EnrichFacts EvictFacts.

Lemma sound_cache_insert d k md :
  (forall k md, d !! k = Some md -> sound_record md) ->
  sound_record md ->
  sound_cache (PDict (<[k := md]> d)).
Proof.
  intros Hd Hmd. exists (<[k := md]> d). split; [reflexivity|].
  intros k' md'. rewrite lookup_insert. case_decide.
  - now intros [= <-].
  - apply Hd.
Qed.

Lemma sound_cache_delete d k :
  (forall k md, d !! k = Some md -> sound_record md) ->
  sound_cache (PDict (delete k d)).
Proof.
  intros Hd. exists (delete k d). split; [reflexivity|].
  intros k' md'. rewrite lookup_delete. case_decide; [discriminate|apply Hd].
Qed.

Lemma omdb_record_sound data fetched stamp :
  text_or_none (data !! "Poster") -> text_or_none (data !! "Plot") ->
  sound_record (PDict (<["added_timestamp" := PStr stamp]>
                         (omdb_record data fetched))).
Proof.
  intros Hp Hl. eexists. split; [reflexivity|]. unfold omdb_record.
  split.
  - repeat (rewrite lookup_insert_ne by discriminate).
    rewrite lookup_insert_eq.
    destruct (data !! "Poster") as [[]|]; cbn in *; auto.
  - repeat (rewrite lookup_insert_ne by discriminate).
    rewrite lookup_insert_eq.
    destruct (data !! "Plot") as [[]|]; cbn in *; auto.
Qed.

(** The provider call returns, and what it returns is sound. *)
Lemma fetch_total e title year key w :
  sound_provider e ->
  exists o w',
    fetch_media_metadata_from_omdb e title year key w = (Ok o, w')
    /\ forall record stamp, o = Some record ->
         sound_record (PDict (<["added_timestamp" := PStr stamp]> record)).
Proof.
  intros He. unfold fetch_media_metadata_from_omdb.
  destruct (String.eqb key ""); [eexists _, _; split; [reflexivity|discriminate]|].
  mstep.
  destruct (omdb e (tick w) title year) as [|[| | | | |data]] eqn:Ho;
    try (eexists _, _; split; [reflexivity|discriminate]).
  destruct (Py.eq_str _ _);
    [|eexists _, _; split; [reflexivity|discriminate]].
  mstep. eexists _, _. split; [reflexivity|].
  intros record stamp [= <-].
  destruct (He _ _ _ _ Ho). now apply omdb_record_sound.
Qed.


Lemma resolve_total cfg e n v w :
  sound_provider e -> sound_cache (cache v) ->
  exists md v' w',
    resolve_metadata cfg e n v w = (Ok (md, v'), w')
    /\ sound_cache (cache v')
    /\ (md = PNone \/ sound_record md).
Proof.
  intros He (d & Hc & Hd). unfold resolve_metadata.
  destruct (Parse.parse_folder_name n) as [title year].
  rewrite Hc. cbn [Py.get]. rewrite bind_unfold. cbn [lift].
  assert (Hfetch :
    exists md v' w',
      (fetched ← fetch_media_metadata_from_omdb e title year (omdb_api_key cfg);
       match fetched with
       | Some record =>
           stamp ← now e;
           let metadata := PDict (<["added_timestamp" := PStr stamp]> record) in
           c ← lift (Py.setitem (PDict d) n metadata);
           mret (metadata, set_cache c v)
       | None => mret (PNone, v)
       end) w = (Ok (md, v'), w')
      /\ sound_cache (cache v') /\ (md = PNone \/ sound_record md)).
  { destruct (fetch_total e title year (omdb_api_key cfg) w He)
      as (o & w1 & Hf & Ho).
    rewrite bind_unfold, Hf. destruct o as [record|].
    - mstep. eexists _, _, _. split; [reflexivity|].
      cbn [set_cache cache]. split.
      + apply sound_cache_insert; [exact Hd|]. now apply Ho.
      + right. now apply Ho.
    - eexists _, _, _. split; [reflexivity|]. split; [|now left].
      exists d. auto. }
  destruct (d !! n) as [md0|] eqn:E; cbn [default]; unfold id.
  - destruct (Hd _ _ E) as (r & -> & Hr).
    unfold is_cached. destruct (Py.truthy (PDict r)).
    + cbn [Py.contains]. rewrite bind_unfold. cbn [lift].
      destruct (bool_decide (is_Some (r !! "last_fetched"))).
      * eexists _, _, _. split; [reflexivity|]. split.
        -- exists d. auto.
        -- right. exists r. auto.
      * exact Hfetch.
    + rewrite bind_unfold. cbn [lift]. exact Hfetch.
  - unfold is_cached. cbn [Py.truthy]. rewrite bind_unfold. cbn [lift].
    exact Hfetch.
Qed.

Lemma download_total e u dir n w :
  exists o w', download_poster e (PStr u) dir n w = (Ok o, w').
Proof.
  unfold download_poster.
  destruct (negb (Py.truthy (PStr u)) || Py.eq_str (PStr u) "N/A");
    [eexists _, _; reflexivity|].
  unfold add_poster. mstep.
  destruct (posters w); mstep; destruct (download e (tick w) u); mstep;
    eexists _, _; reflexivity.
Qed.

Lemma attach_total e dir n md v w :
  sound_cache (cache v) -> md = PNone \/ sound_record md ->
  exists lp md' v' w',
    attach_poster e dir n md v w = (Ok (lp, md', v'), w')
    /\ sound_cache (cache v')
    /\ (lp <> None -> sound_record md').
Proof.
  intros (d & Hc & Hd) Hmd. unfold attach_poster.
  assert (Hskip : exists lp md' v' w',
            (mret (None, md, v) : M (option string * pyval * scan_vars)) w
            = (Ok (lp, md', v'), w')
            /\ sound_cache (cache v') /\ (lp <> None -> sound_record md')).
  { eexists _, _, _, _. split; [reflexivity|].
    split; [exists d; auto|congruence]. }
  destruct Hmd as [->|(r & -> & Hp & Hl)].
  - rewrite bind_unfold. cbn [lift has_poster_url Py.truthy]. exact Hskip.
  - unfold has_poster_url. destruct (Py.truthy (PDict r));
      [|rewrite bind_unfold; cbn [lift]; exact Hskip].
    cbn [Py.get]. cbn [mbind res_bind].
    rewrite bind_unfold. cbn [lift].
    destruct (r !! "poster_url") as [[| | |u| |]|] eqn:Eu; cbn in Hp;
      try contradiction; cbn [default]; unfold id;
      cbn [Py.truthy andb]; try exact Hskip.
    destruct (negb (u =? "") && negb (Py.eq_str (PStr u) "N/A"));
      [|exact Hskip].
    rewrite bind_unfold. cbn [lift].
    destruct (download_total e u dir n w) as (o & w1 & Hdl).
    rewrite bind_unfold, Hdl. destruct o as [path|].
    + cbn [Py.setitem]. rewrite bind_unfold. cbn [lift].
      rewrite Hc. cbn [Py.setitem]. rewrite bind_unfold. cbn [lift].
      assert (Hs : sound_record
                     (PDict (<["local_poster_path" := PStr path]> r))).
      { eexists. split; [reflexivity|].
        rewrite !lookup_insert_ne by discriminate. rewrite Eu. now split. }
      eexists _, _, _, _. split; [reflexivity|]. cbn [set_cache cache].
      split; [now apply sound_cache_insert|auto].
    + eexists _, _, _, _. split; [reflexivity|].
      split; [exists d; auto|congruence].
Qed.

Lemma build_caption_total md :
  sound_record md -> build_caption md = Ok ().
Proof.
  intros (r & -> & _ & Hl). unfold build_caption. cbn [Py.get mbind res_bind].
  destruct (r !! "plot") as [[| | |s| |]|]; cbn in Hl; try contradiction;
    cbn [default]; unfold id; cbn [Py.truthy]; try reflexivity.
  destruct (negb (s =? "")); [|reflexivity].
  cbn [Py.len mbind res_bind]. now destruct (Nat.ltb 200 (String.length s)).
Qed.

Lemma queue_total dir n lp md v w :
  sound_cache (cache v) ->
  (lp <> None -> sound_record md) ->
  exists v' w',
    queue_message dir n lp md v w = (Ok v', w') /\ sound_cache (cache v').
Proof.
  intros Hc Hmd. unfold queue_message. rewrite bind_unfold. cbn [get_world].
  destruct lp as [path|]; [|eexists _, _; split; [reflexivity|exact Hc]].
  destruct (Notifier.poster_exists dir path w);
    [|eexists _, _; split; [reflexivity|exact Hc]].
  rewrite bind_unfold. cbn [lift].
  rewrite build_caption_total by (now apply Hmd).
  eexists _, _. split; [reflexivity|exact Hc].
Qed.


Lemma handle_added_total cfg e dir n v w :
  sound_provider e -> sound_cache (cache v) ->
  exists v' w',
    handle_added cfg e dir n v w = (Ok v', w') /\ sound_cache (cache v').
Proof.
  intros He Hc. unfold handle_added.
  destruct (resolve_total cfg e n v w He Hc) as (md & v1 & w1 & H1 & Hc1 & Hmd).
  destruct (attach_total e dir n md v1 w1 Hc1 Hmd)
    as (lp & md' & v2 & w2 & H2 & Hc2 & Hmd').
  destruct (queue_total dir n lp md' v2 w2 Hc2 Hmd') as (v3 & w3 & H3 & Hc3).
  exists v3, w3. split; [|exact Hc3].
  rewrite (bind_ok _ _ _ _ _ H1). cbn beta iota.
  rewrite (bind_ok _ _ _ _ _ H2). cbn beta iota. exact H3.
Qed.

Lemma fold_loop_total {A} (l : list A) (body : A -> scan_vars -> M scan_vars)
    (Inv : scan_vars -> Prop) (ok : A -> Prop) :
  (forall x v w, ok x -> Inv v ->
     exists v' w', body x v w = (Ok v', w') /\ Inv v') ->
  Forall ok l ->
  forall v w, Inv v ->
    exists v' w', fold_loop l body v w = (Ok v', w') /\ Inv v'.
Proof.
  intros Hb Hl. induction Hl as [|x l Hx _ IH]; intros v w Hv.
  - now exists v, w.
  - destruct (Hb x v w Hx Hv) as (v1 & w1 & H1 & Hv1).
    destruct (IH v1 w1 Hv1) as (v2 & w2 & H2 & Hv2).
    exists v2, w2. split; [|exact Hv2].
    cbn [fold_loop]. now rewrite (bind_ok _ _ _ _ _ H1).
Qed.

Lemma handle_all_added_total cfg e dir s v w :
  sound_provider e -> names_only s -> sound_cache (cache v) ->
  exists v' w',
    handle_all_added cfg e dir s v w = (Ok v', w') /\ sound_cache (cache v').
Proof.
  intros He Hs Hc. unfold handle_all_added.
  destruct (sorted_names_spec s Hs) as (ns & Hsorted & _).
  rewrite bind_unfold. unfold lift. rewrite Hsorted.
  apply (fold_loop_total _ _ (fun v => sound_cache (cache v))
           (fun a => exists n, a = AStr n)); [| |exact Hc].
  - intros a v0 w0 [n ->] Hv0. now apply handle_added_total.
  - apply Forall_fmap, Forall_forall. intros n _. now exists n.
Qed.

Lemma handle_all_removed_total e s v w :
  names_only s -> sound_cache (cache v) ->
  exists v' w',
    handle_all_removed e s v w = (Ok v', w') /\ sound_cache (cache v').
Proof.
  intros Hs (d & Hc & Hd). unfold handle_all_removed.
  destruct (sorted_names_spec s Hs) as (ns & Hsorted & _).
  rewrite bind_unfold. unfold lift. rewrite Hsorted.
  destruct (removed_loop_spec e ns v w d Hc) as (v' & w' & H & C & _).
  exists v', w'. split; [exact H|].
  eexists. split; [exact C|]. intros k md. rewrite lookup_deleted.
  case_bool_decide; [discriminate|apply Hd].
Qed.

Lemma names_only_subseteq (a b : gset atom) :
  a ⊆ b -> names_only b -> names_only a.
Proof. intros Hab Hb x Hx. apply Hb, Hab, Hx. Qed.

Lemma handle_root_total cfg e dir old cur root v w a r :
  sound_provider e ->
  diff_for_path old cur root = Ok (a, r) ->
  names_only a -> names_only r ->
  sound_cache (cache v) ->
  exists v' w',
    handle_root cfg e dir old cur root v w = (Ok v', w')
    /\ sound_cache (cache v').
Proof.
  intros He Hd Ha Hr Hc. unfold handle_root.
  rewrite bind_unfold. unfold lift. rewrite Hd. cbn beta iota.
  assert (H1 : exists v1 w1,
    (if bool_decide (a ≠ ∅) then
       let v := add_part PartAddedTitle
                  (add_part (PartRoot root)
                     (set_changed (count_diff root a r v))) in
       v ← handle_all_added cfg e dir a v;
       mret (add_part PartBreak v)
     else mret (count_diff root a r v)) w = (Ok v1, w1)
    /\ sound_cache (cache v1)).
  { destruct (bool_decide (a ≠ ∅)).
    - cbv zeta.
      destruct (handle_all_added_total cfg e dir a
                  (add_part PartAddedTitle
                     (add_part (PartRoot root)
                        (set_changed (count_diff root a r v)))) w He Ha Hc)
        as (v1 & w1 & H1 & Hc1).
      eexists _, _. rewrite (bind_ok _ _ _ _ _ H1).
      split; [reflexivity|exact Hc1].
    - eexists _, _. split; [reflexivity|exact Hc]. }
  destruct H1 as (v1 & w1 & H1 & Hc1).
  rewrite (bind_ok _ _ _ _ _ H1).
  destruct (bool_decide (r ≠ ∅)).
  - cbv zeta.
    destruct (handle_all_removed_total e r
                (add_part PartRemovedTitle
                   (add_part (PartRoot root) (set_changed v1))) w1 Hr Hc1)
      as (v2 & w2 & H2 & Hc2).
    eexists _, _. rewrite (bind_ok _ _ _ _ _ H2).
    split; [reflexivity|exact Hc2].
  - eexists _, _. split; [reflexivity|exact Hc1].
Qed.

(** A state that was loaded keeps sets under the roots. *)
Lemma read_folder_state_well_keyed fs p old :
  read_folder_state fs p = Ok old -> well_keyed old.
Proof.
  unfold read_folder_state.
  assert (He : well_keyed (∅ : gmap string fsval)).
  { intros k y. now rewrite lookup_empty. }
  destruct (read_folder_state_try fs p) as [st|x] eqn:E.
  - intros [= <-]. unfold read_folder_state_try in E.
    destruct (fs !! p) as [f|]; [|now injection E as <-].
    apply res_bind_ok_inv in E as (data & _ & E).
    apply res_bind_ok_inv in E as (d & _ & E).
    apply convert_entries_inv in E. intros k y Hk. specialize (E k).
    destruct (d !! k) as [x|]; [|congruence].
    destruct E as (y' & Hy' & Hl). assert (y' = y) as -> by congruence.
    unfold load_val in Hl. destruct (String.eqb k RESERVED) eqn:Ek.
    + injection Hl as <-. now apply String.eqb_eq.
    + apply res_bind_ok_inv in Hl as (s & _ & [= <-]).
      now apply String.eqb_neq.
  - destruct x; intros [= <-]; exact He.
Qed.

Lemma diff_total old cur root s :
  well_keyed old -> sound_state old -> root <> RESERVED ->
  cur !! root = Some s -> names_only s ->
  exists a r,
    diff_for_path old cur root = Ok (a, r) /\ names_only a /\ names_only r.
Proof.
  intros Hwk Hold Hne Hcur Hs. unfold diff_for_path. rewrite Hcur.
  cbn [default]. unfold id.
  destruct (old !! root) as [[so|x]|] eqn:E; cbn [default]; unfold id.
  - eexists _, _. split; [reflexivity|]. split.
    + eapply names_only_subseteq; [|exact Hs]. apply subseteq_difference_l.
      reflexivity.
    + eapply names_only_subseteq; [|exact (Hold _ _ E)].
      apply subseteq_difference_l. reflexivity.
  - now specialize (Hwk _ _ E).
  - eexists _, _. split; [reflexivity|]. split.
    + eapply names_only_subseteq; [|exact Hs]. apply subseteq_difference_l.
      reflexivity.
    + intros x Hx. apply elem_of_difference in Hx as [Hx _].
      now apply elem_of_empty in Hx.
Qed.

Lemma reconcile_total cfg e c old :
  sound_provider e -> well_keyed old -> sound_state old ->
  RESERVED ∉ monitored_folders cfg ->
  sound_cache c ->
  forall w, exists v w',
    reconcile cfg e c old (scan_current_state e (monitored_folders cfg)) w
    = (Ok v, w')
    /\ sound_cache (cache v).
Proof.
  intros He Hwk Hold Hres Hc w. unfold reconcile.
  apply (fold_loop_total _ _ (fun v => sound_cache (cache v))
           (fun root => root ∈ monitored_folders cfg)); [| |exact Hc].
  - intros root v0 w0 Hin Hv0.
    pose proof (current_state_monitored e _ _ Hin) as Hcur.
    assert (Hne : root <> RESERVED) by (intros ->; contradiction).
    destruct (diff_total old _ root _ Hwk Hold Hne Hcur
                (listed_names_only _)) as (a & r & Hd & Ha & Hr).
    now apply (handle_root_total _ _ _ _ _ _ _ _ a r).
  - now apply Forall_forall.
Qed.

End SoundFacts.

(** X16. A scan runs to its end on sound inputs and leaves sound inputs to
    the next one.  Let no monitored root be the reserved key, let the
    provider give the poster address and the plot as texts, let the cache
    loaded be a dictionary of such records and the sets of the state loaded
    hold names only (as is the case when there is no file yet).  Then the
    scan returns; the cache it ends with is again such a dictionary, and is
    what the cache file gives back; and, the two files being distinct, the
    state the snapshot file gives back again holds names only. *)
Theorem scan_runs_to_its_end :
  forall cfg e w c old,
    Main.RESERVED ∉ monitored_folders cfg ->
    sound_provider e ->
    Scraper.read_media_metadata (files w) (Main.media_metadata_file cfg) = Ok c ->
    sound_cache c ->
    Main.read_folder_state (files w) (Main.folder_list_path cfg) = Ok old ->
    sound_state old ->
    exists v w',
      Main.periodic_folder_scan cfg e w = (Ok v, w')
      /\ sound_cache (cache v)
      /\ Scraper.read_media_metadata (files w') (Main.media_metadata_file cfg)
         = Ok (cache v)
      /\ (Main.folder_list_path cfg <> Main.media_metadata_file cfg ->
          exists old',
            Main.read_folder_state (files w') (Main.folder_list_path cfg)
            = Ok old'
            /\ sound_state old').
Proof.
  intros cfg e w c old Hres He Hc Hsc Hold Hso.
  destruct (ScanFacts.load_state_spec cfg e w) as (c' & old' & Hc' & Hold' & Hl).
  assert (c' = c) as -> by congruence.
  assert (old' = old) as -> by congruence.
  set (cur := Main.scan_current_state e (monitored_folders cfg)) in *.
  set (w1 := {| files := files w |}) in Hl.
  destruct (SoundFacts.reconcile_total cfg e c old He
              (SoundFacts.read_folder_state_well_keyed _ _ _ Hold) Hso Hres Hsc w1)
    as (v & w2 & Hr & Hv).
  destruct (NotifyFacts.notify_returns cfg e v w2) as [w3 Hn].
  destruct (ScanFacts.persist_spec cfg e (monitored_folders cfg) v w3)
    as (data & Hd & Hp).
  fold cur in Hd, Hp, Hr.
  eexists v, _. split; [|split; [exact Hv|split]].
  - eapply ScanFacts.scan_intro; [exact Hl|exact Hr|exact Hn|exact Hp].
  - cbn [files]. destruct Hv as (d & Hcv & _). rewrite Hcv.
    eapply RoundTrip.read_media_metadata_loaded.
    + apply lookup_insert_eq.
    + apply (JsonFacts.json_roundtrip (PDict d)).
  - intros Hpaths. cbn [files].
    exists (stamped (clock e (tick w3)) (FSet <$> cur)). split.
    + eapply StoreFacts.read_folder_state_document.
      * rewrite lookup_insert_ne by congruence. apply lookup_insert_eq.
      * apply StoreFacts.dump_load_entries; [|exact Hd].
        apply QuietFacts.current_state_well_keyed.
    + intros root s. unfold stamped. rewrite lookup_insert.
      case_decide; [discriminate|]. rewrite lookup_fmap.
      destruct (cur !! root) as [s'|] eqn:E; [|discriminate].
      intros [= <-]. eapply ScanFacts.current_state_names_only, E.
Qed.

Lemma scan_runs_to_its_end_witness :
  sound_provider Example.e
  /\ exists v w',
       Main.periodic_folder_scan Example.cfg Example.e Example.fresh
       = (Ok v, w')
       /\ sound_cache (cache v)
       /\ Scraper.read_media_metadata (files w')
            (Main.media_metadata_file Example.cfg) = Ok (cache v)
       /\ (Main.folder_list_path Example.cfg
           <> Main.media_metadata_file Example.cfg ->
           exists old',
             Main.read_folder_state (files w')
               (Main.folder_list_path Example.cfg) = Ok old'
             /\ sound_state old').
Proof.
  assert (H1 : Main.RESERVED ∉ monitored_folders Example.cfg)
    by (refine (bool_decide_unpack _ _); vm_compute; exact I).
  assert (H2 : sound_provider Example.e).
  { intros t title year data [= <-]. split; vm_compute; exact I. }
  assert (H3 : Scraper.read_media_metadata (files Example.fresh)
                 (Main.media_metadata_file Example.cfg) = Ok (PDict ∅))
    by reflexivity.
  assert (H4 : sound_cache (PDict ∅)).
  { exists ∅. split; [reflexivity|]. intros k md. now rewrite lookup_empty. }
  assert (H5 : Main.read_folder_state (files Example.fresh)
                 (Main.folder_list_path Example.cfg) = Ok ∅)
    by reflexivity.
  assert (H6 : sound_state ∅).
  { intros root s. now rewrite lookup_empty. }
  split; [exact H2|].
  exact (scan_runs_to_its_end _ _ _ _ _ H1 H2 H3 H4 H5 H6).
Defined.

(** ** The status command *)

Module StatusFacts.
Import Handler.

#[local] Instance AStr_inj : Inj (=) (=) AStr.
Proof. now intros a b [= ->]. Qed.

Lemma size_listed (l : list string) :
  size (list_to_set (AStr <$> l) : gset atom) = length (remove_dups l).
Proof.
  rewrite <- (length_fmap AStr (remove_dups l)).
  rewrite <- (size_list_to_set (C := gset atom)).
  - f_equal. apply set_eq. intros x.
    rewrite !elem_of_list_to_set, !list_elem_of_fmap.
    split; intros (n & -> & Hn); exists n; (split; [reflexivity|]);
      now apply elem_of_remove_dups.
  - apply (NoDup_fmap_2 AStr), NoDup_remove_dups.
Qed.

Lemma breakdown_lines (st : gmap string fsval) (count : string -> nat) roots :
  (forall root, root ∈ roots ->
     len_entry (default (FSet ∅) (st !! root)) = Ok (count root)) ->
  mapM (fun folder_path_key =>
          count ← len_entry (default (FSet ∅) (st !! folder_path_key));
          Ok (basename folder_path_key, count)) roots
  = Ok ((fun root => (basename root, count root)) <$> roots).
Proof.
  induction roots as [|root roots IH]; intros H; [reflexivity|].
  cbn [mapM]. rewrite (H root) by apply list_elem_of_here.
  cbn [mbind res_bind]. rewrite IH; [reflexivity|].
  intros r Hr. apply H. now apply list_elem_of_further.
Qed.

End StatusFacts.

(** X17. After a scan that reached its end, the library breakdown of the
    status command lists, for every monitored folder, the number of
    sub-folders the scan found in it (no monitored folder being the
    reserved key). *)
Theorem status_shows_the_last_scan :
  forall cfg e w v w',
    Main.RESERVED ∉ monitored_folders cfg ->
    Main.periodic_folder_scan cfg e w = (Ok v, w') ->
    Handler.library_breakdown (monitored_folders cfg) (bot_folder_state w')
    = Ok (Some ((fun root =>
                   (Handler.basename root,
                    length (remove_dups (Main.get_subfolders e root))))
                <$> monitored_folders cfg)).
Proof.
  intros cfg e w v w' Hres H.
  apply ScanFacts.scan_inv in H as (c & old & w1 & w2 & w3 & _ & _ & _ & Hp).
  destruct (ScanFacts.persist_spec cfg e (monitored_folders cfg) v w3)
    as (data & _ & Hp').
  rewrite Hp' in Hp. injection Hp as <-. cbn [bot_folder_state].
  unfold Handler.library_breakdown.
  rewrite bool_decide_eq_false_2.
  - rewrite (StatusFacts.breakdown_lines _
               (fun root => length (remove_dups (Main.get_subfolders e root))));
      [reflexivity|].
    intros root Hin. unfold stamped.
    rewrite lookup_insert_ne by (intros <-; contradiction).
    rewrite lookup_fmap, (ScanFacts.current_state_monitored _ _ _ Hin).
    cbn. now rewrite StatusFacts.size_listed.
  - unfold stamped. intros Hempty.
    apply (f_equal (fun m => m !! Main.RESERVED)) in Hempty.
    now rewrite lookup_insert_eq, lookup_empty in Hempty.
Qed.

Lemma status_shows_the_last_scan_witness :
  Main.periodic_folder_scan Example.cfg Example.e Example.fresh
  = (Ok (Example.scanned Example.fresh).1, (Example.scanned Example.fresh).2)
  /\ Handler.library_breakdown (monitored_folders Example.cfg)
       (bot_folder_state (Example.scanned Example.fresh).2)
     = Ok (Some [("movies", 1)]).
Proof.
  assert (H1 : Main.RESERVED ∉ monitored_folders Example.cfg)
    by (refine (bool_decide_unpack _ _); vm_compute; exact I).
  assert (H2 : Main.periodic_folder_scan Example.cfg Example.e Example.fresh
               = (Ok (Example.scanned Example.fresh).1, (Example.scanned Example.fresh).2))
    by (vm_compute; reflexivity).
  split; [exact H2|].
  exact (status_shows_the_last_scan _ _ _ _ _ H1 H2).
Defined.

(** ** The messages of an answer *)

Module ReplyFacts.
Import Replies StrFacts.

Lemma paginate_from_groups cont texts cur :
  exists first groups,
    texts = first ++ concat groups
    /\ Forall (fun g => g <> []) groups
    /\ paginate_from cont texts cur
       = (cur +:+ joined first) :: ((fun g => cont +:+ joined g) <$> groups).
Proof.
  revert cur. induction texts as [|t texts IH]; intros cur.
  - exists [], []. cbn. now rewrite append_nil_r.
  - cbn [paginate_from].
    destruct (Nat.ltb 3500 (String.length cur + String.length t)).
    + destruct (IH (cont +:+ t)) as (first & groups & -> & Hg & ->).
      exists [], ((t :: first) :: groups). split; [reflexivity|].
      split; [constructor; [discriminate|exact Hg]|].
      cbn. now rewrite append_nil_r, append_assoc.
    + destruct (IH (cur +:+ t)) as (first & groups & -> & Hg & ->).
      exists (t :: first), groups. split; [reflexivity|].
      split; [exact Hg|]. cbn. now rewrite append_assoc.
Qed.

Lemma paginate_from_bound cont texts cur :
  String.length cur <= 3500 ->
  Forall (fun t => String.length cont + String.length t <= 3500) texts ->
  Forall (fun page => String.length page <= 3500) (paginate_from cont texts cur).
Proof.
  intros Hcur Ht. revert cur Hcur.
  induction Ht as [|t texts Hfit _ IH]; intros cur Hcur.
  - cbn [paginate_from]. constructor; [exact Hcur|constructor].
  - cbn [paginate_from].
    destruct (Nat.ltb_spec 3500 (String.length cur + String.length t)).
    + constructor; [exact Hcur|]. apply IH. now rewrite length_append.
    + apply IH. rewrite length_append. lia.
Qed.

End ReplyFacts.

(** X18. The messages of an answer hold every item, whole and in order: the
    first message is the heading followed by the first items, each further
    message is the heading of a continuation followed by at least one
    item, and the items of the messages, put end to end, are the items of
    the answer.  When the heading and, after the heading of a
    continuation, every item fit in 3500 characters, so does every
    message. *)
Theorem answer_pages_hold_every_item :
  forall header cont texts,
    (exists first groups,
        texts = first ++ concat groups
        /\ Forall (fun g => g <> []) groups
        /\ Replies.paginate header cont texts
           = (header +:+ joined first)
             :: ((fun g => cont +:+ joined g) <$> groups))
    /\ (String.length header <= 3500 ->
        Forall (fun t => String.length cont + String.length t <= 3500) texts ->
        Forall (fun page => String.length page <= 3500)
               (Replies.paginate header cont texts)).
Proof.
  intros header cont texts. split.
  - apply ReplyFacts.paginate_from_groups.
  - apply ReplyFacts.paginate_from_bound.
Qed.

Lemma answer_pages_hold_every_item_witness :
  String.length "*Results for 'a':*" <= 3500
  /\ Replies.paginate "*Results for 'a':*" "*(cont.)*" ["Alien"; "Heat"]
     = ["*Results for 'a':*AlienHeat"]
  /\ Forall (fun page => String.length page <= 3500)
       (Replies.paginate "*Results for 'a':*" "*(cont.)*"
          ["Alien"; "Heat"]).
Proof.
  assert (H1 : String.length "*Results for 'a':*" <= 3500)
    by (vm_compute; lia).
  assert (H2 : Forall (fun t => String.length "*(cont.)*" + String.length t
                               <= 3500) ["Alien"; "Heat"])
    by (repeat constructor; vm_compute; lia).
  split; [exact H1|]. split; [vm_compute; reflexivity|].
  exact (proj2 (answer_pages_hold_every_item _ _ _) H1 H2).
Defined.

(** X19. Of the messages of an answer only the first is ever sent: the loop
    that sends them makes one reply, with the first message escaped, and
    then raises on the name asyncio, which the module of the handlers does
    not import (or it raises before, when that reply fails). *)
Theorem only_the_first_page_is_sent :
  forall fails header cont texts sent,
    exists first_page further_pages,
      Replies.paginate header cont texts = first_page :: further_pages
      /\ Replies.send_pages fails (Replies.paginate header cont texts) sent
         = if fails (length sent) then (Some Replies.ReplyFailed, sent)
           else (Some Replies.NameError,
                 sent ++ [Markdown.escape_markdown_v2 first_page]).
Proof.
  intros fails header cont texts sent.
  destruct (ReplyFacts.paginate_from_groups cont texts header)
    as (first & groups & _ & _ & H).
  unfold Replies.paginate. rewrite H. eexists _, _. split; [reflexivity|].
  cbn [Replies.send_pages]. now destruct (fails (length sent)).
Qed.

(** ** The senders *)

Module SenderFacts.
Import World MonadFacts Main Notifier ScanFacts.

Lemma send_message_returns cfg e w :
  exists w',
    send_telegram_message cfg e w = (Ok (), w')
    /\ (trace w' = trace w \/ exists ok, trace w' = EvSendText ok :: trace w).
Proof.
  unfold send_telegram_message.
  destruct (_ || _); [exists w; split; [reflexivity|now left]|].
  unfold catch, api_call, log_and_return. mstep.
  destruct (telegram e (tick w)); mstep; eexists; (split; [reflexivity|]);
    right; eexists; reflexivity.
Qed.

Lemma send_photo_returns cfg e dir path w :
  exists w',
    send_telegram_photo cfg e dir path w = (Ok (), w')
    /\ (trace w' = trace w
        \/ (poster_exists dir path w = true
            /\ exists ok, trace w' = EvSendPhoto path ok :: trace w)).
Proof.
  unfold send_telegram_photo.
  destruct (_ || _); [exists w; split; [reflexivity|now left]|].
  mstep. destruct (poster_exists dir path w) eqn:Hp;
    [|exists w; split; [reflexivity|now left]].
  unfold catch, api_call, log_and_return. mstep.
  destruct (telegram e (tick w)); mstep; eexists; (split; [reflexivity|]);
    right; (split; [reflexivity|]); eexists; reflexivity.
Qed.

Lemma send_photos_returns cfg e dir photos w :
  exists w',
    for_each photos (fun photo_path =>
      photo_sent_successfully ←
        catch (_ ← send_telegram_photo cfg e dir photo_path; mret true)
              (fun x => if is_Exception x then mret false else lift (Raise x));
      if photo_sent_successfully : bool then mret ()
      else send_telegram_message cfg e) w = (Ok (), w')
    /\ List.filter is_text (trace w') = List.filter is_text (trace w).
Proof.
  revert w. induction photos as [|p photos IH]; intros w.
  - exists w. now split.
  - destruct (send_photo_returns cfg e dir p w) as (w1 & H1 & T1).
    destruct (IH w1) as (w2 & H2 & T2).
    assert (Hc : catch (_ ← send_telegram_photo cfg e dir p; mret true)
                   (fun x => if is_Exception x then mret false
                             else lift (Raise x)) w = (Ok true, w1)).
    { unfold catch. now rewrite (bind_ok _ _ _ _ _ H1). }
    exists w2. cbn [for_each].
    rewrite (bind_ok _ _ _ _ _ (bind_ok _ _ _ _ _ Hc)). cbn beta iota.
    split; [exact H2|]. rewrite T2.
    destruct T1 as [->|(_ & ok & ->)]; reflexivity.
Qed.

End SenderFacts.

(** X20. The two senders never raise: whatever the chat API does, each
    returns, having made one call at most; and the photo sender makes none
    when the photo file does not exist. *)
Theorem senders_never_raise :
  forall cfg e dir path w,
    (exists w',
        Notifier.send_telegram_message cfg e w = (Ok (), w')
        /\ (trace w' = trace w
            \/ exists ok, trace w' = EvSendText ok :: trace w))
    /\ (exists w',
          Notifier.send_telegram_photo cfg e dir path w = (Ok (), w')
          /\ (trace w' = trace w
              \/ (Notifier.poster_exists dir path w = true
                  /\ exists ok, trace w' = EvSendPhoto path ok :: trace w))).
Proof.
  intros cfg e dir path w. split.
  - apply SenderFacts.send_message_returns.
  - apply SenderFacts.send_photo_returns.
Qed.

(** X21. The text that stands in for a photo is never sent: the loop over
    the photo messages returns without having sent a text message,
    whatever the chat API does with the photos. *)
Theorem photo_fallback_is_never_sent :
  forall cfg e dir v w,
    exists w',
      Main.send_photos cfg e dir v w = (Ok (), w')
      /\ List.filter is_text (trace w') = List.filter is_text (trace w).
Proof.
  intros cfg e dir v w. apply SenderFacts.send_photos_returns.
Qed.

(** ** The plot of a caption *)

Module CaptionFacts.
Import Caption.
Local Open Scope char_scope.



End CaptionFacts.



(** ** A text cut into parts *)

Module SplitFacts.
Import Split StrFacts.

(** A text that starts with a star is not blank. *)
Lemma strip_star t : strip (String "*" t) <> "".
Proof.
  unfold strip, Str.chars, Str.strip. cbn [list_ascii_of_string Str.rstrip].
  destruct (Str.rstrip (list_ascii_of_string t)); discriminate.
Qed.

Lemma split_loop_groups max sections :
  forall cur k,
    (exists t, cur = String "*" t) ->
    exists first groups,
      sections = first ++ concat groups
      /\ Forall (fun g => g <> []) groups
      /\ split_loop max sections cur k
         = strip (cur +:+ sections_text first)
           :: imap (fun i g => strip (part_heading (i + S k) +:+ sections_text g))
                   groups.
Proof.
  induction sections as [|s sections IH]; intros cur k [t ->].
  - exists [], []. split; [reflexivity|split; [constructor|]].
    cbn [split_loop sections_text joined fmap list_fmap foldr imap].
    rewrite append_nil_r.
    destruct (String.eqb_spec (strip (String "*" t)) "") as [E|_];
      [now apply strip_star in E|reflexivity].
  - cbn [split_loop].
    destruct (_ <? _)%Z.
    + destruct (IH (part_heading (S k) +:+ s +:+ LF2) (S k))
        as (first & groups & -> & Hg & ->); [eexists; reflexivity|].
      exists [], ((s :: first) :: groups). split; [reflexivity|].
      split; [constructor; [discriminate|exact Hg]|].
      cbn [sections_text joined fmap list_fmap foldr imap]. rewrite append_nil_r.
      f_equal. f_equal.
      * cbn [Nat.add]. f_equal. now rewrite !append_assoc.
      * apply imap_ext. intros i g _. cbn. do 3 f_equal. lia.
    + destruct (IH (String "*" t +:+ s +:+ LF2) k)
        as (first & groups & -> & Hg & ->); [eexists; reflexivity|].
      exists (s :: first), groups. split; [reflexivity|].
      split; [exact Hg|]. f_equal.
      cbn [sections_text joined fmap list_fmap foldr]. f_equal.
      now rewrite !append_assoc.
Qed.

End SplitFacts.

(** X23. A text that is cut into parts loses no section: the first part is
    the first heading with the first sections, each further part is the
    heading of its number (2, 3, ...) with at least one section, every part
    being trimmed; the sections of the parts, put end to end, are the
    sections given, and there is always a first part. *)
Theorem split_text_holds_every_section :
  forall max sections,
    exists first groups,
      sections = first ++ concat groups
      /\ Forall (fun g => g <> []) groups
      /\ Split.split_text max sections
         = Split.strip (Split.first_heading +:+ sections_text first)
           :: imap (fun i g =>
                      Split.strip (Split.part_heading (i + 2) +:+ sections_text g))
                   groups.
Proof.
  intros max sections. unfold Split.split_text.
  apply SplitFacts.split_loop_groups. eexists. reflexivity.
Qed.

Module RequestFacts.
Import World MonadFacts Main Scraper Notifier Frame SilenceFacts ScanFacts
  EnrichFacts.

Lemma none_of_count kind w w' : none_of kind w w' -> count_of kind w' = count_of kind w.
Proof. unfold none_of, count_of. now intros ->. Qed.

(** The provider is asked once at most for one folder. *)
Lemma resolve_one_lookup cfg e n v w r w' :
  resolve_metadata cfg e n v w = (r, w') ->
  count_of is_lookup w' <= S (count_of is_lookup w).
Proof.
  unfold resolve_metadata. destruct (Parse.parse_folder_name n) as [title year].
  mrun. destruct (Py.get (cache v) n) as [md0|]; mrun;
    [|intros [= <- <-]; lia].
  destruct (is_cached md0) as [[]|]; mrun; try (intros [= <- <-]; lia).
  unfold fetch_media_metadata_from_omdb.
  destruct (String.eqb (omdb_api_key cfg) ""); mrun;
    [intros [= <- <-]; lia|].
  destruct (omdb e (tick w) title year) as [|[| | | | |data]]; mrun;
    try (intros [= <- <-]; unfold count_of; cbn; lia).
  match goal with |- context [Py.eq_str ?a ?b] => destruct (Py.eq_str a b) end;
    mrun; [|intros [= <- <-]; unfold count_of; cbn; lia].
  match goal with |- context [Py.setitem ?a ?b ?c] =>
    destruct (Py.setitem a b c) end; mrun;
    intros [= <- <-]; unfold count_of; cbn; lia.
Qed.

Lemma resolve_no_download cfg e n v :
  preserves (none_of is_download) (resolve_metadata cfg e n v).
Proof.
  unfold resolve_metadata, fetch_media_metadata_from_omdb, now.
  frame (none_of is_download).
Qed.

(** One poster is asked for at most for one folder. *)
Lemma download_one e url dir n w r w' :
  download_poster e url dir n w = (r, w') ->
  count_of is_download w' <= S (count_of is_download w)
  /\ count_of is_lookup w' = count_of is_lookup w.
Proof.
  unfold download_poster.
  destruct (negb (Py.truthy url) || Py.eq_str url "N/A");
    [intros [= <- <-]; split; [lia|reflexivity]|].
  unfold add_poster. mstep.
  destruct (posters w); mstep; destruct url; mstep;
    try (intros [= <- <-]; unfold count_of; cbn; split; [lia|reflexivity]);
    destruct (download e (tick w) s); mstep;
    intros [= <- <-]; unfold count_of; cbn; split; try lia; reflexivity.
Qed.

Lemma attach_one_download e dir n md v w r w' :
  attach_poster e dir n md v w = (r, w') ->
  count_of is_download w' <= S (count_of is_download w)
  /\ count_of is_lookup w' = count_of is_lookup w.
Proof.
  unfold attach_poster. mrun.
  destruct (has_poster_url md) as [[]|]; mrun;
    try (intros [= <- <-]; split; [lia|reflexivity]).
  destruct (Py.get md "poster_url") as [url|]; mrun;
    [|intros [= <- <-]; split; [lia|reflexivity]].
  destruct (download_poster e url dir n w) as [[[path|]|] w1] eqn:E;
    apply download_one in E; mrun;
    try (intros [= <- <-]; exact E).
  destruct (Py.setitem md "local_poster_path" (PStr path)) as [md1|];
    mrun; [|intros [= <- <-]; exact E].
  match goal with |- context [Py.setitem ?a ?b ?c] =>
    destruct (Py.setitem a b c) end; mrun; intros [= <- <-]; exact E.
Qed.

Lemma queue_no_request dir n lp md v w r w' :
  queue_message dir n lp md v w = (r, w') -> w' = w.
Proof.
  unfold queue_message. mrun.
  destruct lp as [path|]; [|now intros [= <- <-]].
  destruct (Notifier.poster_exists dir path w); [|now intros [= <- <-]].
  mrun. destruct (build_caption md); mrun; now intros [= <- <-].
Qed.

(** One added folder: one lookup and one download at most. *)
Lemma handle_added_requests cfg e dir n v w v' w' :
  handle_added cfg e dir n v w = (Ok v', w') ->
  count_of is_lookup w' <= S (count_of is_lookup w)
  /\ count_of is_download w' <= S (count_of is_download w).
Proof.
  intros H. unfold handle_added in H.
  apply bind_ok_inv in H as ([md v1] & w1 & H1 & H).
  apply bind_ok_inv in H as ([[lp md'] v2] & w2 & H2 & H3).
  pose proof (resolve_one_lookup _ _ _ _ _ _ _ H1) as L1.
  pose proof (none_of_count _ _ _ (resolve_no_download _ _ _ _ _ _ _ H1)) as D1.
  apply attach_one_download in H2 as [D2 L2].
  apply queue_no_request in H3 as ->. lia.
Qed.

Lemma handle_removed_no_request kind e n v :
  (forall f ok, kind (EvRemovePoster f ok) = false) ->
  preserves (none_of kind) (handle_removed e n v).
Proof.
  intros Hk. unfold handle_removed, delete_poster, delete_one.
  assert (forall f ok, preserves (none_of kind) (emit (EvRemovePoster f ok)))
    by (intros; apply emit_none_of, Hk).
  frame (none_of kind).
Qed.

Lemma added_loop_requests cfg e dir l v w v' w' :
  fold_loop l
    (fun a v => match a with
                | AStr folder_name => handle_added cfg e dir folder_name v
                | _ => lift (Raise TypeError)
                end) v w = (Ok v', w') ->
  count_of is_lookup w' <= count_of is_lookup w + length l
  /\ count_of is_download w' <= count_of is_download w + length l.
Proof.
  revert v w. induction l as [|a l IH]; intros v w.
  - intros [= <- <-]. cbn. lia.
  - cbn [fold_loop]. intros H.
    apply bind_ok_inv in H as (v1 & w1 & H1 & H2).
    destruct a as [n| |]; try discriminate.
    apply handle_added_requests in H1. apply IH in H2. cbn [length]. lia.
Qed.

Lemma handle_root_requests cfg e dir old cur root v w v' w' :
  handle_root cfg e dir old cur root v w = (Ok v', w') ->
  exists a r,
    diffs v' = (root, (a, r)) :: diffs v
    /\ count_of is_lookup w' <= count_of is_lookup w + size a
    /\ count_of is_download w' <= count_of is_download w + size a.
Proof.
  intros H.
  destruct (StampFacts.handle_root_holds "" PNone None _ _ _ _ _ _ _ _ _ _ H)
    as (a & r & Hd & D & _).
  exists a, r. split; [exact D|].
  unfold handle_root in H.
  apply bind_ok_inv in H as ([a' r'] & w0 & H0 & H).
  apply lift_ok_inv in H0 as [Hd' ->].
  assert (a' = a /\ r' = r) as [-> ->] by (split; congruence).
  apply bind_ok_inv in H as (v1 & w1 & H1 & H2).
  assert (B1 : count_of is_lookup w1 <= count_of is_lookup w + size a
               /\ count_of is_download w1 <= count_of is_download w + size a).
  { destruct (bool_decide (a ≠ ∅)).
    - apply bind_ok_inv in H1 as (v0 & w0 & H0 & [= <- <-]).
      unfold handle_all_added in H0.
      apply bind_ok_inv in H0 as (l & w2 & Hl & H0).
      apply lift_ok_inv in Hl as [Hl ->].
      apply added_loop_requests in H0.
      now rewrite (TallyFacts.sorted_length _ _ Hl) in H0.
    - injection H1 as <- <-. lia. }
  assert (B2 : count_of is_lookup w' = count_of is_lookup w1
               /\ count_of is_download w' = count_of is_download w1).
  { destruct (bool_decide (r ≠ ∅)).
    - apply bind_ok_inv in H2 as (v0 & w0 & H0 & [= <- <-]).
      unfold handle_all_removed in H0.
      apply bind_ok_inv in H0 as (l & w2 & Hl & H0).
      apply lift_ok_inv in Hl as [_ ->].
      split; apply none_of_count;
        (eapply (preserves_fold_loop (none_of _)); [|exact H0]);
        intros [m| |] s; try apply (preserves_lift (none_of _));
        now apply handle_removed_no_request.
    - now injection H2 as <- <-. }
  lia.
Qed.

Lemma roots_loop_requests cfg e dir old cur roots v w v' w' :
  fold_loop roots (handle_root cfg e dir old cur) v w = (Ok v', w') ->
  exists pre,
    diffs v' = pre ++ diffs v
    /\ count_of is_lookup w' <= count_of is_lookup w + total_added pre
    /\ count_of is_download w' <= count_of is_download w + total_added pre.
Proof.
  revert v w. induction roots as [|root roots IH]; intros v w.
  - intros [= <- <-]. exists []. cbn. split; [reflexivity|lia].
  - cbn [fold_loop]. intros H.
    apply bind_ok_inv in H as (v1 & w1 & H1 & H2).
    apply handle_root_requests in H1 as (a & r & D1 & L1 & X1).
    destruct (IH _ _ H2) as (pre & D & L & X).
    exists (pre ++ [(root, (a, r))]).
    assert (Ha : total_added (pre ++ [(root, (a, r))]) = total_added pre + size a).
    { clear. unfold total_added.
      induction pre as [|x pre IH]; cbn [app foldr fst snd];
        [lia|rewrite IH; lia]. }
    rewrite Ha, D, D1, <- app_assoc. split; [reflexivity|lia].
Qed.

Lemma scan_edges_make_no_request kind cfg e :
  kind (EvWriteFolderState (folder_list_path cfg)) = false ->
  kind (EvWriteMetadata (media_metadata_file cfg)) = false ->
  (forall p ok, kind (EvSendPhoto p ok) = false) ->
  (forall ok, kind (EvSendText ok) = false) ->
  preserves (none_of kind) (load_state cfg e)
  /\ (forall v, preserves (none_of kind) (notify cfg e v))
  /\ (forall cur v, preserves (none_of kind) (persist cfg e cur v)).
Proof.
  intros K1 K2 K3 K4.
  assert (forall p ok, preserves (none_of kind) (emit (EvSendPhoto p ok)))
    by (intros; apply emit_none_of, K3).
  assert (forall ok, preserves (none_of kind) (emit (EvSendText ok)))
    by (intros; apply emit_none_of, K4).
  assert (preserves (none_of kind)
            (emit (EvWriteFolderState (folder_list_path cfg))))
    by (apply emit_none_of, K1).
  assert (preserves (none_of kind)
            (emit (EvWriteMetadata (media_metadata_file cfg))))
    by (apply emit_none_of, K2).
  split; [|split]; intros.
  - unfold load_state. frame (none_of kind).
  - unfold notify, send_photos, send_text, send_telegram_message,
      send_telegram_photo, api_call, log_and_return.
    frame (none_of kind).
  - unfold persist, write_folder_state, write_media_metadata, dump_file, now.
    frame (none_of kind).
Qed.

End RequestFacts.

(** X24. A scan asks the provider once at most, and a poster server once at
    most, for each folder it counts as added: when it reaches its end, the
    lookups it has made, and the downloads it has started, are no more
    than the added folders of its report. *)
Theorem requests_are_bounded_by_additions :
  forall cfg e w v w',
    Main.periodic_folder_scan cfg e w = (Ok v, w') ->
    count_of is_lookup w' <= count_of is_lookup w + overall_added_count v
    /\ count_of is_download w' <= count_of is_download w + overall_added_count v.
Proof.
  intros cfg e w v w' H.
  pose proof (TallyFacts.roots_loop_tally) as HT.
  apply ScanFacts.scan_inv in H as (c & old & w1 & w2 & w3 & Hl & Hr & Hn & Hp).
  destruct (HT _ _ _ _ _ _ _ _ _ _ Hr) as (pre' & D' & A & _).
  apply RequestFacts.roots_loop_requests in Hr as (pre & D & L & X).
  assert (pre' = pre) as ->.
  { rewrite D' in D. now apply app_inv_tail in D. }
  cbn [tally_of added_count Main.initial_vars overall_added_count] in A.
  destruct (RequestFacts.scan_edges_make_no_request is_lookup cfg e)
    as (E1 & E2 & E3); try reflexivity.
  destruct (RequestFacts.scan_edges_make_no_request is_download cfg e)
    as (F1 & F2 & F3); try reflexivity.
  pose proof (RequestFacts.none_of_count _ _ _ (E1 _ _ _ Hl)) as L1.
  pose proof (RequestFacts.none_of_count _ _ _ (F1 _ _ _ Hl)) as X1.
  pose proof (RequestFacts.none_of_count _ _ _ (E2 _ _ _ _ Hn)) as L2.
  pose proof (RequestFacts.none_of_count _ _ _ (F2 _ _ _ _ Hn)) as X2.
  pose proof (RequestFacts.none_of_count _ _ _ (E3 _ _ _ _ _ Hp)) as L3.
  pose proof (RequestFacts.none_of_count _ _ _ (F3 _ _ _ _ _ Hp)) as X3.
  lia.
Qed.

Lemma requests_are_bounded_by_additions_witness :
  Main.periodic_folder_scan Example.cfg Example.e Example.fresh
  = (Ok (Example.scanned Example.fresh).1, (Example.scanned Example.fresh).2)
  /\ overall_added_count (Example.scanned Example.fresh).1 = 1
  /\ count_of is_lookup (Example.scanned Example.fresh).2
     <= count_of is_lookup Example.fresh
        + overall_added_count (Example.scanned Example.fresh).1
  /\ count_of is_download (Example.scanned Example.fresh).2
     <= count_of is_download Example.fresh
        + overall_added_count (Example.scanned Example.fresh).1.
Proof.
  assert (H : Main.periodic_folder_scan Example.cfg Example.e Example.fresh
              = (Ok (Example.scanned Example.fresh).1,
                 (Example.scanned Example.fresh).2))
    by (vm_compute; reflexivity).
  split; [exact H|]. split; [vm_compute; reflexivity|].
  exact (requests_are_bounded_by_additions _ _ _ _ _ H).
Defined.

Module KeepFacts.
Import World MonadFacts Main Scraper Notifier Frame.

Section Keeps.
Context (P : string -> Prop).

#[global] Instance keeps_refl : Reflexive (keeps P).
Proof. intros w g Hg. now left. Qed.

#[global] Instance keeps_trans : Transitive (keeps P).
Proof.
  intros w1 w2 w3 H1 H2 g Hg.
  destruct (H1 g Hg) as [Hg2|HP]; [exact (H2 g Hg2)|now right].
Qed.

Lemma same_posters_keeps w w' : poster_files w ⊆ poster_files w' -> keeps P w w'.
Proof. intros H g Hg. left. now apply H. Qed.

Lemma emit_keeps ev : preserves (keeps P) (emit ev).
Proof. intros w r w' [= <- <-]. now apply same_posters_keeps. Qed.

Lemma next_tick_keeps : preserves (keeps P) next_tick.
Proof. intros w r w' [= <- <-]. now apply same_posters_keeps. Qed.

Lemma set_files_keeps f : preserves (keeps P) (set_files f).
Proof. intros w r w' [= <- <-]. now apply same_posters_keeps. Qed.

Lemma set_bot_folder_state_keeps d :
  preserves (keeps P) (set_bot_folder_state d).
Proof. intros w r w' [= <- <-]. now apply same_posters_keeps. Qed.

Lemma download_poster_keeps e url dir n :
  preserves (keeps P) (download_poster e url dir n).
Proof.
  intros w r w'. unfold download_poster.
  destruct (negb (Py.truthy url) || Py.eq_str url "N/A");
    [intros [= <- <-]; reflexivity|].
  unfold add_poster. ScanFacts.mstep.
  destruct (posters w) as [ps|] eqn:Hp; ScanFacts.mstep;
    destruct url; ScanFacts.mstep;
    try (intros [= <- <-]; apply same_posters_keeps;
         unfold poster_files; cbn [posters default]; rewrite ?Hp;
         cbn [default]; set_solver);
    destruct (download e (tick w) s); ScanFacts.mstep;
    intros [= <- <-]; apply same_posters_keeps;
    unfold poster_files; cbn [posters default]; rewrite ?Hp;
    cbn [default]; set_solver.
Qed.

Lemma load_state_keeps cfg e : preserves (keeps P) (load_state cfg e).
Proof.
  intros w r w' H.
  destruct (ScanFacts.load_state_spec cfg e w) as (c & old & _ & _ & Hl).
  rewrite Hl in H. injection H as <- <-. now apply same_posters_keeps.
Qed.

End Keeps.

#[export] Hint Resolve emit_keeps next_tick_keeps set_files_keeps
  set_bot_folder_state_keeps download_poster_keeps load_state_keeps : frame.

Lemma keeps_mono (P Q : string -> Prop) w w' :
  (forall g, P g -> Q g) -> keeps P w w' -> keeps Q w w'.
Proof. intros H K g Hg. destruct (K g Hg); auto. Qed.

(** Adding a folder removes no poster. *)
Lemma handle_added_keeps P cfg e dir n v :
  preserves (keeps P) (handle_added cfg e dir n v).
Proof.
  unfold handle_added, resolve_metadata, attach_poster, queue_message,
    fetch_media_metadata_from_omdb, now.
  frame (keeps P).
Qed.

(** Removing a folder removes only files that start with its sanitized
    name. *)
Lemma delete_poster_keeps e n (r : gset atom) :
  AStr n ∈ r -> preserves (keeps (names_poster_of r)) (delete_poster e n).
Proof.
  intros Hn w x w' H.
  destruct (EvictFacts.delete_poster_spec e n w) as (w1 & H1 & _ & _ & Hp).
  rewrite H1 in H. injection H as <- <-.
  intros g Hg.
  destruct (Str.startswith g (sanitize n)) eqn:Hs.
  - right. exists n. auto.
  - left. apply Hp. split; [exact Hg|]. intros [Hs' _]. congruence.
Qed.

Lemma handle_removed_keeps e n (r : gset atom) v :
  AStr n ∈ r -> preserves (keeps (names_poster_of r)) (handle_removed e n v).
Proof.
  intros Hn. unfold handle_removed.
  apply (preserves_bind _); [now apply delete_poster_keeps|intros].
  frame (keeps (names_poster_of r)).
Qed.

Lemma fold_loop_in {A S} (R : world -> world -> Prop)
    `{!Reflexive R, !Transitive R} (l : list A) (body : A -> S -> M S) s :
  (forall x s, x ∈ l -> preserves R (body x s)) ->
  preserves R (fold_loop l body s).
Proof.
  revert s. induction l as [|x l IH]; intros s Hb; simpl.
  - apply (preserves_ret R).
  - apply (preserves_bind R).
    + apply Hb. constructor.
    + intros a. apply IH. intros y t Hy. apply Hb. now constructor.
Qed.

Lemma handle_all_removed_keeps e (r : gset atom) v :
  preserves (keeps (names_poster_of r)) (handle_all_removed e r v).
Proof.
  unfold handle_all_removed. intros w x w'. rewrite bind_unfold.
  unfold lift at 1. destruct (Py.sorted r) as [l|ex] eqn:Hl;
    [|intros [= <- <-]; reflexivity].
  apply StoreFacts.sorted_elements in Hl.
  revert w x w'.
  change (preserves (keeps (names_poster_of r))
            (fold_loop l
               (fun a v => match a with
                           | AStr folder_name => handle_removed e folder_name v
                           | _ => lift (Raise AttributeError)
                           end) v)).
  apply (fold_loop_in _). intros [n| |] s Hx;
    try apply (preserves_lift _).
  apply handle_removed_keeps.
  rewrite Hl in Hx. now apply elem_of_elements in Hx.
Qed.

Lemma handle_all_added_keeps P cfg e dir a v :
  preserves (keeps P) (handle_all_added cfg e dir a v).
Proof.
  unfold handle_all_added.
  apply (preserves_bind _); [apply (preserves_lift _)|intros l].
  apply (preserves_fold_loop _). intros [n| |] s;
    try apply (preserves_lift _).
  apply handle_added_keeps.
Qed.

Lemma handle_root_keeps cfg e dir old cur root v w v' w' :
  handle_root cfg e dir old cur root v w = (Ok v', w') ->
  exists a r,
    diffs v' = (root, (a, r)) :: diffs v
    /\ keeps (names_poster_of r) w w'.
Proof.
  intros H.
  destruct (StampFacts.handle_root_holds "" PNone None _ _ _ _ _ _ _ _ _ _ H)
    as (a & r & Hd & D & _).
  exists a, r. split; [exact D|].
  unfold handle_root in H.
  apply bind_ok_inv in H as ([a' r'] & w0 & H0 & H).
  apply lift_ok_inv in H0 as [Hd' ->].
  assert (a' = a /\ r' = r) as [-> ->] by (split; congruence).
  revert H. generalize (Ok v'). intros x H. revert w x w' H.
  match goal with |- forall w x w', ?m w = (x, w') -> _ =>
    change (preserves (keeps (names_poster_of r)) m) end.
  apply (preserves_bind _).
  - destruct (bool_decide (a ≠ ∅)); [|apply (preserves_ret _)].
    apply (preserves_bind _); [apply handle_all_added_keeps|intros].
    apply (preserves_ret _).
  - intros v1. destruct (bool_decide (r ≠ ∅)); [|apply (preserves_ret _)].
    apply (preserves_bind _); [apply handle_all_removed_keeps|intros].
    apply (preserves_ret _).
Qed.

Lemma roots_loop_keeps cfg e dir old cur roots v w v' w' :
  fold_loop roots (handle_root cfg e dir old cur) v w = (Ok v', w') ->
  exists pre,
    diffs v' = pre ++ diffs v /\ keeps (names_removed_of pre) w w'.
Proof.
  revert v w. induction roots as [|root roots IH]; intros v w.
  - intros [= <- <-]. exists []. split; [reflexivity|reflexivity].
  - cbn [fold_loop]. intros H.
    apply bind_ok_inv in H as (v1 & w1 & H1 & H2).
    apply handle_root_keeps in H1 as (a & r & D1 & K1).
    destruct (IH _ _ H2) as (pre & D & K).
    exists (pre ++ [(root, (a, r))]). split.
    + now rewrite D, D1, <- app_assoc.
    + transitivity w1.
      * eapply keeps_mono; [|exact K1]. intros g Hg.
        exists root, a, r. split; [|exact Hg].
        apply elem_of_app. right. constructor.
      * eapply keeps_mono; [|exact K]. intros g (root' & a' & r' & Hin & Hg).
        exists root', a', r'. split; [|exact Hg].
        apply elem_of_app. now left.
Qed.

Lemma scan_edges_keep P cfg e :
  (forall v, preserves (keeps P) (notify cfg e v))
  /\ (forall cur v, preserves (keeps P) (persist cfg e cur v)).
Proof.
  split; intros.
  - unfold notify, send_photos, send_text, send_telegram_message,
      send_telegram_photo, api_call, log_and_return.
    frame (keeps P).
  - unfold persist, write_folder_state, write_media_metadata, dump_file, now.
    frame (keeps P).
Qed.

End KeepFacts.

(** X25. A scan deletes only posters of folders it reports as removed: a
    poster file that was there before a scan that reaches its end, and is
    not there after it, has a name that starts with the sanitized name of
    a folder in the removed set of one of the report's entries. *)
Theorem only_posters_of_removed_folders_are_deleted :
  forall cfg e w v w' g,
    Main.periodic_folder_scan cfg e w = (Ok v, w') ->
    g ∈ poster_files w ->
    g ∈ poster_files w' \/ names_removed_of (diffs v) g.
Proof.
  intros cfg e w v w' g H Hg.
  apply ScanFacts.scan_inv in H as (c & old & w1 & w2 & w3 & Hl & Hr & Hn & Hp).
  apply KeepFacts.roots_loop_keeps in Hr as (pre & D & K).
  cbn [Main.initial_vars diffs] in D. rewrite app_nil_r in D. subst pre.
  destruct (KeepFacts.scan_edges_keep (names_removed_of (diffs v)) cfg e)
    as [E2 E3].
  assert (K0 : keeps (names_removed_of (diffs v)) w w').
  { transitivity w1; [eapply KeepFacts.load_state_keeps, Hl|].
    transitivity w2; [exact K|].
    transitivity w3; [eapply E2, Hn|eapply E3, Hp]. }
  exact (K0 g Hg).
Qed.

Lemma only_posters_of_removed_folders_are_deleted_witness :
  Main.periodic_folder_scan Example.cfg Example.e Sample.stocked
  = (Ok (Sample.outcome Example.cfg Example.e Sample.stocked).1,
     (Sample.outcome Example.cfg Example.e Sample.stocked).2)
  /\ "Heat.jpg" ∈ poster_files Sample.stocked
  /\ ("Heat.jpg"
        ∈ poster_files (Sample.outcome Example.cfg Example.e Sample.stocked).2
      \/ names_removed_of
           (diffs (Sample.outcome Example.cfg Example.e Sample.stocked).1)
           "Heat.jpg").
Proof.
  assert (H : Main.periodic_folder_scan Example.cfg Example.e Sample.stocked
              = (Ok (Sample.outcome Example.cfg Example.e Sample.stocked).1,
                 (Sample.outcome Example.cfg Example.e Sample.stocked).2))
    by (vm_compute; reflexivity).
  assert (G : "Heat.jpg" ∈ poster_files Sample.stocked)
    by (refine (bool_decide_unpack _ _); vm_compute; exact I).
  split; [exact H|]. split; [exact G|].
  exact (only_posters_of_removed_folders_are_deleted _ _ _ _ _ _ H G).
Defined.
